(** * Gazebo glue code: [SimbodyModel] and [Visual]

    A shallow embedding of the two adapter classes of the repository:

    - [gazebo/physics/simbody/SimbodyModel.cc]: [SimbodyModel::Load] and
      [SimbodyModel::Init], which drive the initialisation of links, nested
      models, grippers and joints and publish the joint messages;
    - the rendering [Visual] class, which creates and mutates Ogre scene
      nodes.

    Both classes are thin wrappers.  What they call (Gazebo's [Link],
    [Joint], [Gripper], [Model], [SimbodyPhysics]; Ogre's scene manager) is
    not part of the embedded sources: the physics side is taken as an
    interface ([Simbody.Physics]), the Ogre side as a small executable model
    of the scene manager ([Rendering.Ogre]). *)

From Stdlib Require Import ZArith Floats.SpecFloat.
From stdpp Require Import gmap strings list pretty.

Set Default Proof Using "Type".

(** ** Part I: SimbodyModel *)

Module Simbody.

(** How a call into foreign code ends. *)
Inductive completion : Type := Returns | Throws.

(** The collaborators of [SimbodyModel].  Objects are named by numbers; the
    interface threads one opaque world state through every call.  The
    [Init] methods and [Model::Load] may throw; the pose accessors,
    [Joint::FillMsg] and the publisher are taken not to. *)
Class Physics : Type := {
  World : Type;
  Pose : Type;
  JointMsg : Type;
  Sdf : Type;
  (** [Entity::GetWorldPose], [SetInitialRelativePose], [SetRelativePose] *)
  GetWorldPose : nat → World → Pose;
  SetInitialRelativePose : nat → Pose → World → World;
  SetRelativePose : nat → Pose → World → World;
  (** [Link::Init], [Gripper::Init] *)
  Link_Init : nat → World → World * completion;
  Gripper_Init : nat → World → World * completion;
  (** whether [GetWorld()->GetPhysicsEngine()] is a [SimbodyPhysics]; the
      engine is chosen when the world is created *)
  engine_is_simbody : bool;
  SimbodyPhysics_InitModel : nat → World → World * completion;
  (** [Joint::Init], [Joint::FillMsg] *)
  Joint_Init : nat → World → World * completion;
  Joint_FillMsg : nat → World → JointMsg;
  (** the base-class method [Model::Load] *)
  Model_Load : nat → Sdf → World → World * completion
}.

#[local] Set Warnings "-register-all".

(** [Base::EntityType], as far as [Init] tests it. *)
Inductive EntityType : Type := LINK | MODEL.

(** The children tree of a model.  A child is a link, a nested model with
    its own children, grippers and joints, or some other [Base]. *)
Inductive Base : Type :=
| Link (id : nat)
| Model (id : nat) (children : list Base) (grippers : list nat)
        (joints : list nat)
| Other (id : nat).

Definition GetId (b : Base) : nat :=
  match b with
  | Link id => id
  | Model id _ _ _ => id
  | Other id => id
  end.

Definition HasType (b : Base) (t : EntityType) : bool :=
  match b, t with
  | Link _, LINK => true
  | Model _ _ _ _, MODEL => true
  | _, _ => false
  end.

Section WithPhysics.
Context `{Physics}.

(** What one invocation of a [SimbodyModel] method does, call by call.  The
    calls made inside the [Init] of a nested model are kept inside its
    [EModelInit] event: the top level of a trace is what this invocation did
    itself. *)
Inductive Event : Type :=
| ESetInitialRelativePose (model : nat) (p : Pose)
| ESetRelativePose (model : nat) (p : Pose)
| ELinkInit (link : nat)
| EModelInit (model : nat) (inner : list Event)
| EGripperInit (gripper : nat)
| EInitModel (model : nat)
| EJointInit (joint : nat) (c : completion)
| EErr (msg : string)
| EPublish (msg : JointMsg)
| EModelLoad (model : nat) (sdf : Sdf).

Inductive outcome (A : Type) : Type :=
| Returned (a : A)
| Thrown.
Global Arguments Returned {A} a.
Global Arguments Thrown {A}.

(** Computations: they read and update the world, log their calls and either
    return or leave with an exception. *)
Definition M (A : Type) : Type := World → list Event * World * outcome A.

Definition ret {A} (a : A) : M A := λ w, ([], w, Returned a).

Definition bind {A B} (c : M A) (k : A → M B) : M B :=
  λ w,
    match c w with
    | (t1, w1, Returned a) =>
        match k a w1 with
        | (t2, w2, r) => (t1 ++ t2, w2, r)
        end
    | (t1, w1, Thrown) => (t1, w1, Thrown)
    end.

#[export] Instance M_ret : MRet M := @ret.
#[export] Instance M_bind : MBind M := λ A B k c, bind c k.

(** [try { c } catch (...) { h }] *)
Definition try_catch {A} (c h : M A) : M A :=
  λ w,
    match c w with
    | (t1, w1, Thrown) =>
        match h w1 with
        | (t2, w2, r) => (t1 ++ t2, w2, r)
        end
    | r => r
    end.

Definition emit (e : Event) : M unit := λ w, ([e], w, Returned tt).

Definition get {A} (f : World → A) : M A := λ w, ([], w, Returned (f w)).

Definition modify (e : Event) (f : World → World) : M unit :=
  λ w, ([e], f w, Returned tt).

(** A call into foreign code, logged as [e]. *)
Definition extcall (e : Event) (f : World → World * completion) : M unit :=
  λ w,
    match f w with
    | (w', Returns) => ([e], w', Returned tt)
    | (w', Throws) => ([e], w', Thrown)
    end.

(** The call of [Init] on a joint; the event records how it ended. *)
Definition call_Joint_Init (j : nat) : M unit :=
  λ w,
    match Joint_Init j w with
    | (w', Returns) => ([EJointInit j Returns], w', Returned tt)
    | (w', Throws) => ([EJointInit j Throws], w', Thrown)
    end.

(** The call of [SimbodyModel::Init] on a child model: its calls become the
    inner trace of one event. *)
Definition nested (model : nat) (c : M unit) : M unit :=
  λ w,
    match c w with
    | (t, w', r) => ([EModelInit model t], w', r)
    end.

(** How a loop body ends: fall through to the next iteration, or [return]
    from the enclosing function. *)
Inductive flow : Type := Next | Return.

(** [for (iter = v.begin(); iter != v.end(); ++iter) { body }] *)
Fixpoint for_each {A} (body : A → M unit) (v : list A) : M unit :=
  match v with
  | [] => ret tt
  | x :: v' => body x ;; for_each body v'
  end.

(** The same loop with a body that may [return]. *)
Fixpoint for_each_return {A} (body : A → M flow) (v : list A) : M flow :=
  match v with
  | [] => ret Next
  | x :: v' =>
      f ← body x;
      match f with
      | Next => for_each_return body v'
      | Return => ret Return
      end
  end.

(** [SimbodyModel::Load] *)
Definition SimbodyModel_Load (this : nat) (_sdf : Sdf) : M unit :=
  extcall (EModelLoad this _sdf) (Model_Load this _sdf).

(** What the claim about [Load] compares it with: the call of the base
    class method [Model::Load] on the same object, and nothing else. *)
Definition Model_Load_effect (this : nat) (_sdf : Sdf) : M unit :=
  λ w,
    match Model_Load this _sdf w with
    | (w', Returns) => ([EModelLoad this _sdf], w', Returned tt)
    | (w', Throws) => ([EModelLoad this _sdf], w', Thrown)
    end.

(** The body of the joint loop of [Init]:
    [try { joint->Init(); } catch(...) { gzerr << ...; return; }] *)
Definition init_joint (j : nat) : M flow :=
  try_catch
    (call_Joint_Init j ;; ret Next)
    (emit (EErr "Init joint failed") ;; ret Return).

(** The body of the message loop of [Init]. *)
Definition publish_joint (j : nat) : M unit :=
  msg ← get (Joint_FillMsg j);
  emit (EPublish msg).

(** The body of the children loop of [Init]; [Init] is the method itself,
    called on child models. *)
Definition init_child (Init : Base → M unit) (c : Base) : M unit :=
  if HasType c LINK then
    extcall (ELinkInit (GetId c)) (Link_Init (GetId c))
  else if HasType c MODEL then
    nested (GetId c) (Init c)
  else ret tt.

Definition init_gripper (g : nat) : M unit :=
  extcall (EGripperInit g) (Gripper_Init g).

(** [if (simbodyPhysics) simbodyPhysics->InitModel(this)] *)
Definition rebuild_simbody_state (id : nat) : M unit :=
  if engine_is_simbody then
    extcall (EInitModel id) (SimbodyPhysics_InitModel id)
  else ret tt.

(** [SimbodyModel::Init] *)
Fixpoint SimbodyModel_Init (this : Base) : M unit :=
  match this with
  | Model id children grippers joints =>
      (* Record the model's initial pose (for reseting) *)
      p ← get (GetWorldPose id);
      modify (ESetInitialRelativePose id p) (SetInitialRelativePose id p);;
      p ← get (GetWorldPose id);
      modify (ESetRelativePose id p) (SetRelativePose id p);;
      (* Initialize the bodies before the joints *)
      for_each (init_child SimbodyModel_Init) children;;
      for_each init_gripper grippers;;
      (* rebuild simbody state *)
      rebuild_simbody_state id;;
      (* Initialize the joints last. *)
      f ← for_each_return init_joint joints;
      match f with
      | Return => ret tt
      | Next =>
          (* Initialize the joints messages for visualizer *)
          for_each publish_joint joints
      end
  | _ => ret tt (* not a model: the method is never called on it *)
  end.

(** *** Observations on traces *)

(** The child a top-level event initialises, if it is such a call. *)
Definition child_call (e : Event) : option (EntityType * nat) :=
  match e with
  | ELinkInit l => Some (LINK, l)
  | EModelInit m _ => Some (MODEL, m)
  | _ => None
  end.

(** The call [Init] owes to a child: links and models, nothing else. *)
Definition child_target (c : Base) : option (EntityType * nat) :=
  if HasType c LINK then Some (LINK, GetId c)
  else if HasType c MODEL then Some (MODEL, GetId c)
  else None.

Definition joint_call (e : Event) : option (nat * completion) :=
  match e with
  | EJointInit j c => Some (j, c)
  | _ => None
  end.

Definition published (e : Event) : option JointMsg :=
  match e with
  | EPublish msg => Some msg
  | _ => None
  end.

(** Events of the part of [Init] that deals with bodies and grippers. *)
Definition body_event (e : Event) : bool :=
  match e with
  | ESetInitialRelativePose _ _ | ESetRelativePose _ _
  | ELinkInit _ | EModelInit _ _ | EGripperInit _ => true
  | _ => false
  end.

(** Events of the part of [Init] that deals with joints. *)
Definition joint_event (e : Event) : bool :=
  match e with
  | EJointInit _ _ | EErr _ | EPublish _ => true
  | _ => false
  end.

End WithPhysics.

(** A small world to run the methods in: the world state is the list of
    the objects initialised so far, the newest first; the [Init] of joint
    13 throws; a joint message is the joint together with the number of
    objects initialised when it is filled. *)
Definition toy_physics : Physics := {|
  World := list nat;
  Pose := nat;
  JointMsg := nat * nat;
  Sdf := string;
  GetWorldPose := λ _ w, length w;
  SetInitialRelativePose := λ _ _ w, w;
  SetRelativePose := λ _ _ w, w;
  Link_Init := λ l w, (l :: w, Returns);
  Gripper_Init := λ g w, (g :: w, Returns);
  engine_is_simbody := true;
  SimbodyPhysics_InitModel := λ _ w, (w, Returns);
  Joint_Init := λ j w,
    if decide (j = 13) then (w, Throws) else (j :: w, Returns);
  Joint_FillMsg := λ j w, (j, length w);
  Model_Load := λ _ _ w, (w, Returns)
|}.

(** An arm with two links, a nested hand, a gripper and some joints. *)
Definition toy_children : list Base :=
  [Link 2; Model 3 [Link 4] [] [5]; Other 6; Link 7].

Definition toy_arm (joints : list nat) : Base :=
  Model 1 toy_children [8] joints.

(** The calls the toy arm makes before it turns to its joints. *)
Definition toy_prelude : list (@Event toy_physics) :=
  [@ESetInitialRelativePose toy_physics 1 0;
   @ESetRelativePose toy_physics 1 0;
   ELinkInit 2;
   EModelInit 3
     [@ESetInitialRelativePose toy_physics 3 1;
      @ESetRelativePose toy_physics 3 1;
      ELinkInit 4; EInitModel 3; EJointInit 5 Returns;
      @EPublish toy_physics (5, 3)];
   ELinkInit 7; EGripperInit 8; EInitModel 1].

End Simbody.

(** ** Part II: the rendering Visual *)

Module Rendering.

(** *** Scalars

    [float] and [double] values are IEEE values; comparisons are the IEEE
    ones, so every comparison with a NaN is false.  Gazebo's vectors and
    quaternions hold [double]s, [Ogre::Real] is [float]: a scalar is
    rounded where it goes from Gazebo to Ogre, and widened where it comes
    back. *)
Abbreviation real := spec_float.

Definition zero : real := S754_zero false.
(** [1.0f] in binary32 and [1.0] in binary64 *)
Definition one_f : real := S754_finite false 8388608 (-23).
Definition one_d : real := S754_finite false 4503599627370496 (-52).

(** [std::max(a, b)] is [(a < b) ? b : a], [std::min(a, b)] is
    [(b < a) ? b : a]. *)
Definition std_max (a b : real) : real := if SFltb a b then b else a.
Definition std_min (a b : real) : real := if SFltb b a then b else a.

(** binary32 subtraction *)
Definition fsub (a b : real) : real := SFsub 24 128 a b.

(** The conversion of a [double] to a [float], as where a [double] is
    passed for an [Ogre::Real] or stored through a [float] pointer: the
    nearest binary32 value, infinity beyond the range. *)
Definition to_float (d : real) : real :=
  match d with
  | S754_finite s m e => binary_round 24 128 s m e
  | _ => d
  end.

(** The conversion of a [float] to a [double]: the same number, as a
    binary64 value. *)
Definition to_double (f : real) : real :=
  match f with
  | S754_finite s m e => binary_round 53 1024 s m e
  | _ => f
  end.

Global Arguments to_float : simpl never.
Global Arguments to_double : simpl never.

(** The conversion of an integer to [unsigned short]. *)
Definition to_ushort (i : N) : N := (i mod 65536)%N.

(** A number that is passed for an [unsigned short] parameter. *)
Definition ushort (num : nat) : nat := N.to_nat (to_ushort (N.of_nat num)).

Global Arguments ushort : simpl never.

(** *** Gazebo's math types *)

Module Vector3.
Record t : Type := mk { x : real; y : real; z : real }.
(** Modelled from the spec: the default constructor [Vector3()], declared
    in a header that is not among the sources, gives the zero vector. *)
Definition default : t := mk zero zero zero.
End Vector3.

Module Quatern.
Record t : Type := mk { u : real; x : real; y : real; z : real }.
(** The default constructor [Quatern()] is declared in a header that is not
    among the sources; it is taken to give the identity. *)
Definition default : t := mk one_d zero zero zero.
End Quatern.

Module Pose3d.
Record t : Type := mk { pos : Vector3.t; rot : Quatern.t }.
Definition default : t := mk Vector3.default Quatern.default.
End Pose3d.

(** What is left of a [double] that has been an [Ogre::Real], and of a
    vector, a quaternion and a pose of such. *)
Definition through_Ogre (d : real) : real := to_double (to_float d).

Definition vector_through_Ogre (v : Vector3.t) : Vector3.t :=
  Vector3.mk (through_Ogre (Vector3.x v)) (through_Ogre (Vector3.y v))
             (through_Ogre (Vector3.z v)).

Definition quatern_through_Ogre (q : Quatern.t) : Quatern.t :=
  Quatern.mk (through_Ogre (Quatern.u q)) (through_Ogre (Quatern.x q))
             (through_Ogre (Quatern.y q)) (through_Ogre (Quatern.z q)).

Definition pose_through_Ogre (p : Pose3d.t) : Pose3d.t :=
  Pose3d.mk (vector_through_Ogre (Pose3d.pos p))
            (quatern_through_Ogre (Pose3d.rot p)).

(** *** A model of the part of Ogre the Visual uses

    The scene manager keeps its scene nodes by name, and a scene node
    pointer is modelled by that name.  A movable object is attached to at
    most one node, so a node holds its attached objects by value.  The
    setters of a node store their arguments as [Ogre::Real], which is
    single precision: a double handed to them is rounded.  Materials are
    shared: they live in the material manager and are referred to by
    name. *)
Module Ogre.

Module Vector3.
Record t : Type := mk { x : real; y : real; z : real }.
End Vector3.

Module Quaternion.
Record t : Type := mk { w : real; x : real; y : real; z : real }.
End Quaternion.

Record ColourValue : Type :=
  { r : real; g : real; b : real; a : real }.

Record Pass : Type :=
  { depthWriteEnabled : bool; diffuse : ColourValue }.

(** A material is a list of techniques, a technique a list of passes. *)
Abbreviation Material := (list (list Pass)).

(** An attached object is an [Ogre::Entity], with the material name of
    each of its sub-entities, or it is taken for an
    [Ogre::SimpleRenderable], as the casts of the Visual take it. *)
Inductive MovableObject : Type :=
| Entity (name : string) (castShadows : bool) (subEntities : list string)
| SimpleRenderable (name : string) (castShadows : bool) (material : string).

Definition getCastShadows (obj : MovableObject) : bool :=
  match obj with
  | Entity _ c _ => c
  | SimpleRenderable _ c _ => c
  end.

Definition setCastShadows (enabled : bool) (obj : MovableObject)
  : MovableObject :=
  match obj with
  | Entity n _ subs => Entity n enabled subs
  | SimpleRenderable n _ m => SimpleRenderable n enabled m
  end.

(** [dynamic_cast<Ogre::Entity*>(obj)] is not null *)
Definition isEntity (obj : MovableObject) : bool :=
  match obj with
  | Entity _ _ _ => true
  | SimpleRenderable _ _ _ => false
  end.

(** Giving an object a material: all the sub-entities of an entity take
  it. *)
Definition setMaterialName (material : string) (obj : MovableObject)
  : MovableObject :=
  match obj with
  | Entity n c subs => Entity n c (map (λ _, material) subs)
  | SimpleRenderable n c _ => SimpleRenderable n c material
  end.

(** The material names an object shows. *)
Definition materialNames (obj : MovableObject) : list string :=
  match obj with
  | Entity _ _ subs => subs
  | SimpleRenderable _ _ m => [m]
  end.

Record SceneNode : Type := {
  parent : option string;
  children : list string;
  position : Vector3.t;
  orientation : Quaternion.t;
  scale : Vector3.t;
  attached : list MovableObject
}.

Definition newSceneNode (parent : string) : SceneNode := {|
  parent := Some parent;
  children := [];
  position := Vector3.mk zero zero zero;
  orientation := Quaternion.mk one_d zero zero zero;
  scale := Vector3.mk one_d one_d one_d;
  attached := []
|}.

Definition addChild (child : string) (n : SceneNode) : SceneNode := {|
  parent := parent n;
  children := children n ++ [child];
  position := position n;
  orientation := orientation n;
  scale := scale n;
  attached := attached n
|}.

(** [setPosition(Real x, Real y, Real z)] and
    [setOrientation(Real w, Real x, Real y, Real z)]: the [double]s the
    Visual passes are converted to [Ogre::Real]. *)
Definition setPosition (x y z : real) (n : SceneNode) : SceneNode := {|
  parent := parent n;
  children := children n;
  position := Vector3.mk (to_float x) (to_float y) (to_float z);
  orientation := orientation n;
  scale := scale n;
  attached := attached n
|}.

Definition setOrientation (w x y z : real) (n : SceneNode) : SceneNode := {|
  parent := parent n;
  children := children n;
  position := position n;
  orientation :=
    Quaternion.mk (to_float w) (to_float x) (to_float y) (to_float z);
  scale := scale n;
  attached := attached n
|}.

Definition setAttached (objs : list MovableObject) (n : SceneNode)
  : SceneNode := {|
  parent := parent n;
  children := children n;
  position := position n;
  orientation := orientation n;
  scale := scale n;
  attached := objs
|}.

Definition numAttachedObjects (n : SceneNode) : nat := length (attached n).

(** The scene manager with its nodes, and the material manager. *)
Record Root : Type := {
  sceneNodes : gmap string SceneNode;
  rootSceneNode : string;
  materials : gmap string Material
}.

Definition setSceneNodes (ns : gmap string SceneNode) (o : Root) : Root :=
  {| sceneNodes := ns;
     rootSceneNode := rootSceneNode o;
     materials := materials o |}.

Definition setMaterials (ms : gmap string Material) (o : Root) : Root :=
  {| sceneNodes := sceneNodes o;
     rootSceneNode := rootSceneNode o;
     materials := ms |}.

(** [Ogre::StaticGeometry], as far as the Visual uses it *)
Record StaticGeometry : Type := { sgCastShadows : bool }.

End Ogre.

(** *** The Visual *)

(** The [Param] members of a Visual *)
Record Params : Type := {
  xyzP : Vector3.t;
  rpyP : Quatern.t;
  meshNameP : string;
  meshTileP : real * real;
  materialNameP : string;
  castShadowsP : bool;
  scaleP : Vector3.t;
  normalMapNameP : string;
  shaderP : string
}.

Record Visual : Type := {
  name : string;
  parent : option string;
  sceneNode : option string;
  transparency : real;
  isStatic : bool;
  useRTShader : bool;
  visible : bool;
  ribbonTrail : option string;
  boundingBoxNode : option string;
  staticGeom : option Ogre.StaticGeometry;
  origMaterialName : string;
  myMaterialName : string;
  parameters : option Params
}.

Definition setSceneNode (n : option string) (v : Visual) : Visual := {|
  name := name v; parent := parent v;
  sceneNode := n;
  transparency := transparency v; isStatic := isStatic v;
  useRTShader := useRTShader v; visible := visible v;
  ribbonTrail := ribbonTrail v; boundingBoxNode := boundingBoxNode v;
  staticGeom := staticGeom v;
  origMaterialName := origMaterialName v; myMaterialName := myMaterialName v;
  parameters := parameters v
|}.

Definition setTransparency (t : real) (v : Visual) : Visual := {|
  name := name v; parent := parent v;
  sceneNode := sceneNode v;
  transparency := t; isStatic := isStatic v;
  useRTShader := useRTShader v; visible := visible v;
  ribbonTrail := ribbonTrail v; boundingBoxNode := boundingBoxNode v;
  staticGeom := staticGeom v;
  origMaterialName := origMaterialName v; myMaterialName := myMaterialName v;
  parameters := parameters v
|}.

Definition setStaticGeom (g : option Ogre.StaticGeometry) (v : Visual)
  : Visual := {|
  name := name v; parent := parent v;
  sceneNode := sceneNode v;
  transparency := transparency v; isStatic := isStatic v;
  useRTShader := useRTShader v; visible := visible v;
  ribbonTrail := ribbonTrail v; boundingBoxNode := boundingBoxNode v;
  staticGeom := g;
  origMaterialName := origMaterialName v; myMaterialName := myMaterialName v;
  parameters := parameters v
|}.

Definition setOrigMaterialName (m : string) (v : Visual) : Visual := {|
  name := name v; parent := parent v;
  sceneNode := sceneNode v;
  transparency := transparency v; isStatic := isStatic v;
  useRTShader := useRTShader v; visible := visible v;
  ribbonTrail := ribbonTrail v; boundingBoxNode := boundingBoxNode v;
  staticGeom := staticGeom v;
  origMaterialName := m; myMaterialName := myMaterialName v;
  parameters := parameters v
|}.

Definition setMyMaterialName (m : string) (v : Visual) : Visual := {|
  name := name v; parent := parent v;
  sceneNode := sceneNode v;
  transparency := transparency v; isStatic := isStatic v;
  useRTShader := useRTShader v; visible := visible v;
  ribbonTrail := ribbonTrail v; boundingBoxNode := boundingBoxNode v;
  staticGeom := staticGeom v;
  origMaterialName := origMaterialName v; myMaterialName := m;
  parameters := parameters v
|}.

(** What a Visual reaches through singletons: the flag of the simulator
    ([Simulator::Instance()->GetRenderEngineEnabled()]), Ogre, what [gzerr]
    and [gzmsg] have written, and the visuals attached to the
    [RTShaderSystem]. *)
Record System : Type := {
  renderEngineEnabled : bool;
  ogre : Ogre.Root;
  messages : list string;
  rtShaderEntities : list string
}.

Definition setOgre (o : Ogre.Root) (s : System) : System :=
  {| renderEngineEnabled := renderEngineEnabled s;
     ogre := o;
     messages := messages s;
     rtShaderEntities := rtShaderEntities s |}.

Definition addMessage (m : string) (s : System) : System :=
  {| renderEngineEnabled := renderEngineEnabled s;
     ogre := ogre s;
     messages := messages s ++ [m];
     rtShaderEntities := rtShaderEntities s |}.

Definition addRTShaderEntity (v : string) (s : System) : System :=
  {| renderEngineEnabled := renderEngineEnabled s;
     ogre := ogre s;
     messages := messages s;
     rtShaderEntities := rtShaderEntities s ++ [v] |}.

(** *** Computations of the methods of a Visual *)

Record State : Type := { this : Visual; sys : System }.

(** A method returns, leaves with an exception, or dereferences a null or
    dangling pointer. *)
Inductive outcome (A : Type) : Type :=
| Returned (a : A)
| Thrown (what : string)
| Crashed.
Global Arguments Returned {A} a.
Global Arguments Thrown {A} what.
Global Arguments Crashed {A}.

Definition M (A : Type) : Type := State → outcome A * State.

Definition ret {A} (a : A) : M A := λ s, (Returned a, s).

Definition bind {A B} (c : M A) (k : A → M B) : M B :=
  λ s,
    match c s with
    | (Returned a, s') => k a s'
    | (Thrown e, s') => (Thrown e, s')
    | (Crashed, s') => (Crashed, s')
    end.

#[export] Instance M_ret : MRet M := @ret.
#[export] Instance M_bind : MBind M := λ A B k c, bind c k.

Definition throw {A} (what : string) : M A := λ s, (Thrown what, s).
Definition crash {A} : M A := λ s, (Crashed, s).

(** [try { c } catch (Ogre::Exception e) { h }] *)
Definition try_catch {A} (c : M A) (h : string → M A) : M A :=
  λ s,
    match c s with
    | (Thrown e, s') => h e s'
    | r => r
    end.

Definition gets {A} (f : State → A) : M A := λ s, (Returned (f s), s).

Definition modify_this (f : Visual → Visual) : M unit :=
  λ s, (Returned tt, {| this := f (this s); sys := sys s |}).

Definition modify_sys (f : System → System) : M unit :=
  λ s, (Returned tt, {| this := this s; sys := f (sys s) |}).

Definition modify_ogre (f : Ogre.Root → Ogre.Root) : M unit :=
  modify_sys (λ s, setOgre (f (ogre s)) s).

(** [gzerr(0) << m] and [gzmsg(0) << m] *)
Definition gzerr (m : string) : M unit := modify_sys (addMessage m).
Definition gzmsg (m : string) : M unit := modify_sys (addMessage m).

Definition GetRenderEngineEnabled : M bool :=
  gets (λ s, renderEngineEnabled (sys s)).

(** How a block ends: fall through, or [return] from the method. *)
Inductive flow : Type := Next | Return.

(** A loop over the elements of [v].  The counted loops of the Visual,
    [for (i = 0; i < node->numAttachedObjects(); i++)], run over
    [seq 0 n] with [n] read when the loop is entered: their bodies neither
    attach nor detach an object. *)
Fixpoint for_each {A} (body : A → M unit) (v : list A) : M unit :=
  match v with
  | [] => ret tt
  | x :: v' => body x ;; for_each body v'
  end.

(** *** Calls on Ogre objects through pointers *)

(** The state in which the node called [n] is [nd]. *)
Definition with_node (n : string) (nd : Ogre.SceneNode) (s : State) : State :=
  {| this := this s;
     sys := setOgre
              (Ogre.setSceneNodes
                 (<[n := nd]> (Ogre.sceneNodes (ogre (sys s))))
                 (ogre (sys s)))
              (sys s) |}.

Definition store_node (n : string) (nd : Ogre.SceneNode) : M unit :=
  λ s, (Returned tt, with_node n nd s).

(** Dereferencing a scene node pointer gives the node, with the name the
    scene manager has it under; a null or dangling pointer ends the
    program. *)
Definition deref (node : option string) : M (string * Ogre.SceneNode) :=
  match node with
  | None => crash
  | Some n =>
      o ← gets (λ s, Ogre.sceneNodes (ogre (sys s)) !! n);
      match o with
      | None => crash
      | Some nd => ret (n, nd)
      end
  end.

(** A call that changes the node behind a pointer. *)
Definition update (node : option string)
    (f : Ogre.SceneNode → Ogre.SceneNode) : M unit :=
  '(n, nd) ← deref node;
  store_node n (f nd).

(** [node->getName()] *)
Definition getName (node : option string) : M string :=
  '(n, _) ← deref node;
  ret n.

(** [node->numAttachedObjects()] *)
Definition numAttachedObjects (node : option string) : M nat :=
  '(_, nd) ← deref node;
  ret (Ogre.numAttachedObjects nd).

(** [node->getAttachedObject(i)]: an index out of range is an
    [Ogre::Exception]. *)
Definition getAttachedObject (node : option string) (i : nat)
  : M Ogre.MovableObject :=
  '(_, nd) ← deref node;
  match Ogre.attached nd !! i with
  | Some obj => ret obj
  | None => throw "Object index out of bounds."
  end.

(** Storing back the object behind the pointer [getAttachedObject] gave. *)
Definition putAttachedObject (node : option string) (i : nat)
    (obj : Ogre.MovableObject) : M unit :=
  update node (λ nd, Ogre.setAttached (<[i := obj]> (Ogre.attached nd)) nd).

(** [node->attachObject(obj)], for an object that is not attached yet *)
Definition attachObject (node : option string) (obj : Ogre.MovableObject)
  : M unit :=
  update node (λ nd, Ogre.setAttached (Ogre.attached nd ++ [obj]) nd).

(** [parent->createChildSceneNode(name)]: the scene manager refuses a name
    it already has; otherwise it registers a new node below [parent]. *)
Definition createChildSceneNode (parent : option string) (name : string)
  : M (option string) :=
  '(p, pnd) ← deref parent;
  nodes ← gets (λ s, Ogre.sceneNodes (ogre (sys s)));
  match nodes !! name with
  | Some _ =>
      throw ("A scene node with the name " +:+ name +:+ " already exists")
  | None =>
      modify_ogre
        (λ o, Ogre.setSceneNodes
                (<[name := Ogre.newSceneNode p]>
                   (<[p := Ogre.addChild name pnd]> (Ogre.sceneNodes o)))
                o);;
      ret (Some name)
  end.

(** [Ogre::MaterialManager::getSingleton().getByName(name)]; [None] is the
    null [MaterialPtr]. *)
Definition getByName (name : string) : M (option Ogre.Material) :=
  gets (λ s, Ogre.materials (ogre (sys s)) !! name).

(** [Ogre::MaterialManager::getSingleton().resourceExists(name)] *)
Definition resourceExists (name : string) : M bool :=
  gets (λ s, bool_decide (is_Some (Ogre.materials (ogre (sys s)) !! name))).

(** [orig->clone(newName)] *)
Definition clone (orig : Ogre.Material) (newName : string)
  : M Ogre.Material :=
  modify_ogre
    (λ o, Ogre.setMaterials (<[newName := orig]> (Ogre.materials o)) o);;
  ret orig.

(** [((Ogre::Entity* )obj)->setMaterialName(name)] *)
Definition Entity_setMaterialName (name : string) (obj : Ogre.MovableObject)
  : M Ogre.MovableObject :=
  ret (Ogre.setMaterialName name obj).

(** [((Ogre::SimpleRenderable* )obj)->setMaterial(name)]: a name the
    material manager does not have is an [Ogre::Exception]. *)
Definition SimpleRenderable_setMaterial (name : string)
    (obj : Ogre.MovableObject) : M Ogre.MovableObject :=
  ex ← resourceExists name;
  if ex : bool then ret (Ogre.setMaterialName name obj)
  else throw ("Could not find material " +:+ name).

(** *** The methods of Visual *)

(** Gazebo's [Scene]: the model has one, whose scene manager is the one of
    [System]. *)
Inductive Scene : Type := TheScene.

Definition nl : string := String (Ascii.ascii_of_nat 10) "".

(** The object as the constructor finds it: the name and the parent are
    set by [SetName] and [Common(parent)], [sceneNode] is [NULL]; the
    members nothing has written yet are given fixed values. *)
Definition allocate (name : string) (parent : option string) : Visual := {|
  name := name; parent := parent;
  sceneNode := None;
  transparency := zero; isStatic := false;
  useRTShader := false; visible := false;
  ribbonTrail := None; boundingBoxNode := None;
  staticGeom := None;
  origMaterialName := ""; myMaterialName := "";
  parameters := None
|}.

(** [Visual::GetSceneNode] *)
Definition GetSceneNode (v : Visual) : option string := sceneNode v.

(** [Visual::Init], the helper of the constructors *)
Definition Init : M unit :=
  modify_this (λ v, {|
    name := name v; parent := parent v;
    sceneNode := sceneNode v;
    transparency := zero; isStatic := false;
    useRTShader := true; visible := true;
    ribbonTrail := None; boundingBoxNode := None;
    staticGeom := None;
    origMaterialName := origMaterialName v;
    myMaterialName := myMaterialName v;
    parameters := Some {|
      xyzP := Vector3.mk zero zero zero;
      rpyP := Quatern.mk one_d zero zero zero;
      meshNameP := "";
      meshTileP := (one_d, one_d);
      materialNameP := "none";
      castShadowsP := true;
      scaleP := Vector3.mk one_d one_d one_d;
      normalMapNameP := "none";
      shaderP := "pixel"
    |}
  |});;
  v ← gets (λ s, name (this s));
  modify_sys (addRTShaderEntity v).

(** Running a constructor body on the fresh object. *)
Definition construct (name : string) (parent : option string)
    (body : M unit) (world : System) : outcome unit * State :=
  body {| this := allocate name parent; sys := world |}.

(** [Visual::Visual(const std::string &name, Visual *parent)] *)
Definition Visual_from_Visual (name : string) (parent : option Visual)
  : System → outcome unit * State :=
  construct name (Rendering.name <$> parent)
    (pnode ← match parent with
             | Some p => ret (GetSceneNode p)
             | None =>
                 gzerr ("Create a visual, invalid parent!!!" +:+ nl);;
                 ret None
             end;
     nm ← gets (λ s, Rendering.name (this s));
     node ← createChildSceneNode pnode nm;
     modify_this (setSceneNode node);;
     Init).

(** [Visual::Visual(const std::string &name, Ogre::SceneNode *parent)] *)
Definition Visual_from_SceneNode (name : string) (parent : string)
  : System → outcome unit * State :=
  construct name None
    (nm ← gets (λ s, Rendering.name (this s));
     node ← createChildSceneNode (Some parent) nm;
     modify_this (setSceneNode node);;
     Init).

(** [Visual::Visual(const std::string &name, Scene *scene)]; the scene
    gives the scene manager, the scene manager its root node. *)
Definition Visual_from_Scene (name : string) (scene : Scene)
  : System → outcome unit * State :=
  construct name None
    (root ← gets (λ s, Ogre.rootSceneNode (ogre (sys s)));
     nm ← gets (λ s, Rendering.name (this s));
     node ← createChildSceneNode (Some root) nm;
     modify_this (setSceneNode node);;
     Init).

(** [Visual::AttachObject] *)
Definition AttachObject (obj : Ogre.MovableObject) : M unit :=
  en ← GetRenderEngineEnabled;
  if negb en then ret tt else
  node ← gets (λ s, sceneNode (this s));
  attachObject node obj.

(** [Visual::GetNumAttached] *)
Definition GetNumAttached : M nat :=
  en ← GetRenderEngineEnabled;
  if negb en then ret 0 else
  node ← gets (λ s, sceneNode (this s));
  numAttachedObjects node.

(** [Visual::GetAttached]; [None] is [NULL].  The parameter is an
    [unsigned short]: the number the caller passes arrives modulo 65536. *)
Definition GetAttached (num : nat) : M (option Ogre.MovableObject) :=
  en ← GetRenderEngineEnabled;
  if negb en then ret None else
  node ← gets (λ s, sceneNode (this s));
  obj ← getAttachedObject node (ushort num);
  ret (Some obj).

(** [Visual::GetMaterialName] *)
Definition GetMaterialName (v : Visual) : string := myMaterialName v.

(** [Visual::SetMaterial] *)
Definition SetMaterial (materialName : string) : M unit :=
  en ← GetRenderEngineEnabled;
  if negb en then ret tt else
  if bool_decide (materialName = "") then ret tt else
  node ← gets (λ s, sceneNode (this s));
  got ← try_catch
          (modify_this (setOrigMaterialName materialName);;
           (* Get the original material *)
           origMaterial ← getByName materialName;
           ret (Next, origMaterial))
          (λ _,
             nm ← getName node;
             gzmsg ("Unable to get Material[" +:+ materialName
                    +:+ "] for Geometry[" +:+ nm
                    +:+ ". Object will appear white." +:+ nl);;
             ret (Return, None));
  match got with
  | (Return, _) => ret tt
  | (Next, None) =>
      nm ← getName node;
      gzmsg ("Unable to get Material[" +:+ materialName
             +:+ "] for Geometry[" +:+ nm
             +:+ ". Object will appear white" +:+ nl)
  | (Next, Some origMaterial) =>
      (* Create a custom material name *)
      nm ← getName node;
      modify_this (setMyMaterialName (nm +:+ "_MATERIAL_" +:+ materialName));;
      (* Clone the material. *)
      my ← gets (λ s, myMaterialName (this s));
      ex ← resourceExists my;
      myMaterial ← (if ex : bool then getByName my
                    else m ← clone origMaterial my; ret (Some m));
      (* myMaterial->getTechniqueIterator() *)
      match myMaterial with None => crash | Some _ => ret tt end;;
      try_catch
        (n ← numAttachedObjects node;
         for_each
           (λ i,
              obj ← getAttachedObject node i;
              my ← gets (λ s, myMaterialName (this s));
              obj' ← (if Ogre.isEntity obj
                      then Entity_setMaterialName my obj
                      else SimpleRenderable_setMaterial my obj);
              putAttachedObject node i obj')
           (seq 0 n))
        (λ _,
           my ← gets (λ s, myMaterialName (this s));
           nm ← getName node;
           gzmsg ("Unable to set Material[" +:+ my
                  +:+ "] to Geometry[" +:+ nm
                  +:+ ". Object will appear white." +:+ nl))
  end.

(** What [SetTransparency] does to a pass. *)
Definition fade (transparency : real) (pass : Ogre.Pass) : Ogre.Pass := {|
  Ogre.depthWriteEnabled := if SFltb zero transparency then false else true;
  Ogre.diffuse := {|
    Ogre.r := Ogre.r (Ogre.diffuse pass);
    Ogre.g := Ogre.g (Ogre.diffuse pass);
    Ogre.b := Ogre.b (Ogre.diffuse pass);
    Ogre.a := fsub one_f transparency
  |}
|}.

(** [Visual::SetTransparency] *)
Definition SetTransparency (trans : real) : M unit :=
  en ← GetRenderEngineEnabled;
  if negb en then ret tt else
  modify_this (setTransparency (std_min (std_max trans zero) one_f));;
  node ← gets (λ s, sceneNode (this s));
  n ← numAttachedObjects node;
  for_each
    (λ i,
       obj ← getAttachedObject node i;
       match obj with
       | Ogre.Entity _ _ subEntities =>
           (* For each ogre::entity *)
           for_each
             (λ material,
                t ← gets (λ s, transparency (this s));
                modify_ogre
                  (λ o, Ogre.setMaterials
                          (alter (map (map (fade t))) material
                                 (Ogre.materials o)) o))
             subEntities
       | Ogre.SimpleRenderable _ _ _ => ret tt
       end)
    (seq 0 n).

(** [Visual::GetTransparency] *)
Definition GetTransparency (v : Visual) : real := transparency v.

(** [Visual::IsStatic] *)
Definition IsStatic (v : Visual) : bool := isStatic v.

(** [Visual::SetCastShadows] *)
Definition SetCastShadows (shadows : bool) : M unit :=
  en ← GetRenderEngineEnabled;
  if negb en then ret tt else
  node ← gets (λ s, sceneNode (this s));
  n ← numAttachedObjects node;
  for_each
    (λ i,
       obj ← getAttachedObject node i;
       putAttachedObject node i (Ogre.setCastShadows shadows obj))
    (seq 0 n);;
  v ← gets this;
  match IsStatic v, staticGeom v with
  | true, Some _ =>
      modify_this (setStaticGeom (Some {| Ogre.sgCastShadows := shadows |}))
  | _, _ => ret tt
  end.

(** [Visual::SetPosition] *)
Definition SetPosition (pos : Vector3.t) : M unit :=
  node ← gets (λ s, sceneNode (this s));
  update node
    (Ogre.setPosition (Vector3.x pos) (Vector3.y pos) (Vector3.z pos)).

(** [Visual::SetRotation] *)
Definition SetRotation (rot : Quatern.t) : M unit :=
  en ← GetRenderEngineEnabled;
  if negb en then ret tt else
  node ← gets (λ s, sceneNode (this s));
  update node
    (Ogre.setOrientation (Quatern.u rot) (Quatern.x rot)
                         (Quatern.y rot) (Quatern.z rot)).

(** [Visual::SetPose] *)
Definition SetPose (pose : Pose3d.t) : M unit :=
  en ← GetRenderEngineEnabled;
  if negb en then ret tt else
  SetPosition (Pose3d.pos pose);;
  SetRotation (Pose3d.rot pose).

(** [Visual::GetPosition] *)
Definition GetPosition : M Vector3.t :=
  en ← GetRenderEngineEnabled;
  if negb en then ret Vector3.default else
  node ← gets (λ s, sceneNode (this s));
  '(_, nd) ← deref node;
  let vpos := Ogre.position nd in
  ret (Vector3.mk (to_double (Ogre.Vector3.x vpos))
                  (to_double (Ogre.Vector3.y vpos))
                  (to_double (Ogre.Vector3.z vpos))).

(** [Visual::GetRotation] *)
Definition GetRotation : M Quatern.t :=
  en ← GetRenderEngineEnabled;
  if negb en then ret Quatern.default else
  node ← gets (λ s, sceneNode (this s));
  '(_, nd) ← deref node;
  let vquatern := Ogre.orientation nd in
  ret (Quatern.mk (to_double (Ogre.Quaternion.w vquatern))
                  (to_double (Ogre.Quaternion.x vquatern))
                  (to_double (Ogre.Quaternion.y vquatern))
                  (to_double (Ogre.Quaternion.z vquatern))).

(** [Visual::GetPose] *)
Definition GetPose : M Pose3d.t :=
  en ← GetRenderEngineEnabled;
  if negb en then ret Pose3d.default else
  pos ← GetPosition;
  rot ← GetRotation;
  ret (Pose3d.mk pos rot).

(** *** A small scene to run the methods in *)

Definition white : Ogre.ColourValue :=
  {| Ogre.r := one_f; Ogre.g := one_f; Ogre.b := one_f; Ogre.a := one_f |}.

Definition toy_material : Ogre.Material :=
  [[ {| Ogre.depthWriteEnabled := true; Ogre.diffuse := white |} ]].

Definition toy_root : Ogre.SceneNode := {|
  Ogre.parent := None;
  Ogre.children := [];
  Ogre.position := Ogre.Vector3.mk zero zero zero;
  Ogre.orientation := Ogre.Quaternion.mk one_d zero zero zero;
  Ogre.scale := Ogre.Vector3.mk one_d one_d one_d;
  Ogre.attached := []
|}.

Definition toy_world (enabled : bool) : System := {|
  renderEngineEnabled := enabled;
  ogre := {|
    Ogre.sceneNodes := {[ "root" := toy_root ]};
    Ogre.rootSceneNode := "root";
    Ogre.materials := {[ "Gazebo/Red" := toy_material ]}
  |};
  messages := [];
  rtShaderEntities := []
|}.

(** A visual "box" below the root, with a mesh of two sub-entities and a
    line attached. *)
Definition toy_box : State :=
  ((AttachObject (Ogre.Entity "box_mesh" true ["BaseWhite"; "BaseWhite"]);;
    AttachObject (Ogre.SimpleRenderable "box_line" true "BaseWhite"))
     (Visual_from_Scene "box" TheScene (toy_world true)).2).2.

(** Its scene node. *)
Definition toy_box_node : Ogre.SceneNode := {|
  Ogre.parent := Some "root";
  Ogre.children := [];
  Ogre.position := Ogre.Vector3.mk zero zero zero;
  Ogre.orientation := Ogre.Quaternion.mk one_d zero zero zero;
  Ogre.scale := Ogre.Vector3.mk one_d one_d one_d;
  Ogre.attached :=
    [Ogre.Entity "box_mesh" true ["BaseWhite"; "BaseWhite"];
     Ogre.SimpleRenderable "box_line" true "BaseWhite"]
|}.

(** The same visual once the rendering engine is switched off. *)
Definition toy_box_disabled : State := {|
  this := this toy_box;
  sys := {|
    renderEngineEnabled := false;
    ogre := ogre (sys toy_box);
    messages := messages (sys toy_box);
    rtShaderEntities := rtShaderEntities (sys toy_box)
  |}
|}.

Definition toy_pose : Pose3d.t :=
  Pose3d.mk (Vector3.mk one_d zero one_d) (Quatern.mk zero one_d zero zero).

(** [0.1] and [1e40] in binary64, and a pose that has them. *)
Definition tenth_d : real := S754_finite false 7205759403792794 (-56).
Definition huge_d : real := S754_finite false 8271806125530277 80.

Definition toy_pose_tenth : Pose3d.t :=
  Pose3d.mk (Vector3.mk tenth_d huge_d zero) Quatern.default.

End Rendering.

(** ** Part II, continued: more methods of Visual *)

Module RenderingMore.
Import Rendering.

(** *** More of Ogre's scene nodes *)

Definition node_setScale (x y z : real) (n : Ogre.SceneNode)
  : Ogre.SceneNode := {|
  Ogre.parent := Ogre.parent n;
  Ogre.children := Ogre.children n;
  Ogre.position := Ogre.position n;
  Ogre.orientation := Ogre.orientation n;
  Ogre.scale := Ogre.Vector3.mk (to_float x) (to_float y) (to_float z);
  Ogre.attached := Ogre.attached n
|}.

Definition node_setParent (p : option string) (n : Ogre.SceneNode)
  : Ogre.SceneNode := {|
  Ogre.parent := p;
  Ogre.children := Ogre.children n;
  Ogre.position := Ogre.position n;
  Ogre.orientation := Ogre.orientation n;
  Ogre.scale := Ogre.scale n;
  Ogre.attached := Ogre.attached n
|}.

Definition node_setChildren (cs : list string) (n : Ogre.SceneNode)
  : Ogre.SceneNode := {|
  Ogre.parent := Ogre.parent n;
  Ogre.children := cs;
  Ogre.position := Ogre.position n;
  Ogre.orientation := Ogre.orientation n;
  Ogre.scale := Ogre.scale n;
  Ogre.attached := Ogre.attached n
|}.

(** The node without the child called [c]. *)
Definition node_dropChild (c : string) (n : Ogre.SceneNode)
  : Ogre.SceneNode :=
  node_setChildren (filter (λ k, k ≠ c) (Ogre.children n)) n.

(** The material names of the sub-entities of an object that is an
    [Ogre::Entity]; an object that is none has no sub-entity. *)
Definition entityMaterials (obj : Ogre.MovableObject) : list string :=
  match obj with
  | Ogre.Entity _ _ subs => subs
  | Ogre.SimpleRenderable _ _ _ => []
  end.

(** *** More of the Visual and of the system *)

Definition setParameters (ps : option Params) (v : Visual) : Visual := {|
  name := name v; parent := parent v;
  sceneNode := sceneNode v;
  transparency := transparency v; isStatic := isStatic v;
  useRTShader := useRTShader v; visible := visible v;
  ribbonTrail := ribbonTrail v; boundingBoxNode := boundingBoxNode v;
  staticGeom := staticGeom v;
  origMaterialName := origMaterialName v; myMaterialName := myMaterialName v;
  parameters := ps
|}.

Definition setBoundingBoxNode (n : option string) (v : Visual) : Visual := {|
  name := name v; parent := parent v;
  sceneNode := sceneNode v;
  transparency := transparency v; isStatic := isStatic v;
  useRTShader := useRTShader v; visible := visible v;
  ribbonTrail := ribbonTrail v; boundingBoxNode := n;
  staticGeom := staticGeom v;
  origMaterialName := origMaterialName v; myMaterialName := myMaterialName v;
  parameters := parameters v
|}.

(** Modelled from the spec: [Common::SetParent], whose code is not among
    the sources, taken by its name: it records the parent. *)
Definition SetParent (p : option string) (v : Visual) : Visual := {|
  name := name v; parent := p;
  sceneNode := sceneNode v;
  transparency := transparency v; isStatic := isStatic v;
  useRTShader := useRTShader v; visible := visible v;
  ribbonTrail := ribbonTrail v; boundingBoxNode := boundingBoxNode v;
  staticGeom := staticGeom v;
  origMaterialName := origMaterialName v; myMaterialName := myMaterialName v;
  parameters := parameters v
|}.

Definition setScaleP (scale : Vector3.t) (ps : Params) : Params := {|
  xyzP := xyzP ps;
  rpyP := rpyP ps;
  meshNameP := meshNameP ps;
  meshTileP := meshTileP ps;
  materialNameP := materialNameP ps;
  castShadowsP := castShadowsP ps;
  scaleP := scale;
  normalMapNameP := normalMapNameP ps;
  shaderP := shaderP ps
|}.

(** The simulator switching the rendering engine on or off. *)
Definition setRenderEngineEnabled (b : bool) (s : State) : State :=
  {| this := this s;
     sys := {| renderEngineEnabled := b;
               ogre := ogre (sys s);
               messages := messages (sys s);
               rtShaderEntities := rtShaderEntities (sys s) |} |}.

(** Modelled from the spec: [RTShaderSystem::DetachEntity], whose code is
    not among the sources, taken by its name: the visual leaves the list
    [AttachEntity] put it on. *)
Definition removeRTShaderEntity (v : string) (s : System) : System :=
  {| renderEngineEnabled := renderEngineEnabled s;
     ogre := ogre s;
     messages := messages s;
     rtShaderEntities := filter (λ k, k ≠ v) (rtShaderEntities s) |}.

Definition setNodes (f : gmap string Ogre.SceneNode →
                         gmap string Ogre.SceneNode) : M unit :=
  modify_ogre (λ o, Ogre.setSceneNodes (f (Ogre.sceneNodes o)) o).

(** *** More calls on Ogre objects through pointers *)

(** [node->detachAllObjects()] *)
Definition detachAllObjects (node : option string) : M unit :=
  update node (Ogre.setAttached []).

(** [node->getParentSceneNode()]; [None] is [NULL]. *)
Definition getParentSceneNode (node : option string) : M (option string) :=
  '(_, nd) ← deref node;
  ret (Ogre.parent nd).

(** [parent->removeChild(child)]: a node that is a child of [parent] leaves
    its children and has no parent afterwards; for another node, and for
    the null pointer, nothing happens. *)
Definition removeChild (parent child : option string) : M unit :=
  '(p, pnd) ← deref parent;
  match child with
  | None => ret tt
  | Some _ =>
      '(c, _) ← deref child;
      if bool_decide (c ∈ Ogre.children pnd) then
        store_node p (node_dropChild c pnd);;
        '(_, cnd) ← deref child;
        store_node c (node_setParent None cnd)
      else ret tt
  end.

(** [parent->addChild(child)]: a node that has a parent is refused. *)
Definition addChild (parent child : option string) : M unit :=
  '(c, cnd) ← deref child;
  match Ogre.parent cnd with
  | Some q =>
      throw ("Node '" +:+ c +:+ "' already was a child of '" +:+ q +:+ "'.")
  | None =>
      '(p, pnd) ← deref parent;
      store_node p (Ogre.addChild c pnd);;
      '(_, cnd) ← deref child;
      store_node c (node_setParent (Some p) cnd)
  end.

(** The scene manager without the node [n] and without what is below it.
    The fuel bounds the depth; the number of nodes is enough for a tree. *)
Fixpoint destroySubtree (fuel : nat) (n : string)
    (nodes : gmap string Ogre.SceneNode) : gmap string Ogre.SceneNode :=
  match fuel with
  | 0 => nodes
  | S fuel' =>
      match nodes !! n with
      | None => nodes
      | Some nd =>
          delete n (foldr (destroySubtree fuel') nodes (Ogre.children nd))
      end
  end.

(** [node->removeAndDestroyAllChildren()] *)
Definition removeAndDestroyAllChildren (node : option string) : M unit :=
  '(n, nd) ← deref node;
  setNodes (λ nodes, foldr (destroySubtree (size nodes)) nodes
                           (Ogre.children nd));;
  update node (node_setChildren []).

(** [parent->removeAndDestroyChild(name)]: a name that is not a child of
    [parent] is an [Ogre::Exception]. *)
Definition removeAndDestroyChild (parent : option string) (name : string)
  : M unit :=
  '(_, pnd) ← deref parent;
  if bool_decide (name ∈ Ogre.children pnd) then
    removeAndDestroyAllChildren (Some name);;
    removeChild parent (Some name);;
    setNodes (delete name)
  else throw ("Child node named " +:+ name +:+ " does not exist.").

(** *** More methods of Visual *)

(** [Visual::~Visual]; deleting the parameters and the lines frees memory
    and is not modelled. *)
Definition Visual_destroy : M unit :=
  nm ← gets (λ s, name (this s));
  modify_sys (removeRTShaderEntity nm);;
  node ← gets (λ s, sceneNode (this s));
  match node with
  | None => ret tt
  | Some _ =>
      removeAndDestroyAllChildren node;;
      detachAllObjects node;;
      pnode ← getParentSceneNode node;
      n ← getName node;
      removeAndDestroyChild pnode n;;
      modify_this (setSceneNode None)
  end.

(** [Visual::AttachVisual]; [vis] is another visual than [this], the
    result is [vis] after the call. *)
Definition AttachVisual (vis : Visual) : M Visual :=
  old ← getParentSceneNode (GetSceneNode vis);
  removeChild old (GetSceneNode vis);;
  node ← gets (λ s, sceneNode (this s));
  addChild node (GetSceneNode vis);;
  nm ← gets (λ s, name (this s));
  ret (SetParent (Some nm) vis).

(** [Visual::DetachVisual]; [vis] is another visual than [this], the
    result is [vis] after the call. *)
Definition DetachVisual (vis : Visual) : M Visual :=
  node ← gets (λ s, sceneNode (this s));
  removeChild node (GetSceneNode vis);;
  ret (SetParent None vis).

(** [Visual::DetachObjects] *)
Definition DetachObjects : M unit :=
  en ← GetRenderEngineEnabled;
  if negb en then ret tt else
  node ← gets (λ s, sceneNode (this s));
  detachAllObjects node.

(** [Visual::SetScale]; before [Init] the parameter does not exist. *)
Definition SetScale (scale : Vector3.t) : M unit :=
  ps ← gets (λ s, parameters (this s));
  match ps with
  | None => crash
  | Some ps => modify_this (setParameters (Some (setScaleP scale ps)))
  end;;
  node ← gets (λ s, sceneNode (this s));
  update node
    (node_setScale (Vector3.x scale) (Vector3.y scale) (Vector3.z scale)).

(** [Visual::GetScale] *)
Definition GetScale : M Vector3.t :=
  node ← gets (λ s, sceneNode (this s));
  '(_, nd) ← deref node;
  let vscale := Ogre.scale nd in
  ret (Vector3.mk (to_double (Ogre.Vector3.x vscale))
                  (to_double (Ogre.Vector3.y vscale))
                  (to_double (Ogre.Vector3.z vscale))).

(** [Visual::SetBoundingBoxMaterial] *)
Definition SetBoundingBoxMaterial (materialName : string) : M unit :=
  en ← GetRenderEngineEnabled;
  if negb en then ret tt else
  if bool_decide (materialName = "") then ret tt else
  bb ← gets (λ s, boundingBoxNode (this s));
  try_catch
    (n ← numAttachedObjects bb;
     for_each
       (λ i,
          obj ← getAttachedObject bb i;
          obj' ← (if Ogre.isEntity obj
                  then Entity_setMaterialName materialName obj
                  else SimpleRenderable_setMaterial materialName obj);
          putAttachedObject bb i obj')
       (seq 0 n))
    (λ e,
       gzmsg ("Unable to set BoundingBoxMaterial[" +:+ materialName
              +:+ "][" +:+ e +:+ "]" +:+ nl)).

(** [Visual::SetHighlight] *)
Definition SetHighlight (highlight : bool) : M unit :=
  en ← GetRenderEngineEnabled;
  if negb en then ret tt else ret tt.

(** [Visual::MakeStatic]: its body is commented out. *)
Definition MakeStatic : M unit := ret tt.

(** *** States to compare runs with *)

(** The system in which the material [k] is a copy of [orig], unless there
    was a material [k] before. *)
Definition clone_if_absent (k : string) (orig : Ogre.Material) (w : System)
  : System :=
  match Ogre.materials (ogre w) !! k with
  | Some _ => w
  | None =>
      setOgre (Ogre.setMaterials (<[k := orig]> (Ogre.materials (ogre w)))
                                 (ogre w)) w
  end.

(** The materials after every pass of the materials called [names] has been
    faded, one name after the other. *)
Definition fade_all (t : real) (names : list string)
    (ms : gmap string Ogre.Material) : gmap string Ogre.Material :=
  foldl (λ ms k, alter (map (map (fade t))) k ms) ms names.

(** The state whose materials are [ms]. *)
Definition with_materials (ms : gmap string Ogre.Material) (s : State)
  : State :=
  {| this := this s;
     sys := setOgre (Ogre.setMaterials ms (ogre (sys s))) (sys s) |}.

(** The state whose scene nodes are [ns]. *)
Definition with_nodes (ns : gmap string Ogre.SceneNode) (s : State)
  : State :=
  {| this := this s;
     sys := setOgre (Ogre.setSceneNodes ns (ogre (sys s))) (sys s) |}.

(** A node without children. *)
Definition leaf (ns : gmap string Ogre.SceneNode) (k : string) : Prop :=
  ∃ knd, ns !! k = Some knd ∧ Ogre.children knd = [].

(** Two nodes at the same place of the scene graph. *)
Definition same_place (a b : Ogre.SceneNode) : Prop :=
  Ogre.parent a = Ogre.parent b ∧ Ogre.children a = Ogre.children b.

(** Two scene managers with the same nodes at the same places. *)
Definition same_graph (ns ns' : gmap string Ogre.SceneNode) : Prop :=
  ∀ k, option_Forall2 same_place (ns !! k) (ns' !! k).

(** A transparency between 0 and 1. *)
Definition in_range (t : real) : Prop :=
  SFleb zero t = true ∧ SFleb t one_f = true.

(** The materials of the sub-entities of the entities attached to a node,
    in the order [SetTransparency] visits them. *)
Definition subEntityMaterials (nd : Ogre.SceneNode) : list string :=
  concat (entityMaterials <$> Ogre.attached nd).

(** *** The node of the bounding box *)

(** The names the loop of [AttachBoundingBox] tries: each round appends an
    underscore and the counter to the name tried before. *)
Fixpoint candidate (nodeName : string) (k : nat) : string :=
  match k with
  | 0 => nodeName
  | S j => candidate nodeName j +:+ "_" +:+ pretty j
  end.

(** [while (hasSceneNode(nodeName.str())) { nodeName << "_" << i; i++; }];
    [None] when the fuel is used up. *)
Fixpoint freeNodeName (fuel : nat) (nodes : gmap string Ogre.SceneNode)
    (nodeName : string) (i : nat) : option string :=
  match nodes !! nodeName with
  | None => Some nodeName
  | Some _ =>
      match fuel with
      | 0 => None
      | S fuel' =>
          freeNodeName fuel' nodes (nodeName +:+ "_" +:+ pretty i) (S i)
      end
  end.

(** [Visual::AttachBoundingBox], from its beginning to the creation of the
    node of the bounding box.  The loop is given as many rounds as the
    scene manager has nodes. *)
Definition AttachBoundingBox_node : M unit :=
  node ← gets (λ s, sceneNode (this s));
  nm ← getName node;
  nodes ← gets (λ s, Ogre.sceneNodes (ogre (sys s)));
  match freeNodeName (size nodes) nodes (nm +:+ "_AABB_NODE") 0 with
  | None => crash
  | Some nodeName =>
      bb ← createChildSceneNode node nodeName;
      modify_this (setBoundingBoxNode bb)
  end.

(** *** Loading *)

(** [obj->getName()] *)
Definition objectName (obj : Ogre.MovableObject) : string :=
  match obj with
  | Ogre.Entity n _ _ => n
  | Ogre.SimpleRenderable n _ _ => n
  end.

(** An object that no scene node has attached: [attachObject] is for
    such. *)
Definition unattached (obj : Ogre.MovableObject)
    (nodes : gmap string Ogre.SceneNode) : Prop :=
  map_Forall
    (λ _ knd, objectName obj ∉ objectName <$> Ogre.attached knd) nodes.

Inductive MeshResult : Type :=
| MeshEntity (obj : Ogre.MovableObject)
| OgreException
| GazeboException (what : string).

Section Load.

(** What [Load] does with a mesh name that is not empty, between [try] and
    [catch]: it has the mesh manager make or load the mesh, inserts it into
    Ogre, and takes or creates the entity of the given name.  The meshes and
    the entities the scene manager knows by name are no part of the state
    here, so this step is a parameter: it gives the entity, or Ogre throws,
    or an exception of Gazebo's own leaves it, as from [InsertMesh]. *)
Variable mesh_entity : string → string → MeshResult.

(** [Visual::Load] with a null node: the parameters are the ones of the
    visual. *)
Definition Load : M unit :=
  ps ← gets (λ s, parameters (this s));
  match ps with
  | None => crash
  | Some ps =>
      (* Read the desired position and rotation of the mesh *)
      let pose := Pose3d.mk (xyzP ps) (rpyP ps) in
      en ← GetRenderEngineEnabled;
      if negb en then ret tt else
      node ← gets (λ s, sceneNode (this s));
      nm ← getName node;
      obj ← (if bool_decide (meshNameP ps = "") then ret None
             else match mesh_entity ("VISUAL_" +:+ nm) (meshNameP ps) with
                  | MeshEntity obj => ret (Some obj)
                  | OgreException =>
                      throw ("Unable to create a mesh from "
                             +:+ meshNameP ps)
                  | GazeboException what => throw what
                  end);
      (* Attach the entity to the node *)
      match obj with
      | Some obj => AttachObject obj
      | None => ret tt
      end;;
      (* Set the pose of the scene node *)
      SetPose pose;;
      update node
        (node_setScale (Vector3.x (scaleP ps)) (Vector3.y (scaleP ps))
                       (Vector3.z (scaleP ps)));;
      (* Set the material of the mesh *)
      (if bool_decide (materialNameP ps = "none") then ret tt
       else SetMaterial (materialNameP ps));;
      (* Allow the mesh to cast shadows *)
      SetCastShadows (castShadowsP ps)
  end.

End Load.

(** *** Clients

    A client of a Visual calls its methods one after the other. *)
Inductive Call : Type :=
| CallSetMaterial (materialName : string)
| CallSetTransparency (trans : real)
| CallSetCastShadows (shadows : bool)
| CallSetPosition (pos : Vector3.t)
| CallSetRotation (rot : Quatern.t)
| CallSetPose (pose : Pose3d.t)
| CallSetScale (scale : Vector3.t)
| CallSetHighlight (highlight : bool)
| CallMakeStatic
| CallDetachObjects.

Definition call (c : Call) : M unit :=
  match c with
  | CallSetMaterial m => SetMaterial m
  | CallSetTransparency t => SetTransparency t
  | CallSetCastShadows b => SetCastShadows b
  | CallSetPosition v => SetPosition v
  | CallSetRotation q => SetRotation q
  | CallSetPose p => SetPose p
  | CallSetScale v => SetScale v
  | CallSetHighlight h => SetHighlight h
  | CallMakeStatic => MakeStatic
  | CallDetachObjects => DetachObjects
  end.

(** The transparency a call passes, if it passes one. *)
Definition passed_transparency (c : Call) : option real :=
  match c with
  | CallSetTransparency t => Some t
  | _ => None
  end.

(** *** More of the small scene *)

(** The box with a bounding box node that carries one entity. *)
Definition toy_box_with_bb : State :=
  ((bb ← createChildSceneNode (Some "box") "box_AABB_NODE";
    modify_this (setBoundingBoxNode bb);;
    attachObject bb
      (Ogre.Entity "box_AABB_NODE_OBJ" true ["Gazebo/GreenTransparent"]))
     toy_box).2.

(** The box once it has been given the material "Gazebo/Red", and its
    scene node then. *)
Definition toy_box_red : State := (SetMaterial "Gazebo/Red" toy_box).2.

Definition toy_box_red_node : Ogre.SceneNode :=
  Ogre.setAttached
    (map (Ogre.setMaterialName "box_MATERIAL_Gazebo/Red")
         (Ogre.attached toy_box_node))
    toy_box_node.

(** A second visual, "lamp", below the root; [this] is the box. *)
Definition toy_lamp : Visual :=
  this (Visual_from_Scene "lamp" TheScene (sys toy_box)).2.

Definition toy_box_and_lamp : State :=
  {| this := this toy_box;
     sys := sys (Visual_from_Scene "lamp" TheScene (sys toy_box)).2 |}.

(** The lamp as a child of the box; [this] is the box. *)
Definition toy_box_over_lamp : State :=
  {| this := this toy_box;
     sys := sys (Visual_from_Visual "lamp" (Some (this toy_box))
                   (sys toy_box)).2 |}.

(** A mesh manager that knows one mesh. *)
Definition toy_mesh_entity (name mesh : string) : MeshResult :=
  if bool_decide (mesh = "unit_sphere")
  then MeshEntity (Ogre.Entity name true ["BaseWhite"])
  else OgreException.

Definition toy_params : Params := {|
  xyzP := Vector3.mk one_d zero one_d;
  rpyP := Quatern.mk zero one_d zero zero;
  meshNameP := "unit_sphere";
  meshTileP := (one_d, one_d);
  materialNameP := "Gazebo/Red";
  castShadowsP := false;
  scaleP := Vector3.mk one_d one_d zero;
  normalMapNameP := "none";
  shaderP := "pixel"
|}.

(** The parameters of the box: the ones [Init] gave it. *)
Definition toy_box_params : Params :=
  default toy_params (parameters (this toy_box)).

(** The box with the parameters [toy_params], before [Load]. *)
Definition toy_box_to_load : State :=
  {| this := setParameters (Some toy_params) (this toy_box);
     sys := sys toy_box |}.

Definition toy_calls : list Call :=
  [CallSetMaterial "Gazebo/Red"; CallSetTransparency (S754_infinity false);
   CallSetCastShadows false; CallSetPose toy_pose;
   CallSetMaterial "Gazebo/Blue"; CallSetScale (Vector3.mk one_d one_d zero);
   CallMakeStatic; CallDetachObjects; CallSetTransparency zero].

End RenderingMore.

(** ** Part II, continued: inserting a mesh into Ogre *)

Module MeshInsertion.
Import Rendering.

(** Modelled from the spec: a sub-mesh of Gazebo, whose code is not among
    the sources, as what its accessors answer: the elements [GetVertex],
    [GetNormal], [GetTexCoord] and [GetIndex] give, their numbers being the
    counts.  [material] is the name of the material the mesh has at the
    material index of the sub-mesh, if it has one. *)
Record SubMesh : Type := {
  vertices : list Vector3.t;
  normals : list Vector3.t;
  texCoords : list (real * real);
  indices : list N;
  material : option string
}.

Record Mesh : Type := {
  meshName : string;
  subMeshes : list SubMesh;
  meshMax : Vector3.t;
  meshMin : Vector3.t
}.

Inductive VertexElementType : Type := VET_FLOAT2 | VET_FLOAT3.

Inductive VertexElementSemantic : Type :=
| VES_POSITION
| VES_NORMAL
| VES_TEXTURE_COORDINATES.

(** [Ogre::VertexElement::getTypeSize], in bytes *)
Definition getTypeSize (t : VertexElementType) : nat :=
  match t with
  | VET_FLOAT2 => 8
  | VET_FLOAT3 => 12
  end.

Record VertexElement : Type := {
  source : nat;
  offset : nat;
  type : VertexElementType;
  semantic : VertexElementSemantic
}.

(** The vertex declaration of a sub-mesh with the offset after its last
    element: positions, then normals if the sub-mesh has any, then texture
    coordinates if it has any. *)
Definition declare (subMesh : SubMesh) : list VertexElement * nat :=
  let vertexDecl :=
    [ {| source := 0; offset := 0; type := VET_FLOAT3;
         semantic := VES_POSITION |} ] in
  let currOffset := getTypeSize VET_FLOAT3 in
  let '(vertexDecl, currOffset) :=
    if 0 <? length (normals subMesh)
    then (vertexDecl ++ [ {| source := 0; offset := currOffset;
                             type := VET_FLOAT3; semantic := VES_NORMAL |} ],
          currOffset + getTypeSize VET_FLOAT3)
    else (vertexDecl, currOffset) in
  let '(vertexDecl, currOffset) :=
    if 0 <? length (texCoords subMesh)
    then (vertexDecl ++ [ {| source := 0; offset := currOffset;
                             type := VET_FLOAT2;
                             semantic := VES_TEXTURE_COORDINATES |} ],
          currOffset + getTypeSize VET_FLOAT2)
    else (vertexDecl, currOffset) in
  (vertexDecl, currOffset).

(** [vertexDecl->getVertexSize(source)], in bytes *)
Definition getVertexSize (vertexDecl : list VertexElement) (src : nat) : nat :=
  sum_list ((λ e, if source e =? src then getTypeSize (type e) else 0)
              <$> vertexDecl).

(** The floats one round of the loop over the vertices writes; [None] when
    an accessor is asked for an element the sub-mesh does not have. *)
Definition write_vertex (subMesh : SubMesh) (j : nat) : option (list real) :=
  v ← vertices subMesh !! j;
  ns ← (if 0 <? length (normals subMesh)
        then n ← normals subMesh !! j;
             Some [to_float (Vector3.x n); to_float (Vector3.y n);
                   to_float (Vector3.z n)]
        else Some []);
  ts ← (if 0 <? length (texCoords subMesh)
        then t ← texCoords subMesh !! j;
             Some [to_float t.1; to_float t.2]
        else Some []);
  Some ([to_float (Vector3.x v); to_float (Vector3.y v);
         to_float (Vector3.z v)] ++ ns ++ ts).

(** All the floats written through [vertices], in the order of the
    writes. *)
Definition write_vertices (subMesh : SubMesh) : option (list real) :=
  chunks ← mapM (write_vertex subMesh) (seq 0 (length (vertices subMesh)));
  Some (concat chunks).

(** All the indices written through [indices]. *)
Definition write_indices (subMesh : SubMesh) : list N :=
  to_ushort <$> indices subMesh.

(** The sub-mesh of Ogre, with its buffers: the size the vertex buffer was
    created with, in bytes, and what was written to it; the number of 16
    bit indices the index buffer was created for, and what was written to
    it. *)
Record OgreSubMesh : Type := {
  useSharedVertices : bool;
  vertexDeclaration : list VertexElement;
  vertexCount : nat;
  vertexBufferSize : nat;
  vertexBuffer : list real;
  indexCount : nat;
  indexBuffer : list N;
  materialName : option string
}.

(** One round of the loop of [InsertMesh] over the sub-meshes. *)
Definition insert_subMesh (subMesh : SubMesh) : option OgreSubMesh :=
  let vertexDecl := (declare subMesh).1 in
  let count := length (vertices subMesh) in
  written ← write_vertices subMesh;
  Some {| useSharedVertices := false;
          vertexDeclaration := vertexDecl;
          vertexCount := count;
          vertexBufferSize := getVertexSize vertexDecl 0 * count;
          vertexBuffer := written;
          indexCount := length (indices subMesh);
          indexBuffer := write_indices subMesh;
          materialName := material subMesh |}.

(** Modelled from the spec: [Vector3::IsFinite], whose code is not among
    the sources, taken by its name: every component is a finite number. *)
Definition IsFinite (v : Vector3.t) : bool :=
  let finite (x : real) :=
    match x with
    | S754_zero _ | S754_finite _ _ _ => true
    | S754_infinity _ | S754_nan => false
    end in
  finite (Vector3.x v) && finite (Vector3.y v) && finite (Vector3.z v).

(** [Ogre::Vector3(v.x, v.y, v.z)]: the components become
    [Ogre::Real]s. *)
Definition to_Ogre_Vector3 (v : Vector3.t) : Ogre.Vector3.t :=
  Ogre.Vector3.mk (to_float (Vector3.x v)) (to_float (Vector3.y v))
                  (to_float (Vector3.z v)).

(** The two exceptions [InsertMesh] throws with [gzthrow]. *)
Inductive GazeboError : Type := MaxNotFinite | MinNotFinite.

(** How [InsertMesh] ends.  Modelled from the spec: [gzthrow], whose code
    is not among the sources, throws an exception of Gazebo's own, which
    [catch (Ogre::Exception e)] does not catch. *)
Inductive outcome : Type :=
| Skipped
| Inserted (subs : list OgreSubMesh)
    (bounds : Ogre.Vector3.t * Ogre.Vector3.t)
| Logged (message : string)
| Thrown (e : GazeboError)
| AccessFailed.

(** [Visual::InsertMesh]; [existing] are the names of the meshes of Ogre's
    mesh manager, which refuses to create a mesh under a name it has. *)
Definition InsertMesh (existing : gset string) (mesh : Mesh) : outcome :=
  if length (subMeshes mesh) =? 0 then Skipped else
  if bool_decide (meshName mesh ∈ existing)
  then Logged ("Unable to create a basic Unit cylinder object" +:+ nl)
  else
    match mapM insert_subMesh (subMeshes mesh) with
    | None => AccessFailed
    | Some subs =>
        if negb (IsFinite (meshMax mesh)) then Thrown MaxNotFinite
        else if negb (IsFinite (meshMin mesh)) then Thrown MinNotFinite
        else Inserted subs (to_Ogre_Vector3 (meshMin mesh),
                            to_Ogre_Vector3 (meshMax mesh))
    end.

(** *** Reading the buffers *)

(** The number of floats of an element. *)
Definition components (t : VertexElementType) : nat :=
  match t with
  | VET_FLOAT2 => 2
  | VET_FLOAT3 => 3
  end.

(** What a sub-mesh has for a semantic at vertex [j]. *)
Definition element_data (subMesh : SubMesh) (sem : VertexElementSemantic)
    (j : nat) : option (list real) :=
  match sem with
  | VES_POSITION =>
      v ← vertices subMesh !! j;
      Some [Vector3.x v; Vector3.y v; Vector3.z v]
  | VES_NORMAL =>
      n ← normals subMesh !! j;
      Some [Vector3.x n; Vector3.y n; Vector3.z n]
  | VES_TEXTURE_COORDINATES =>
      t ← texCoords subMesh !! j;
      Some [t.1; t.2]
  end.

(** What the graphics card reads for the element [e] of vertex [j] in a
    vertex buffer of the given vertex size: the floats from byte
    [j * size + offset e] on. *)
Definition read_element (buffer : list real) (size : nat) (e : VertexElement)
    (j : nat) : list real :=
  take (components (type e)) (drop ((j * size + offset e) / 4) buffer).

(** The floats of vertex [j] in the buffer, and their number. *)
Definition chunk (subMesh : SubMesh) (j : nat) : list real :=
  (to_float <$> default [] (element_data subMesh VES_POSITION j))
  ++ (if 0 <? length (normals subMesh)
      then to_float <$> default [] (element_data subMesh VES_NORMAL j)
      else [])
  ++ (if 0 <? length (texCoords subMesh)
      then to_float <$>
             default [] (element_data subMesh VES_TEXTURE_COORDINATES j)
      else []).

Definition stride (subMesh : SubMesh) : nat :=
  3 + (if 0 <? length (normals subMesh) then 3 else 0)
    + (if 0 <? length (texCoords subMesh) then 2 else 0).

(** A sub-mesh whose normals and texture coordinates, if it has any, are
    there for every vertex. *)
Definition complete (subMesh : SubMesh) : Prop :=
  (normals subMesh = [] ∨ length (vertices subMesh) ≤ length (normals subMesh))
  ∧ (texCoords subMesh = []
     ∨ length (vertices subMesh) ≤ length (texCoords subMesh)).

(** A triangle with normals and texture coordinates. *)
Definition toy_subMesh : SubMesh := {|
  vertices := [Vector3.mk zero zero zero; Vector3.mk one_d zero zero;
               Vector3.mk zero one_d zero];
  normals := [Vector3.mk zero zero one_d; Vector3.mk zero zero one_d;
              Vector3.mk zero zero one_d];
  texCoords := [(zero, zero); (one_d, zero); (zero, one_d)];
  indices := [0; 1; 65538]%N;
  material := Some "Gazebo/Red"
|}.

Definition toy_mesh : Mesh := {|
  meshName := "triangle";
  subMeshes := [toy_subMesh];
  meshMax := Vector3.mk one_d one_d zero;
  meshMin := Vector3.mk zero zero zero
|}.

(** The triangle with a bounding box that reaches 1e40. *)
Definition toy_mesh_huge : Mesh := {|
  meshName := "triangle";
  subMeshes := [toy_subMesh];
  meshMax := Vector3.mk huge_d one_d zero;
  meshMin := Vector3.mk zero zero zero
|}.

End MeshInsertion.

(** ** Part III: more observations on [SimbodyModel::Init] *)

Module SimbodyMore.
Import Simbody.

Section WithPhysics.
Context `{Physics}.

(** The gripper a top-level event initialises, if it is such a call. *)
Definition gripper_call (e : Event) : option nat :=
  match e with
  | EGripperInit g => Some g
  | _ => None
  end.

(** The error messages among the events. *)
Definition logged (e : Event) : option string :=
  match e with
  | EErr msg => Some msg
  | _ => None
  end.

End WithPhysics.

(** The toy world with a link that cannot be initialised: the [Init] of
    link 7 throws. *)
Definition brittle_physics : Physics := {|
  World := list nat;
  Pose := nat;
  JointMsg := nat * nat;
  Sdf := string;
  GetWorldPose := λ _ w, length w;
  SetInitialRelativePose := λ _ _ w, w;
  SetRelativePose := λ _ _ w, w;
  Link_Init := λ l w,
    if decide (l = 7) then (w, Throws) else (l :: w, Returns);
  Gripper_Init := λ g w, (g :: w, Returns);
  engine_is_simbody := true;
  SimbodyPhysics_InitModel := λ _ w, (w, Returns);
  Joint_Init := λ j w, (j :: w, Returns);
  Joint_FillMsg := λ j w, (j, length w);
  Model_Load := λ _ _ w, (w, Returns)
|}.

(** An arm whose hand has a joint that fails. *)
Definition toy_arm_bad_hand : Base :=
  Model 1 [Link 2; Model 3 [Link 4] [] [13; 5]; Link 7] [8] [9; 10].

End SimbodyMore.

(** ** Theory of SimbodyModel *)

Module SimbodyTheory.
Import Simbody.

Section WithPhysics.
Context `{Physics}.

(** *** Stepping through computations *)

Lemma bind_inv {A B} (c : M A) (k : A → M B) w t w' r :
  (c ≫= k) w = (t, w', r) →
  (∃ t1 w1 a t2,
      c w = (t1, w1, Returned a) ∧ k a w1 = (t2, w', r) ∧ t = t1 ++ t2)
  ∨ (c w = (t, w', Thrown) ∧ r = Thrown).
Proof.
  unfold mbind, M_bind, bind.
  destruct (c w) as [[t1 w1] [a|]].
  - destruct (k a w1) as [[t2 w2] r2] eqn:Hk. intros [= <- <- <-].
    left. by exists t1, w1, a, t2.
  - intros [= <- <- <-]. by right.
Qed.

Lemma bind_returned {A B} (c : M A) (k : A → M B) w t1 w1 a :
  c w = (t1, w1, Returned a) →
  (c ≫= k) w = (t1 ++ (k a w1).1.1, (k a w1).1.2, (k a w1).2).
Proof.
  intros Hc. unfold mbind, M_bind, bind. rewrite Hc.
  by destruct (k a w1) as [[t2 w2] r2].
Qed.

Lemma bind_thrown {A B} (c : M A) (k : A → M B) w t1 w1 :
  c w = (t1, w1, Thrown) → (c ≫= k) w = (t1, w1, Thrown).
Proof. intros Hc. unfold mbind, M_bind, bind. by rewrite Hc. Qed.

(** *** The loops of [Init] *)

(** A loop only logs what its body logs. *)
Lemma for_each_events {A} (P : Event → Prop) (body : A → M unit) v :
  (∀ x w, Forall P (body x w).1.1) →
  ∀ w, Forall P (for_each body v w).1.1.
Proof.
  intros Hbody. induction v as [|x v IH]; intros w; simpl.
  - constructor.
  - destruct (body x w) as [[t1 w1] [[]|]] eqn:Hx.
    + erewrite bind_returned by done. simpl.
      apply Forall_app. split; [|apply IH].
      specialize (Hbody x w). by rewrite Hx in Hbody.
    + erewrite bind_thrown by done. simpl.
      specialize (Hbody x w). by rewrite Hx in Hbody.
Qed.

Lemma init_child_events F c w :
  Forall (λ e, body_event e = true ∧ child_call e = child_target c)
         (init_child F c w).1.1.
Proof.
  unfold init_child, child_target.
  destruct (HasType c LINK).
  - unfold extcall. destruct (Link_Init _ w) as [w' []]; by repeat constructor.
  - destruct (HasType c MODEL).
    + unfold nested. destruct (F c w) as [[t w'] r]. by repeat constructor.
    + constructor.
Qed.

(** A returning child step made exactly the call owed to the child. *)
Lemma init_child_returned F c w t w' :
  init_child F c w = (t, w', Returned tt) →
  omap child_call t = option_list (child_target c).
Proof.
  unfold init_child, child_target.
  destruct (HasType c LINK).
  - unfold extcall. destruct (Link_Init _ w) as [w1 []]; by intros [= <- <-].
  - destruct (HasType c MODEL).
    + unfold nested. destruct (F c w) as [[t1 w1] r]. by intros [= <- <- ->].
    + by intros [= <- <-].
Qed.

Lemma init_children_events F ch w :
  Forall (λ e, body_event e = true) (for_each (init_child F) ch w).1.1.
Proof.
  apply for_each_events. intros c w0.
  eapply Forall_impl; [apply init_child_events|]. by intros e [? _].
Qed.

(** When the children loop returns, every child that is a link or a model
    has been initialised, in the order of [children]. *)
Lemma init_children_returned F ch w t w' :
  for_each (init_child F) ch w = (t, w', Returned tt) →
  omap child_call t = omap child_target ch.
Proof.
  revert w t. induction ch as [|c ch IH]; intros w t; simpl.
  - by intros [= <- <-].
  - intros Hrun. apply bind_inv in Hrun
      as [(t1 & w1 & [] & t2 & Hc & Hrest & ->)|[_ [=]]].
    rewrite omap_app, (init_child_returned _ _ _ _ _ Hc), (IH _ _ Hrest).
    by destruct (child_target c).
Qed.

Lemma init_grippers_events gr w :
  Forall (λ e, body_event e = true ∧ child_call e = None)
         (for_each init_gripper gr w).1.1.
Proof.
  apply for_each_events. intros g w0. unfold init_gripper, extcall.
  destruct (Gripper_Init g w0) as [w' []]; by repeat constructor.
Qed.

Lemma rebuild_simbody_state_events id w :
  Forall (λ e, e = EInitModel id) (rebuild_simbody_state id w).1.1.
Proof.
  unfold rebuild_simbody_state, extcall. destruct engine_is_simbody.
  - destruct (SimbodyPhysics_InitModel id w) as [w' []]; by repeat constructor.
  - constructor.
Qed.

Lemma rebuild_simbody_state_trace id w :
  (rebuild_simbody_state id w).1.1 =
    if engine_is_simbody then [EInitModel id] else [].
Proof.
  unfold rebuild_simbody_state, extcall. destruct engine_is_simbody; [|done].
  by destruct (SimbodyPhysics_InitModel id w) as [w' []].
Qed.

Lemma init_joint_run j w :
  init_joint j w =
    match Joint_Init j w with
    | (w', Returns) => ([EJointInit j Returns], w', Returned Next)
    | (w', Throws) =>
        ([EJointInit j Throws; EErr "Init joint failed"], w', Returned Return)
    end.
Proof.
  unfold init_joint, try_catch, call_Joint_Init, mbind, M_bind, bind.
  by destruct (Joint_Init j w) as [w' []].
Qed.

(** The joint loop never throws.  It either initialises every joint, or
    stops at the first joint whose [Init] throws, right after logging. *)
Lemma init_joints_run js w t w' r :
  for_each_return init_joint js w = (t, w', r) →
  (r = Returned Next ∧ t = map (λ j, EJointInit j Returns) js)
  ∨ (r = Returned Return ∧
     ∃ k j, js !! k = Some j ∧
       t = map (λ j, EJointInit j Returns) (take k js)
             ++ [EJointInit j Throws; EErr "Init joint failed"]).
Proof.
  revert w t. induction js as [|j js IH]; intros w t; simpl.
  - intros [= <- <- <-]. by left.
  - intros Hrun. apply bind_inv in Hrun
      as [(t1 & w1 & f & t2 & Hj & Hrest & ->)|[Hj _]];
      rewrite init_joint_run in Hj; destruct (Joint_Init j w) as [w0 []];
      try discriminate; injection Hj as <- <- <-.
    + destruct (IH _ _ Hrest) as [[-> ->]|[-> (k & j' & Hk & ->)]].
      * by left.
      * right. split; [done|]. by exists (S k), j'.
    + injection Hrest as <- <- <-. right. split; [done|]. by exists 0, j.
Qed.

(** The message loop publishes one message per joint, in order, and leaves
    the world as it is. *)
Lemma publish_joints_run js w :
  for_each publish_joint js w =
    (map (λ j, EPublish (Joint_FillMsg j w)) js, w, Returned tt).
Proof.
  induction js as [|j js IH]; [done|]. simpl.
  erewrite bind_returned by reflexivity. by rewrite IH.
Qed.

(** *** The shape of a run of [Init]

    A run logs body events, then at most the [InitModel] call, then joint
    events.  If it throws, it never got to the joints; otherwise all the
    children were initialised and the joint part is one of two. *)
Lemma Init_inv id ch gr js w t w' r :
  SimbodyModel_Init (Model id ch gr js) w = (t, w', r) →
  ∃ tb ti tj,
    t = tb ++ ti ++ tj ∧
    Forall (λ e, body_event e = true) tb ∧
    Forall (λ e, e = EInitModel id) ti ∧
    ((tj = [] ∧ r = Thrown)
     ∨ (omap child_call tb = omap child_target ch ∧
        ti = (if engine_is_simbody then [EInitModel id] else []) ∧
        r = Returned tt ∧
        (tj = map (λ j, EJointInit j Returns) js
                ++ map (λ j, EPublish (Joint_FillMsg j w')) js
         ∨ ∃ k j, js !! k = Some j ∧
             tj = map (λ j, EJointInit j Returns) (take k js)
                    ++ [EJointInit j Throws; EErr "Init joint failed"]))).
Proof.
  simpl. intros Hrun.
  apply bind_inv in Hrun as [(t1 & w1 & p1 & t2 & [= <- <- <-] & Hrun & ->)|[[=] _]].
  apply bind_inv in Hrun as [(t1 & w1 & [] & t3 & [= <- <-] & Hrun & ->)|[[=] _]].
  apply bind_inv in Hrun as [(t1 & w1 & p2 & t4 & [= <- <- <-] & Hrun & ->)|[[=] _]].
  apply bind_inv in Hrun as [(t1 & w1 & [] & t5 & [= <- <-] & Hrun & ->)|[[=] _]].
  simpl.
  set (e1 := ESetInitialRelativePose _ _). set (e2 := ESetRelativePose _ _).
  set (w2 := SetRelativePose _ _ _) in Hrun.
  pose proof (init_children_events SimbodyModel_Init ch w2) as Hch.
  apply bind_inv in Hrun as [(tc & wc & [] & t6 & Hc & Hrun & ->)|[Hc ->]];
    rewrite Hc in Hch; simpl in Hch;
    [|exists (e1 :: e2 :: t5), [], []; rewrite !app_nil_r;
      split_and!; [done|by repeat constructor|constructor|by left]].
  apply init_children_returned in Hc.
  pose proof (init_grippers_events gr wc) as Hgr.
  apply bind_inv in Hrun as [(tg & wg & [] & t7 & Hg & Hrun & ->)|[Hg ->]];
    rewrite Hg in Hgr; simpl in Hgr;
    [|exists (e1 :: e2 :: tc ++ t6), [], []; rewrite !app_nil_r;
      split_and!; [done| |constructor|by left];
      repeat constructor; apply Forall_app; split; [done|];
      eapply Forall_impl; [done|]; by intros e []].
  assert (Forall (λ e, body_event e = true) (e1 :: e2 :: tc ++ tg)) as Hb.
  { repeat constructor. apply Forall_app. split; [done|].
    eapply Forall_impl; [done|]. by intros e []. }
  assert (omap child_call (e1 :: e2 :: tc ++ tg) = omap child_target ch) as Hcalls.
  { simpl. rewrite omap_app, Hc.
    replace (omap child_call tg) with (@nil (EntityType * nat));
      [by rewrite app_nil_r|].
    clear -Hgr. induction Hgr as [|e tg [_ He] _ IH]; [done|].
    simpl. by rewrite He. }
  pose proof (rebuild_simbody_state_events id wg) as Hie.
  pose proof (rebuild_simbody_state_trace id wg) as Hit.
  apply bind_inv in Hrun as [(ti & wi & [] & t8 & Hi & Hrun & ->)|[Hi ->]];
    rewrite Hi in Hie, Hit; simpl in Hie, Hit;
    [|exists (e1 :: e2 :: tc ++ tg), t7, []; rewrite !app_nil_r;
      split_and!; [by simpl; rewrite <- ?app_assoc|done|done|by left]].
  exists (e1 :: e2 :: tc ++ tg), ti, t8.
  split_and!; [by simpl; rewrite <- ?app_assoc|done|done|]. right.
  apply bind_inv in Hrun as [(tj & wj & f & t9 & Hj & Hrun & ->)|[Hj ->]];
    apply init_joints_run in Hj as [[Hf Htj]|[Hf Htj]]; try discriminate.
  - injection Hf as ->. rewrite publish_joints_run in Hrun.
    injection Hrun as <- <- <-. split_and!; [done..|]. left. by rewrite Htj.
  - injection Hf as ->. injection Hrun as <- <- <-.
    rewrite app_nil_r. split_and!; [done..|]. by right.
Qed.

(** *** Positions in a trace made of two parts *)

Lemma omap_nil_Forall {A B} (f : A → option B) (l : list A) :
  Forall (λ x, f x = None) l → omap f l = [].
Proof. induction 1 as [|x l Hx _ IH]; [done|]. simpl. by rewrite Hx. Qed.

Lemma omap_map_Some {A B C} (g : A → B) (f : B → option C) (h : A → C) l :
  (∀ x, f (g x) = Some (h x)) → omap f (map g l) = map h l.
Proof.
  intros Hx. induction l as [|x l IH]; [done|].
  cbn. rewrite Hx. cbn. by f_equal.
Qed.

Lemma lookup_app_left {A} (P : A → Prop) (l1 l2 : list A) k x :
  (l1 ++ l2) !! k = Some x → Forall P l2 → ¬ P x → k < length l1.
Proof.
  intros Hk Hl2 Hx. destruct (decide (k < length l1)) as [|Hge]; [done|].
  rewrite lookup_app_r in Hk by lia.
  destruct Hx. by eapply (proj1 (Forall_lookup P l2)).
Qed.

Lemma lookup_app_right {A} (P : A → Prop) (l1 l2 : list A) k x :
  (l1 ++ l2) !! k = Some x → Forall P l1 → ¬ P x → length l1 ≤ k.
Proof.
  intros Hk Hl1 Hx. destruct (decide (length l1 ≤ k)) as [|Hlt]; [done|].
  rewrite lookup_app_l in Hk by lia.
  destruct Hx. by eapply (proj1 (Forall_lookup P l1)).
Qed.

Lemma joint_part_events js w' tj :
  (tj = map (λ j, EJointInit j Returns) js
          ++ map (λ j, EPublish (Joint_FillMsg j w')) js
   ∨ ∃ k j, js !! k = Some j ∧
       tj = map (λ j, EJointInit j Returns) (take k js)
              ++ [EJointInit j Throws; EErr "Init joint failed"]) →
  Forall (λ e, joint_event e = true) tj.
Proof.
  intros [->|(k & j & _ & ->)]; apply Forall_app; split;
    try (apply Forall_fmap, Forall_true; done); by repeat constructor.
Qed.

Lemma body_event_not_joint e : body_event e = true → joint_event e = false.
Proof. by destruct e. Qed.

Lemma joint_event_not_child e : joint_event e = true → child_call e = None.
Proof. by destruct e. Qed.

Lemma pre_joint_events id tb ti :
  Forall (λ e, body_event e = true) tb →
  Forall (λ e, e = EInitModel id) ti →
  Forall (λ e : Event, joint_event e = false) (tb ++ ti).
Proof.
  intros Hb Hi. apply Forall_app. split.
  - eapply Forall_impl; [done|]. apply body_event_not_joint.
  - eapply Forall_impl; [done|]. by intros e ->.
Qed.

(** *** The claims about [Init] and [Load] *)

(** C1: in a run of [SimbodyModel::Init], whenever [Init] is called on a
    joint of the model, [Init] has been called before on every child that
    is a LINK or a MODEL, in the order of the children, and on no child
    afterwards; and if the physics engine is a [SimbodyPhysics],
    [InitModel] has been called on the model after all these child calls
    and before the joint call, otherwise it is not called at all. *)
Theorem Init_bodies_before_joints id ch gr js w i j c :
  (SimbodyModel_Init (Model id ch gr js) w).1.1 !! i
    = Some (EJointInit j c) →
  omap child_call (take i (SimbodyModel_Init (Model id ch gr js) w).1.1)
    = omap child_target ch
  ∧ (∀ k e, (SimbodyModel_Init (Model id ch gr js) w).1.1 !! k = Some e →
            is_Some (child_call e) → k < i)
  ∧ (if engine_is_simbody then
       ∃ k, k < i
         ∧ (SimbodyModel_Init (Model id ch gr js) w).1.1 !! k
             = Some (EInitModel id)
         ∧ omap child_call
             (take k (SimbodyModel_Init (Model id ch gr js) w).1.1)
             = omap child_target ch
         ∧ ∀ k' e,
             (SimbodyModel_Init (Model id ch gr js) w).1.1 !! k' = Some e →
             is_Some (child_call e) → k' < k
     else ∀ m, EInitModel m ∉ (SimbodyModel_Init (Model id ch gr js) w).1.1).
Proof.
  destruct (SimbodyModel_Init (Model id ch gr js) w) as [[t w'] r] eqn:Hrun.
  simpl. intros Hi.
  apply Init_inv in Hrun as (tb & ti & tj & -> & Hb & Hti & Hcase).
  pose proof (pre_joint_events _ _ _ Hb Hti) as Hpre.
  rewrite app_assoc in Hi.
  assert (length (tb ++ ti) ≤ i) as Hlen.
  { eapply (lookup_app_right (λ e, joint_event e = false)); [done..|].
    simpl. discriminate. }
  destruct Hcase as [[-> ->]|(Hcalls & Hti' & -> & Hj)].
  { rewrite app_nil_r in Hi. apply lookup_lt_Some in Hi. lia. }
  apply joint_part_events in Hj.
  assert (Forall (λ e, child_call e = None) tj) as Hjc.
  { eapply Forall_impl; [done|]. apply joint_event_not_child. }
  assert (Forall (λ e, child_call e = None) (ti ++ tj)) as Hijc.
  { apply Forall_app. split; [|done].
    eapply Forall_impl; [done|]. by intros e ->. }
  assert (∀ k e, (tb ++ ti ++ tj) !! k = Some e →
                 is_Some (child_call e) → k < length tb) as Hchild.
  { intros k e Hk [x Hx].
    eapply (lookup_app_left (λ e, child_call e = None)); [done..|].
    by rewrite Hx. }
  rewrite length_app in Hlen.
  split_and!.
  - rewrite (app_assoc tb), take_app_ge by (rewrite length_app; lia).
    rewrite <- app_assoc, omap_app, Hcalls.
    rewrite (omap_nil_Forall child_call (ti ++ _)); [by rewrite app_nil_r|].
    apply Forall_app. split; [by apply Forall_app in Hijc as []|].
    by apply Forall_take.
  - intros k e Hk He. specialize (Hchild k e Hk He). lia.
  - destruct engine_is_simbody; subst ti.
    + exists (length tb). simpl in Hlen. split_and!.
      * lia.
      * by rewrite lookup_app_r, Nat.sub_diag.
      * rewrite take_app_length. done.
      * done.
    + intros m Hm. rewrite app_nil_l in Hm.
      apply elem_of_app in Hm as [Hm|Hm].
      * by apply (proj1 (Forall_forall _ _) Hb) in Hm.
      * by apply (proj1 (Forall_forall _ _) Hj) in Hm.
Qed.

(** C2: [SimbodyModel::Load] makes one call, [Model::Load] on the same
    object with the same element; it leaves the world as that call leaves
    it and ends the way that call ends. *)
Theorem SimbodyModel_Load_forwards this sdf w :
  SimbodyModel_Load this sdf w = Model_Load_effect this sdf w
  ∧ (SimbodyModel_Load this sdf w).1.1 = [EModelLoad this sdf]
  ∧ (SimbodyModel_Load this sdf w).1.2 = (Model_Load this sdf w).1
  ∧ ((SimbodyModel_Load this sdf w).2 = Thrown
     ↔ (Model_Load this sdf w).2 = Throws).
Proof.
  unfold SimbodyModel_Load, Model_Load_effect, extcall.
  destruct (Model_Load this sdf w) as [w' []]; simpl; split_and!; done.
Qed.

(** C3: when [Init] has been called on every joint of the model and each
    call completed, [Init] publishes exactly one message per joint, the one
    [FillMsg] of that joint gives once the joints are initialised, in the
    order of the joints list, and every publication comes after every joint
    initialisation. *)
Theorem Init_publishes_joints id ch gr js w :
  omap joint_call (SimbodyModel_Init (Model id ch gr js) w).1.1
    = map (λ j, (j, Returns)) js →
  omap published (SimbodyModel_Init (Model id ch gr js) w).1.1
    = map (λ j,
        Joint_FillMsg j (SimbodyModel_Init (Model id ch gr js) w).1.2) js
  ∧ ∀ i k j c msg,
      (SimbodyModel_Init (Model id ch gr js) w).1.1 !! i
        = Some (EJointInit j c) →
      (SimbodyModel_Init (Model id ch gr js) w).1.1 !! k
        = Some (EPublish msg) →
      i < k.
Proof.
  destruct (SimbodyModel_Init (Model id ch gr js) w) as [[t w'] r] eqn:Hrun.
  simpl. intros Hall.
  apply Init_inv in Hrun as (tb & ti & tj & -> & Hb & Hti & Hcase).
  pose proof (pre_joint_events _ _ _ Hb Hti) as Hpre.
  assert (omap joint_call (tb ++ ti) = []) as Hnoj.
  { apply omap_nil_Forall. eapply Forall_impl; [done|]. by intros []. }
  assert (omap published (tb ++ ti) = []) as Hnop.
  { apply omap_nil_Forall. eapply Forall_impl; [done|]. by intros []. }
  rewrite app_assoc in Hall |- *. rewrite omap_app, Hnoj in Hall.
  rewrite omap_app, Hnop. simpl in Hall |- *.
  destruct Hcase as [[-> ->]|(_ & _ & -> & [->|(n & j' & Hn & ->)])].
  - (* nothing ran on the joints: there are none *)
    simpl in Hall. destruct js; [|done]. split; [done|].
    intros i k j c msg Hi _. rewrite app_nil_r in Hi.
    apply list_elem_of_lookup_2 in Hi.
    by apply (proj1 (Forall_forall _ _) Hpre) in Hi.
  - split.
    + rewrite omap_app.
      rewrite (omap_nil_Forall published (map _ js));
        [|by apply Forall_fmap, Forall_true].
      by apply omap_map_Some.
    + intros i k j c msg Hi Hk. rewrite app_assoc in Hi, Hk.
      assert (i < length ((tb ++ ti) ++ map (λ j, EJointInit j Returns) js)).
      { eapply (lookup_app_left (λ e, joint_call e = None)); [done| |].
        - by apply Forall_fmap, Forall_true.
        - simpl. discriminate. }
      assert (length ((tb ++ ti) ++ map (λ j, EJointInit j Returns) js) ≤ k).
      { eapply (lookup_app_right (λ e, published e = None)); [done| |].
        - apply Forall_app. split.
          + eapply Forall_impl; [done|]. by intros [].
          + by apply Forall_fmap, Forall_true.
        - simpl. discriminate. }
      lia.
  - (* a joint threw: excluded by the hypothesis *)
    exfalso. rewrite omap_app in Hall.
    assert ((j', Throws) ∈ map (λ j, (j, Returns)) js) as Hin.
    { rewrite <- Hall. apply elem_of_app. right. simpl. apply list_elem_of_here. }
    apply list_elem_of_fmap in Hin as (j0 & [=] & _).
Qed.

(** C9: if the [Init] of a joint throws, [SimbodyModel::Init] logs the
    error and returns right away, without exception: no message is
    published, not even for the joints before it, whose [Init] had
    completed; the joints after it are not initialised. *)
Theorem Init_joint_failure id ch gr js w i j :
  (SimbodyModel_Init (Model id ch gr js) w).1.1 !! i
    = Some (EJointInit j Throws) →
  (SimbodyModel_Init (Model id ch gr js) w).2 = Returned tt
  ∧ omap published (SimbodyModel_Init (Model id ch gr js) w).1.1 = []
  ∧ drop i (SimbodyModel_Init (Model id ch gr js) w).1.1
      = [EJointInit j Throws; EErr "Init joint failed"]
  ∧ ∃ k, js !! k = Some j
      ∧ omap joint_call
          (take i (SimbodyModel_Init (Model id ch gr js) w).1.1)
          = map (λ j, (j, Returns)) (take k js).
Proof.
  destruct (SimbodyModel_Init (Model id ch gr js) w) as [[t w'] r] eqn:Hrun.
  simpl. intros Hi.
  apply Init_inv in Hrun as (tb & ti & tj & -> & Hb & Hti & Hcase).
  pose proof (pre_joint_events _ _ _ Hb Hti) as Hpre.
  rewrite app_assoc in Hi |- *.
  assert (length (tb ++ ti) ≤ i) as Hlen.
  { eapply (lookup_app_right (λ e, joint_event e = false)); [done..|].
    simpl. discriminate. }
  destruct Hcase as [[-> ->]|(_ & _ & -> & [->|(n & j' & Hn & ->)])].
  - rewrite app_nil_r in Hi. apply lookup_lt_Some in Hi. lia.
  - (* every joint completed: no such event *)
    exfalso. apply list_elem_of_lookup_2 in Hi.
    apply elem_of_app in Hi as [Hi|Hi].
    + by apply (proj1 (Forall_forall _ _) Hpre) in Hi.
    + apply elem_of_app in Hi as [Hi|Hi];
        by apply list_elem_of_fmap in Hi as (j0 & [=] & _).
  - set (oks := map (λ j, EJointInit j Returns) (take n js)) in *.
    assert (Forall (λ e, joint_call e ≠ Some (j, Throws)) oks) as Hoks.
    { apply Forall_fmap, Forall_true. simpl. by intros j0 [=]. }
    rewrite (app_assoc (tb ++ ti)) in Hi |- *.
    assert (length ((tb ++ ti) ++ oks) ≤ i) as Hlo.
    { eapply (lookup_app_right (λ e, joint_call e ≠ Some (j, Throws)));
        [done| |by intros []].
      apply Forall_app. split; [|done].
      eapply Forall_impl; [done|]. by intros []. }
    assert (i < S (length ((tb ++ ti) ++ oks))) as Hhi.
    { destruct (decide (i < S (length ((tb ++ ti) ++ oks)))); [done|].
      rewrite lookup_app_r in Hi by lia.
      destruct (i - length ((tb ++ ti) ++ oks)) as [|[|?]] eqn:?;
        [lia|done|done]. }
    assert (i = length ((tb ++ ti) ++ oks)) as -> by lia.
    rewrite lookup_app_r, Nat.sub_diag in Hi by lia. injection Hi as ->.
    split_and!.
    + done.
    + apply omap_nil_Forall. apply Forall_app. split.
      * apply Forall_app. split.
        -- eapply Forall_impl; [done|]. by intros [].
        -- by apply Forall_fmap, Forall_true.
      * by repeat constructor.
    + by rewrite drop_app_length.
    + exists n. split; [done|]. rewrite take_app_length, omap_app.
      rewrite (omap_nil_Forall joint_call (tb ++ ti)).
      * by apply omap_map_Some.
      * eapply Forall_impl; [done|]. by intros [].
Qed.

End WithPhysics.

(** *** The toy arm *)

Example toy_arm_Init :
  SimbodyModel_Init (H := toy_physics) (toy_arm [9; 10]) [] =
    (toy_prelude
       ++ [EJointInit 9 Returns; EJointInit 10 Returns;
           @EPublish toy_physics (9, 7); @EPublish toy_physics (10, 7)],
     [10; 9; 8; 7; 5; 4; 2], Returned tt).
Proof. reflexivity. Qed.

Example toy_arm_Init_failing :
  SimbodyModel_Init (H := toy_physics) (toy_arm [9; 13; 10]) [] =
    (toy_prelude
       ++ [EJointInit 9 Returns; EJointInit 13 Throws;
           EErr "Init joint failed"],
     [9; 8; 7; 5; 4; 2], Returned tt).
Proof. reflexivity. Qed.

(** C1 on the toy arm: the first joint call is the eighth call, after the
    three child calls. *)
Lemma Init_bodies_before_joints_witness :
  (SimbodyModel_Init (H := toy_physics) (toy_arm [9; 10]) []).1.1 !! 7
    = Some (EJointInit 9 Returns)
  ∧ omap child_call
      (take 7 (SimbodyModel_Init (H := toy_physics) (toy_arm [9; 10]) []).1.1)
    = [(LINK, 2); (MODEL, 3); (LINK, 7)].
Proof.
  split; [reflexivity|].
  exact (proj1 (Init_bodies_before_joints (H := toy_physics)
                  1 toy_children [8] [9; 10] [] 7 9 Returns eq_refl)).
Defined.

(** C3 on the toy arm with joints 9 and 10. *)
Lemma Init_publishes_joints_witness :
  omap published
    (SimbodyModel_Init (H := toy_physics) (toy_arm [9; 10]) []).1.1
    = [(9, 7); (10, 7)].
Proof.
  exact (proj1 (Init_publishes_joints (H := toy_physics)
                  1 toy_children [8] [9; 10] [] eq_refl)).
Defined.

(** C9 on the toy arm with the failing joint 13 between 9 and 10. *)
Lemma Init_joint_failure_witness :
  (SimbodyModel_Init (H := toy_physics) (toy_arm [9; 13; 10]) []).2
    = Returned tt
  ∧ omap published
      (SimbodyModel_Init (H := toy_physics) (toy_arm [9; 13; 10]) []).1.1
    = [].
Proof.
  pose proof (Init_joint_failure (H := toy_physics)
                1 toy_children [8] [9; 13; 10] [] 8 13 eq_refl) as (Hr & Hp & _).
  split; [exact Hr|exact Hp].
Defined.

End SimbodyTheory.

(** ** Theory of Visual *)

Module RenderingTheory.
Import Rendering.

(** *** The toy scene *)

Example toy_box_scene_node :
  sceneNode (this toy_box) = Some "box"
  ∧ Ogre.sceneNodes (ogre (sys toy_box)) !! "box" = Some toy_box_node
  ∧ Ogre.sceneNodes (ogre (sys toy_box)) !! "root"
      = Some (Ogre.addChild "box" toy_root).
Proof. by split_and!. Qed.

Example toy_box_SetMaterial :
  let s' := (SetMaterial "Gazebo/Red" toy_box).2 in
  (SetMaterial "Gazebo/Red" toy_box).1 = Returned tt
  ∧ GetMaterialName (this s') = "box_MATERIAL_Gazebo/Red"
  ∧ Ogre.attached <$> Ogre.sceneNodes (ogre (sys s')) !! "box" =
      Some [Ogre.Entity "box_mesh" true
              ["box_MATERIAL_Gazebo/Red"; "box_MATERIAL_Gazebo/Red"];
            Ogre.SimpleRenderable "box_line" true "box_MATERIAL_Gazebo/Red"]
  ∧ Ogre.materials (ogre (sys s')) !! "box_MATERIAL_Gazebo/Red"
      = Some toy_material.
Proof. split_and!; vm_compute; reflexivity. Qed.

Example toy_box_SetMaterial_unknown :
  (SetMaterial "Gazebo/Blue" toy_box).1 = Returned tt
  ∧ GetMaterialName (this (SetMaterial "Gazebo/Blue" toy_box).2) = ""
  ∧ messages (sys (SetMaterial "Gazebo/Blue" toy_box).2) =
      ["Unable to get Material[Gazebo/Blue] for Geometry[box. Object will appear white"
         +:+ nl].
Proof. split_and!; vm_compute; reflexivity. Qed.

Example toy_box_SetTransparency :
  let s' := ((SetMaterial "Gazebo/Red";; SetTransparency one_f) toy_box).2 in
  transparency (this s') = one_f
  ∧ Ogre.materials (ogre (sys s')) !! "box_MATERIAL_Gazebo/Red" =
      Some [[ {| Ogre.depthWriteEnabled := false;
                 Ogre.diffuse :=
                   {| Ogre.r := one_f; Ogre.g := one_f; Ogre.b := one_f;
                      Ogre.a := zero |} |} ]]
  ∧ Ogre.materials (ogre (sys s')) !! "Gazebo/Red" = Some toy_material.
Proof. split_and!; vm_compute; reflexivity. Qed.

(** A second [SetMaterial] finds the clone and keeps it as it is, faded. *)
Example toy_box_SetMaterial_again :
  Ogre.materials
    (ogre (sys ((SetMaterial "Gazebo/Red";; SetTransparency one_f;;
                 SetMaterial "Gazebo/Red") toy_box).2))
    !! "box_MATERIAL_Gazebo/Red"
  = Some [[ {| Ogre.depthWriteEnabled := false;
               Ogre.diffuse :=
                 {| Ogre.r := one_f; Ogre.g := one_f; Ogre.b := one_f;
                    Ogre.a := zero |} |} ]].
Proof. vm_compute; reflexivity. Qed.

(** *** Stepping through computations *)

Lemma bind_step {A B} (c : M A) (k : A → M B) s a s' :
  c s = (Returned a, s') → (c ≫= k) s = k a s'.
Proof. intros Hc. unfold mbind, M_bind, bind. by rewrite Hc. Qed.

Lemma with_node_lookup n nd s :
  Ogre.sceneNodes (ogre (sys (with_node n nd s))) !! n = Some nd.
Proof. simpl. apply lookup_insert_eq. Qed.

Lemma with_node_twice n nd1 nd2 s :
  with_node n nd2 (with_node n nd1 s) = with_node n nd2 s.
Proof. unfold with_node. simpl. by rewrite insert_insert_eq. Qed.

Lemma with_node_same n nd s :
  Ogre.sceneNodes (ogre (sys s)) !! n = Some nd → with_node n nd s = s.
Proof.
  intros Hn. unfold with_node, setOgre, Ogre.setSceneNodes.
  rewrite insert_id by done. by destruct s as [v [en [ns rt ms] msgs rts]].
Qed.

Lemma deref_Some n nd s :
  Ogre.sceneNodes (ogre (sys s)) !! n = Some nd →
  deref (Some n) s = (Returned (n, nd), s).
Proof.
  intros Hn. unfold deref, gets, mbind, M_bind, bind. by rewrite Hn.
Qed.

Lemma update_Some n nd f s :
  Ogre.sceneNodes (ogre (sys s)) !! n = Some nd →
  update (Some n) f s = (Returned tt, with_node n (f nd) s).
Proof.
  intros Hn. unfold update. by erewrite bind_step by by apply deref_Some.
Qed.

Lemma numAttachedObjects_Some n nd s :
  Ogre.sceneNodes (ogre (sys s)) !! n = Some nd →
  numAttachedObjects (Some n) s = (Returned (length (Ogre.attached nd)), s).
Proof.
  intros Hn. unfold numAttachedObjects.
  by erewrite bind_step by by apply deref_Some.
Qed.

Lemma getAttachedObject_Some n nd i obj s :
  Ogre.sceneNodes (ogre (sys s)) !! n = Some nd →
  Ogre.attached nd !! i = Some obj →
  getAttachedObject (Some n) i s = (Returned obj, s).
Proof.
  intros Hn Hi. unfold getAttachedObject.
  erewrite bind_step by by apply deref_Some. simpl. by rewrite Hi.
Qed.

Lemma putAttachedObject_Some n nd i obj s :
  Ogre.sceneNodes (ogre (sys s)) !! n = Some nd →
  putAttachedObject (Some n) i obj s =
    (Returned tt,
     with_node n (Ogre.setAttached (<[i := obj]> (Ogre.attached nd)) nd) s).
Proof.
  intros Hn. unfold putAttachedObject. by rewrite (update_Some n nd).
Qed.

(** A counted loop whose body keeps an invariant that follows the index. *)
Lemma for_each_seq_inv (I : nat → State → Prop) (body : nat → M unit) k m s :
  (∀ i s0, k ≤ i < k + m → I i s0 →
           ∃ s1, body i s0 = (Returned tt, s1) ∧ I (S i) s1) →
  I k s →
  ∃ s', for_each body (seq k m) s = (Returned tt, s') ∧ I (k + m) s'.
Proof.
  revert k s. induction m as [|m IH]; intros k s Hbody Hk; simpl.
  - exists s. by rewrite Nat.add_0_r.
  - destruct (Hbody k s) as (s1 & Hrun & Hs1); [lia|done|].
    destruct (IH (S k) s1) as (s' & Hrest & Hs'); [|done|].
    { intros i s0 Hi. apply Hbody. lia. }
    exists s'. split.
    + by erewrite bind_step by done.
    + by replace (k + S m) with (S k + m) by lia.
Qed.

(** Rewriting the objects of a node one index after the other. *)
Lemma insert_take_drop {A} (f : A → A) (l : list A) i x :
  l !! i = Some x →
  <[i := f x]> (map f (take i l) ++ drop i l)
    = map f (take (S i) l) ++ drop (S i) l.
Proof.
  intros Hi. pose proof (lookup_lt_Some _ _ _ Hi) as Hlt.
  rewrite insert_app_r_alt; rewrite length_map, length_take; [|lia].
  replace (i - i `min` length l) with 0 by lia.
  erewrite drop_S by done. simpl.
  erewrite take_S_r by done. by rewrite map_app, <- app_assoc.
Qed.

Lemma setAttached_same nd : Ogre.setAttached (Ogre.attached nd) nd = nd.
Proof. by destruct nd. Qed.

(** A loop over the attached objects whose body replaces the object [obj]
    it finds at its index by [f obj]. *)
Lemma rewrite_attached_loop n nd s (body : nat → M unit)
    (f : Ogre.MovableObject → Ogre.MovableObject) :
  Ogre.sceneNodes (ogre (sys s)) !! n = Some nd →
  (∀ i obj nd',
     Ogre.attached nd' !! i = Some obj →
     body i (with_node n nd' s)
     = (Returned tt,
        with_node n
          (Ogre.setAttached (<[i := f obj]> (Ogre.attached nd')) nd') s)) →
  for_each body (seq 0 (length (Ogre.attached nd))) s
  = (Returned tt,
     with_node n (Ogre.setAttached (map f (Ogre.attached nd)) nd) s).
Proof.
  intros Hn Hbody. set (l := Ogre.attached nd).
  destruct (for_each_seq_inv
    (λ i s0, s0 = with_node n
                    (Ogre.setAttached (map f (take i l) ++ drop i l) nd) s)
    body 0 (length l) s) as (s' & Hrun & Hs').
  - intros i s0 [_ Hi] ->. simpl in Hi.
    destruct (lookup_lt_is_Some_2 l i Hi) as [x Hx].
    set (ndi := Ogre.setAttached (map f (take i l) ++ drop i l) nd).
    assert (Ogre.attached ndi !! i = Some x) as Hxi.
    { simpl. rewrite lookup_app_r; rewrite length_map, length_take; [|lia].
      rewrite lookup_drop. by replace (i + (i - i `min` length l)) with i by lia. }
    eexists. split; [by apply Hbody|].
    simpl. by rewrite insert_take_drop.
  - simpl. rewrite drop_0. unfold l. by rewrite setAttached_same, with_node_same.
  - rewrite Hrun, Hs'. simpl.
    by rewrite take_ge, drop_ge, app_nil_r by done.
Qed.

(** The shape the bodies of these loops have: fetch the object, compute its
    replacement without touching the state, store it. *)
Lemma rewrite_attached_body n s i obj nd'
    (step : Ogre.MovableObject → M Ogre.MovableObject)
    (f : Ogre.MovableObject → Ogre.MovableObject) :
  step obj (with_node n nd' s) = (Returned (f obj), with_node n nd' s) →
  Ogre.attached nd' !! i = Some obj →
  (obj ← getAttachedObject (Some n) i;
   obj' ← step obj;
   putAttachedObject (Some n) i obj') (with_node n nd' s)
  = (Returned tt,
     with_node n
       (Ogre.setAttached (<[i := f obj]> (Ogre.attached nd')) nd') s).
Proof.
  intros Hstep Hi.
  erewrite bind_step
    by (eapply getAttachedObject_Some; [apply with_node_lookup|done]).
  erewrite bind_step by apply Hstep.
  rewrite (putAttachedObject_Some n nd') by apply with_node_lookup.
  by rewrite with_node_twice.
Qed.

(** *** The claims about Visual *)

(** C4: when the rendering engine is enabled, [SetCastShadows(s)] returns
    with the cast-shadows flag of every object attached to the scene node
    of the visual (every index below [numAttachedObjects]) equal to [s],
    the attached objects being otherwise what they were; and when the
    visual is static and has a static geometry, the flag of the static
    geometry is [s] too. *)
Theorem SetCastShadows_sets_flags shadows s n nd :
  renderEngineEnabled (sys s) = true →
  sceneNode (this s) = Some n →
  Ogre.sceneNodes (ogre (sys s)) !! n = Some nd →
  ∃ nd',
    (SetCastShadows shadows s).1 = Returned tt
    ∧ Ogre.sceneNodes (ogre (sys (SetCastShadows shadows s).2)) !! n
        = Some nd'
    ∧ Ogre.attached nd' = map (Ogre.setCastShadows shadows) (Ogre.attached nd)
    ∧ Ogre.numAttachedObjects nd' = Ogre.numAttachedObjects nd
    ∧ (∀ i, i < Ogre.numAttachedObjects nd' →
         ∃ obj, Ogre.attached nd' !! i = Some obj
                ∧ Ogre.getCastShadows obj = shadows)
    ∧ (IsStatic (this s) = true → is_Some (staticGeom (this s)) →
       staticGeom (this (SetCastShadows shadows s).2)
         = Some {| Ogre.sgCastShadows := shadows |}).
Proof.
  intros Hen Hnode Hn.
  exists (Ogre.setAttached
            (map (Ogre.setCastShadows shadows) (Ogre.attached nd)) nd).
  unfold SetCastShadows.
  erewrite bind_step by reflexivity. unfold GetRenderEngineEnabled.
  simpl. rewrite Hen. simpl.
  erewrite bind_step by reflexivity. simpl. rewrite Hnode.
  erewrite bind_step by by apply numAttachedObjects_Some.
  erewrite bind_step.
  2:{ apply (rewrite_attached_loop n nd s _ (Ogre.setCastShadows shadows));
        [done|]. intros i obj nd' Hi.
      by apply (rewrite_attached_body n s i obj nd'
                  (λ obj, ret (Ogre.setCastShadows shadows obj))). }
  erewrite bind_step by reflexivity. simpl.
  assert (∀ i, i < length (map (Ogre.setCastShadows shadows) (Ogre.attached nd)) →
     ∃ obj, map (Ogre.setCastShadows shadows) (Ogre.attached nd) !! i = Some obj
            ∧ Ogre.getCastShadows obj = shadows) as Hall.
  { intros i Hi. destruct (lookup_lt_is_Some_2 _ i Hi) as [obj Hobj].
    exists obj. split; [done|].
    apply list_lookup_fmap_Some_1 in Hobj as (obj0 & -> & _).
    by destruct obj0. }
  unfold IsStatic, Ogre.numAttachedObjects.
  destruct (isStatic (this s)), (staticGeom (this s)) as [g|] eqn:Hg; simpl;
    (split_and!;
     [done|apply lookup_insert_eq|done|by rewrite length_map|done|
      try done; by intros ? [? [=]]]).
Qed.

Lemma try_catch_returned {A} (c : M A) (h : string → M A) s a s' :
  c s = (Returned a, s') → try_catch c h s = (Returned a, s').
Proof. intros Hc. unfold try_catch. by rewrite Hc. Qed.

(** The run of [SetMaterial] on an existing material. *)
Lemma SetMaterial_run m s n nd orig :
  renderEngineEnabled (sys s) = true →
  m ≠ "" →
  Ogre.materials (ogre (sys s)) !! m = Some orig →
  sceneNode (this s) = Some n →
  Ogre.sceneNodes (ogre (sys s)) !! n = Some nd →
  ∃ sys',
    SetMaterial m s =
      (Returned tt,
       with_node n
         (Ogre.setAttached
            (map (Ogre.setMaterialName (n +:+ "_MATERIAL_" +:+ m))
                 (Ogre.attached nd)) nd)
         {| this := setMyMaterialName (n +:+ "_MATERIAL_" +:+ m)
                      (setOrigMaterialName m (this s));
            sys := sys' |})
    ∧ Ogre.materials (ogre sys') =
        match Ogre.materials (ogre (sys s)) !! (n +:+ "_MATERIAL_" +:+ m) with
        | Some _ => Ogre.materials (ogre (sys s))
        | None => <[n +:+ "_MATERIAL_" +:+ m := orig]>
                    (Ogre.materials (ogre (sys s)))
        end.
Proof.
  intros Hen Hm Horig Hnode Hn.
  set (my := n +:+ "_MATERIAL_" +:+ m).
  unfold SetMaterial, GetRenderEngineEnabled.
  erewrite bind_step by reflexivity. simpl. rewrite Hen. simpl.
  rewrite bool_decide_eq_false_2 by done.
  erewrite bind_step by reflexivity. simpl. rewrite Hnode.
  set (s1 := {| this := setOrigMaterialName m (this s); sys := sys s |}).
  erewrite (bind_step _ _ _ (Next, Some orig) s1).
  2:{ apply try_catch_returned.
      erewrite bind_step by reflexivity.
      erewrite bind_step by (unfold getByName, gets; reflexivity).
      simpl. by rewrite Horig. }
  simpl.
  erewrite (bind_step _ _ _ n s1).
  2:{ unfold getName. by erewrite bind_step by by apply deref_Some. }
  erewrite bind_step by reflexivity.
  erewrite bind_step by reflexivity. simpl. fold my.
  set (v2 := setMyMaterialName my (setOrigMaterialName m (this s))).
  erewrite bind_step by reflexivity. simpl.
  (* the clone, or the material that is there *)
  assert (∃ sys' mat,
    (if bool_decide (is_Some (Ogre.materials (ogre (sys s)) !! my))
     then getByName my
     else m0 ← clone orig my; ret (Some m0)) {| this := v2; sys := sys s |}
    = (Returned (Some mat), {| this := v2; sys := sys' |})
    ∧ renderEngineEnabled sys' = true
    ∧ Ogre.sceneNodes (ogre sys') !! n = Some nd
    ∧ is_Some (Ogre.materials (ogre sys') !! my)
    ∧ Ogre.materials (ogre sys') =
        match Ogre.materials (ogre (sys s)) !! my with
        | Some _ => Ogre.materials (ogre (sys s))
        | None => <[my := orig]> (Ogre.materials (ogre (sys s)))
        end) as (sys' & mat & Hclone & Hen' & Hn' & Hmy & Hmats).
  { destruct (Ogre.materials (ogre (sys s)) !! my) as [mat|] eqn:Hlook.
    - rewrite bool_decide_eq_true_2 by done.
      exists (sys s), mat. unfold getByName, gets. simpl. rewrite Hlook.
      by split_and!.
    - rewrite bool_decide_eq_false_2 by by intros [? [=]].
      eexists _, orig. split; [reflexivity|]. simpl.
      split_and!; [done|done| |done]. rewrite lookup_insert_eq. done. }
  erewrite bind_step by apply Hclone.
  erewrite bind_step by reflexivity.
  set (s3 := {| this := v2; sys := sys' |}).
  exists sys'. split; [|done].
  apply try_catch_returned.
  erewrite bind_step by by apply (numAttachedObjects_Some n nd).
  apply (rewrite_attached_loop n nd s3 _ (Ogre.setMaterialName my)); [done|].
  intros i obj nd' Hi.
  erewrite bind_step
    by (eapply getAttachedObject_Some; [apply with_node_lookup|done]).
  erewrite bind_step by reflexivity. simpl.
  erewrite (bind_step _ _ _ (Ogre.setMaterialName my obj)).
  - rewrite (putAttachedObject_Some n nd') by apply with_node_lookup.
    by rewrite with_node_twice.
  - destruct (Ogre.isEntity obj); [done|].
    unfold SimpleRenderable_setMaterial, resourceExists.
    erewrite bind_step by reflexivity. simpl.
    by rewrite bool_decide_eq_true_2.
Qed.

(** C5: when the rendering engine is enabled and [m] is a non-empty name of
    an existing material, [SetMaterial(m)] returns with the material known
    under the name of the scene node followed by ["_MATERIAL_"] and [m]: a
    clone of [m] if there was no material of that name, the material that
    was there otherwise; no other material changes; every object attached
    to the scene node shows that name and nothing else; and
    [GetMaterialName()] is that name.  With the empty name the call changes
    nothing. *)
Theorem SetMaterial_clones_and_assigns m s n nd orig :
  (renderEngineEnabled (sys s) = true →
   m ≠ "" →
   Ogre.materials (ogre (sys s)) !! m = Some orig →
   sceneNode (this s) = Some n →
   Ogre.sceneNodes (ogre (sys s)) !! n = Some nd →
   ∃ nd',
     (SetMaterial m s).1 = Returned tt
     ∧ GetMaterialName (this (SetMaterial m s).2) = n +:+ "_MATERIAL_" +:+ m
     ∧ Ogre.materials (ogre (sys (SetMaterial m s).2))
         !! (n +:+ "_MATERIAL_" +:+ m)
       = Some (default orig
                 (Ogre.materials (ogre (sys s)) !! (n +:+ "_MATERIAL_" +:+ m)))
     ∧ (∀ k, k ≠ n +:+ "_MATERIAL_" +:+ m →
          Ogre.materials (ogre (sys (SetMaterial m s).2)) !! k
          = Ogre.materials (ogre (sys s)) !! k)
     ∧ Ogre.sceneNodes (ogre (sys (SetMaterial m s).2)) !! n = Some nd'
     ∧ Ogre.numAttachedObjects nd' = Ogre.numAttachedObjects nd
     ∧ (∀ i, i < Ogre.numAttachedObjects nd' →
          ∃ obj, Ogre.attached nd' !! i = Some obj
                 ∧ Forall (eq (n +:+ "_MATERIAL_" +:+ m))
                          (Ogre.materialNames obj)))
  ∧ SetMaterial "" s = (Returned tt, s).
Proof.
  split; [|unfold SetMaterial, GetRenderEngineEnabled;
           erewrite bind_step by reflexivity;
           simpl; by destruct (renderEngineEnabled (sys s))].
  intros Hen Hm Horig Hnode Hn.
  destruct (SetMaterial_run m s n nd orig) as (sys' & -> & Hmats); [done..|].
  set (my := n +:+ "_MATERIAL_" +:+ m) in *.
  exists (Ogre.setAttached
            (map (Ogre.setMaterialName my) (Ogre.attached nd)) nd).
  simpl. rewrite Hmats. unfold Ogre.numAttachedObjects. simpl.
  split_and!.
  - done.
  - done.
  - destruct (Ogre.materials (ogre (sys s)) !! my) eqn:Hlook; simpl;
      [done|apply lookup_insert_eq].
  - intros k Hk. destruct (Ogre.materials (ogre (sys s)) !! my);
      [done|by rewrite lookup_insert_ne].
  - apply lookup_insert_eq.
  - by rewrite length_map.
  - intros i Hi. destruct (lookup_lt_is_Some_2 _ i Hi) as [obj Hobj].
    exists obj. split; [done|].
    apply list_lookup_fmap_Some_1 in Hobj as (obj0 & -> & _).
    destruct obj0 as [? ? subs|]; simpl; [|by repeat constructor].
    apply Forall_fmap, Forall_true. done.
Qed.

(** [GetPose] reads the pose off the scene node. *)
Lemma GetPose_run s n nd :
  renderEngineEnabled (sys s) = true →
  sceneNode (this s) = Some n →
  Ogre.sceneNodes (ogre (sys s)) !! n = Some nd →
  GetPose s =
    (Returned
       (Pose3d.mk
          (Vector3.mk (to_double (Ogre.Vector3.x (Ogre.position nd)))
                      (to_double (Ogre.Vector3.y (Ogre.position nd)))
                      (to_double (Ogre.Vector3.z (Ogre.position nd))))
          (Quatern.mk (to_double (Ogre.Quaternion.w (Ogre.orientation nd)))
                      (to_double (Ogre.Quaternion.x (Ogre.orientation nd)))
                      (to_double (Ogre.Quaternion.y (Ogre.orientation nd)))
                      (to_double (Ogre.Quaternion.z (Ogre.orientation nd))))),
     s).
Proof.
  intros Hen Hnode Hn. unfold GetPose, GetRenderEngineEnabled.
  erewrite bind_step by reflexivity. simpl. rewrite Hen. simpl.
  erewrite bind_step.
  2:{ unfold GetPosition, GetRenderEngineEnabled.
      erewrite bind_step by reflexivity. simpl. rewrite Hen. simpl.
      erewrite bind_step by reflexivity. simpl. rewrite Hnode.
      erewrite bind_step by by apply deref_Some. reflexivity. }
  erewrite bind_step.
  2:{ unfold GetRotation, GetRenderEngineEnabled.
      erewrite bind_step by reflexivity. simpl. rewrite Hen. simpl.
      erewrite bind_step by reflexivity. simpl. rewrite Hnode.
      erewrite bind_step by by apply deref_Some. reflexivity. }
  reflexivity.
Qed.

(** [SetPose] followed by [GetPose]: the pose comes back through Ogre. *)
Lemma SetPose_GetPose_run p s n nd :
  renderEngineEnabled (sys s) = true →
  sceneNode (this s) = Some n →
  Ogre.sceneNodes (ogre (sys s)) !! n = Some nd →
  ∃ s',
    SetPose p s = (Returned tt, s')
    ∧ GetPose s' = (Returned (pose_through_Ogre p), s').
Proof.
  intros Hen Hnode Hn.
  set (nd1 := Ogre.setPosition (Vector3.x (Pose3d.pos p))
                (Vector3.y (Pose3d.pos p)) (Vector3.z (Pose3d.pos p)) nd).
  set (nd2 := Ogre.setOrientation (Quatern.u (Pose3d.rot p))
                (Quatern.x (Pose3d.rot p)) (Quatern.y (Pose3d.rot p))
                (Quatern.z (Pose3d.rot p)) nd1).
  exists (with_node n nd2 s). split.
  - unfold SetPose, GetRenderEngineEnabled.
    erewrite bind_step by reflexivity. simpl. rewrite Hen. simpl.
    erewrite (bind_step _ _ _ tt (with_node n nd1 s)).
    + unfold SetRotation, GetRenderEngineEnabled.
      erewrite bind_step by reflexivity. simpl. rewrite Hen. simpl.
      erewrite bind_step by reflexivity. simpl. rewrite Hnode.
      rewrite (update_Some n nd1) by apply with_node_lookup.
      by rewrite with_node_twice.
    + unfold SetPosition. erewrite bind_step by reflexivity.
      simpl. rewrite Hnode. by apply update_Some.
  - rewrite (GetPose_run _ n nd2); [|done..|apply with_node_lookup].
    reflexivity.
Qed.

(** C6, amended: when the rendering engine is enabled, [SetPose(p)] returns
    and a [GetPose()] after it returns [p] as it comes back through Ogre:
    every component of the position and of the rotation, in its place,
    rounded to [Ogre::Real] and widened again.  So it returns [p] exactly
    when no component of [p] changes on this way. *)
Theorem SetPose_GetPose p s n nd :
  renderEngineEnabled (sys s) = true →
  sceneNode (this s) = Some n →
  Ogre.sceneNodes (ogre (sys s)) !! n = Some nd →
  (SetPose p s).1 = Returned tt
  ∧ (GetPose (SetPose p s).2).1 = Returned (pose_through_Ogre p)
  ∧ (SetPose p;; GetPose) s
    = (Returned (pose_through_Ogre p), (SetPose p s).2)
  ∧ ((GetPose (SetPose p s).2).1 = Returned p ↔ pose_through_Ogre p = p).
Proof.
  intros Hen Hnode Hn.
  destruct (SetPose_GetPose_run p s n nd Hen Hnode Hn) as (s' & Hset & Hget).
  rewrite (bind_step _ _ _ _ _ Hset), Hset. cbn [fst snd]. rewrite Hget.
  cbn [fst snd]. split_and!; try done.
  split; [by intros [= ->]|by intros ->].
Qed.

(** C6 as the claim has it fails: a pose with the components 0.1 and 1e40
    comes back with 0.100000001490116... and infinity. *)
Lemma SetPose_GetPose_counterexample :
  (SetPose toy_pose_tenth toy_box).1 = Returned tt
  ∧ (GetPose (SetPose toy_pose_tenth toy_box).2).1
    = Returned
        (Pose3d.mk
           (Vector3.mk (S754_finite false 7205759511166976 (-56))
                       (S754_infinity false) zero)
           Quatern.default)
  ∧ (GetPose (SetPose toy_pose_tenth toy_box).2).1 ≠ Returned toy_pose_tenth.
Proof. split_and!; vm_compute; (reflexivity || discriminate). Qed.

(** C10: when the rendering engine is disabled, whatever the visual and
    its scene node are, [GetNumAttached()] returns 0, [GetAttached(n)]
    returns [NULL] for every [n], and [GetPosition()] returns the zero
    vector; none of them changes anything. *)
Theorem accessors_when_disabled s :
  renderEngineEnabled (sys s) = false →
  GetNumAttached s = (Returned 0, s)
  ∧ (∀ num, GetAttached num s = (Returned None, s))
  ∧ GetPosition s = (Returned (Vector3.mk zero zero zero), s).
Proof.
  intros Hen.
  unfold GetNumAttached, GetAttached, GetPosition, GetRenderEngineEnabled.
  split_and!; [|intros num|]; erewrite bind_step by reflexivity;
    simpl; by rewrite Hen.
Qed.

(** A loop whose body keeps an invariant. *)
Lemma for_each_inv {A} (I : State → Prop) (body : A → M unit) l s :
  (∀ x s0, I s0 → ∃ s1, body x s0 = (Returned tt, s1) ∧ I s1) →
  I s →
  ∃ s', for_each body l s = (Returned tt, s') ∧ I s'.
Proof.
  intros Hbody. revert s. induction l as [|x l IH]; intros s Hs; simpl.
  - by exists s.
  - destruct (Hbody x s Hs) as (s1 & Hrun & Hs1).
    destruct (IH s1 Hs1) as (s' & Hrest & Hs').
    exists s'. split; [|done]. by erewrite bind_step by done.
Qed.

(** *** Clamping *)

Lemma SFleb_zero_of_not_lt t :
  t ≠ S754_nan → SFltb t zero = false → SFleb zero t = true.
Proof. by destruct t as [| [] | |[] ? ?]. Qed.

Lemma SFleb_one_of_not_lt t :
  t ≠ S754_nan → SFltb one_f t = false → SFleb t one_f = true.
Proof.
  destruct t as [| [] | |[] m e]; try done.
  unfold SFltb, SFleb, one_f, SFcompare. intros _.
  rewrite (Z.compare_antisym (-23) e).
  destruct (-23 ?= e)%Z; cbn [CompOpp]; try discriminate; try reflexivity.
  change (Pos.compare_cont Eq m 8388608)
    with (Pos.compare_cont (CompOpp Eq) m 8388608).
  rewrite <- Pos.compare_cont_antisym.
  destruct (Pos.compare_cont Eq 8388608 m); cbn [CompOpp];
    try discriminate; reflexivity.
Qed.

(** Between 0 and 1, unless the value is not a number. *)
Lemma clamp_range t :
  t ≠ S754_nan →
  SFleb zero (std_min (std_max t zero) one_f) = true
  ∧ SFleb (std_min (std_max t zero) one_f) one_f = true.
Proof.
  intros Hnan. unfold std_max.
  destruct (SFltb t zero) eqn:Hneg; [done|].
  unfold std_min. destruct (SFltb one_f t) eqn:Hbig; [done|].
  split; [by apply SFleb_zero_of_not_lt|by apply SFleb_one_of_not_lt].
Qed.

(** The run of [SetTransparency]: only the member and the materials
    change. *)
Lemma SetTransparency_run t s n nd :
  renderEngineEnabled (sys s) = true →
  sceneNode (this s) = Some n →
  Ogre.sceneNodes (ogre (sys s)) !! n = Some nd →
  ∃ s',
    SetTransparency t s = (Returned tt, s')
    ∧ this s' = setTransparency (std_min (std_max t zero) one_f) (this s)
    ∧ Ogre.sceneNodes (ogre (sys s')) = Ogre.sceneNodes (ogre (sys s)).
Proof.
  intros Hen Hnode Hn. unfold SetTransparency, GetRenderEngineEnabled.
  erewrite bind_step by reflexivity. simpl. rewrite Hen. simpl.
  erewrite bind_step by reflexivity.
  erewrite bind_step by reflexivity. simpl. rewrite Hnode.
  erewrite bind_step by by apply (numAttachedObjects_Some n nd).
  set (v' := setTransparency _ _).
  set (I := λ s0 : State,
         this s0 = v'
         ∧ Ogre.sceneNodes (ogre (sys s0)) = Ogre.sceneNodes (ogre (sys s))).
  edestruct (for_each_seq_inv (λ _, I)) as (s' & Hrun & Hv & Hnodes);
    [| |exists s'; split; [exact Hrun|done]]; [|done].
  intros i s0 [_ Hi] [Hv0 Hn0]. simpl in Hi.
  destruct (lookup_lt_is_Some_2 _ i Hi) as [obj Hobj].
  erewrite bind_step
    by (eapply getAttachedObject_Some; [by rewrite Hn0|done]).
  destruct obj as [? ? subs|]; [|by exists s0].
  apply for_each_inv; [|done].
  intros mat s1 [Hv1 Hn1]. eexists. split.
  - erewrite bind_step by reflexivity. reflexivity.
  - done.
Qed.

(** C8, amended: when the rendering engine is enabled, [SetTransparency(t)]
    returns with the transparency [std::min(std::max(t, 0), 1)], which
    [GetTransparency()] returns; if [t] is a number, that value is at
    least 0 and at most 1; if [t] is not a number, neither is that
    value. *)
Theorem SetTransparency_clamps t s n nd :
  renderEngineEnabled (sys s) = true →
  sceneNode (this s) = Some n →
  Ogre.sceneNodes (ogre (sys s)) !! n = Some nd →
  (SetTransparency t s).1 = Returned tt
  ∧ transparency (this (SetTransparency t s).2)
      = std_min (std_max t zero) one_f
  ∧ GetTransparency (this (SetTransparency t s).2)
      = std_min (std_max t zero) one_f
  ∧ (t ≠ S754_nan →
     SFleb zero (GetTransparency (this (SetTransparency t s).2)) = true
     ∧ SFleb (GetTransparency (this (SetTransparency t s).2)) one_f = true)
  ∧ (t = S754_nan →
     GetTransparency (this (SetTransparency t s).2) = S754_nan).
Proof.
  intros Hen Hnode Hn.
  destruct (SetTransparency_run t s n nd) as (s' & -> & Hv & _); [done..|].
  unfold GetTransparency. simpl. rewrite Hv. simpl.
  split_and!; [done..|apply clamp_range|by intros ->].
Qed.

(** C8 as the claim has it fails: with a transparency that is not a number,
    the stored value is not a number, and is not at least 0. *)
Lemma SetTransparency_nan_counterexample :
  (SetTransparency S754_nan toy_box).1 = Returned tt
  ∧ GetTransparency (this (SetTransparency S754_nan toy_box).2) = S754_nan
  ∧ SFleb zero (GetTransparency (this (SetTransparency S754_nan toy_box).2))
      = false
  ∧ SFleb (GetTransparency (this (SetTransparency S754_nan toy_box).2)) one_f
      = false.
Proof. split_and!; vm_compute; reflexivity. Qed.

(** *** Construction *)

Lemma createChildSceneNode_fresh p pnd nm s :
  Ogre.sceneNodes (ogre (sys s)) !! p = Some pnd →
  Ogre.sceneNodes (ogre (sys s)) !! nm = None →
  createChildSceneNode (Some p) nm s =
    (Returned (Some nm),
     {| this := this s;
        sys := setOgre
                 (Ogre.setSceneNodes
                    (<[nm := Ogre.newSceneNode p]>
                       (<[p := Ogre.addChild nm pnd]>
                          (Ogre.sceneNodes (ogre (sys s)))))
                    (ogre (sys s)))
                 (sys s) |}).
Proof.
  intros Hp Hnm. unfold createChildSceneNode.
  erewrite bind_step by by apply deref_Some. cbv beta iota.
  erewrite bind_step by reflexivity. simpl. rewrite Hnm.
  by erewrite bind_step by reflexivity.
Qed.

(** What every constructor does once it has the parent node. *)
Lemma construct_below name parent p pnd world :
  Ogre.sceneNodes (ogre world) !! p = Some pnd →
  Ogre.sceneNodes (ogre world) !! name = None →
  ∃ v w',
    construct name parent
      (nm ← gets (λ s, Rendering.name (this s));
       node ← createChildSceneNode (Some p) nm;
       modify_this (setSceneNode node);;
       Init) world
    = (Returned tt, {| this := v; sys := w' |})
    ∧ Rendering.name v = name
    ∧ sceneNode v = Some name
    ∧ Ogre.sceneNodes (ogre w') =
        <[name := Ogre.newSceneNode p]>
          (<[p := Ogre.addChild name pnd]> (Ogre.sceneNodes (ogre world))).
Proof.
  intros Hp Hname. unfold construct.
  erewrite bind_step by reflexivity. simpl.
  erewrite bind_step by by apply (createChildSceneNode_fresh p pnd).
  erewrite bind_step by reflexivity.
  unfold Init.
  erewrite bind_step by reflexivity.
  erewrite bind_step by reflexivity.
  eexists _, _. split; [reflexivity|]. done.
Qed.

(** C7, amended: a constructor that is given a parent whose scene node is
    in the scene manager (the scene node of a parent visual that is not
    [NULL], a parent scene node, or the root scene node of a scene), and a
    name no scene node has yet, returns with exactly one new scene node,
    named with the name of the visual, a child of the parent's scene node;
    [GetSceneNode()] is that node. *)
Theorem constructors_create_scene_node name world p pnd run :
  Ogre.sceneNodes (ogre world) !! p = Some pnd →
  Ogre.sceneNodes (ogre world) !! name = None →
  (∃ parent, sceneNode parent = Some p
             ∧ run = Visual_from_Visual name (Some parent) world)
  ∨ run = Visual_from_SceneNode name p world
  ∨ (Ogre.rootSceneNode (ogre world) = p
     ∧ run = Visual_from_Scene name TheScene world) →
  run.1 = Returned tt
  ∧ Rendering.name (this run.2) = name
  ∧ GetSceneNode (this run.2) = Some name
  ∧ Ogre.sceneNodes (ogre (sys run.2)) !! name = Some (Ogre.newSceneNode p)
  ∧ Ogre.sceneNodes (ogre (sys run.2)) !! p = Some (Ogre.addChild name pnd)
  ∧ dom (Ogre.sceneNodes (ogre (sys run.2)))
      = {[ name ]} ∪ dom (Ogre.sceneNodes (ogre world))
  ∧ (name ∉ dom (Ogre.sceneNodes (ogre world)))
  ∧ (∀ k, k ≠ name → k ≠ p →
       Ogre.sceneNodes (ogre (sys run.2)) !! k
       = Ogre.sceneNodes (ogre world) !! k).
Proof.
  intros Hp Hname Hrun.
  assert (∃ parent,
    run = construct name parent
            (nm ← gets (λ s, Rendering.name (this s));
             node ← createChildSceneNode (Some p) nm;
             modify_this (setSceneNode node);;
             Init) world) as [parent ->].
  { destruct Hrun as [(parent & Hnode & ->)|[->|[<- ->]]].
    - exists (Some (Rendering.name parent)).
      unfold Visual_from_Visual, construct, GetSceneNode.
      erewrite bind_step by reflexivity. by rewrite Hnode.
    - by exists None.
    - exists None. unfold Visual_from_Scene, construct.
      by erewrite bind_step by reflexivity. }
  destruct (construct_below name parent p pnd world)
    as (v & w' & -> & Hv & Hnode & Hnodes); [done..|].
  assert (name ≠ p) as Hne by (intros ->; congruence).
  simpl. rewrite Hnodes. unfold GetSceneNode.
  split_and!; [done..| | | | |].
  - apply lookup_insert_eq.
  - rewrite lookup_insert_ne by done. apply lookup_insert_eq.
  - rewrite !dom_insert_L. f_equal.
    apply subseteq_union_1_L, singleton_subseteq_l. by eapply elem_of_dom_2.
  - by apply not_elem_of_dom.
  - intros k Hk1 Hk2. by rewrite !lookup_insert_ne.
Qed.

(** C7 as the claim has it fails: with a [NULL] parent visual the
    constructor writes its error message and then calls through the null
    pointer; and with a name that a scene node already has, the scene
    manager throws.  Neither creates a scene node. *)
Lemma constructor_counterexample :
  (Visual_from_Visual "box" None (toy_world true)).1 = Crashed
  ∧ messages (sys (Visual_from_Visual "box" None (toy_world true)).2)
      = ["Create a visual, invalid parent!!!" +:+ nl]
  ∧ GetSceneNode (this (Visual_from_Visual "box" None (toy_world true)).2)
      = None
  ∧ Ogre.sceneNodes
      (ogre (sys (Visual_from_Visual "box" None (toy_world true)).2))
      = Ogre.sceneNodes (ogre (toy_world true))
  ∧ (Visual_from_Scene "box" TheScene (sys toy_box)).1
      = Thrown "A scene node with the name box already exists"
  ∧ GetSceneNode (this (Visual_from_Scene "box" TheScene (sys toy_box)).2)
      = None
  ∧ Ogre.sceneNodes
      (ogre (sys (Visual_from_Scene "box" TheScene (sys toy_box)).2))
      = Ogre.sceneNodes (ogre (sys toy_box)).
Proof. split_and!; vm_compute; reflexivity. Qed.

(** *** The claims at the toy scene *)

(** C4 on the toy box. *)
Lemma SetCastShadows_sets_flags_witness :
  ∃ nd',
    (SetCastShadows false toy_box).1 = Returned tt
    ∧ Ogre.sceneNodes (ogre (sys (SetCastShadows false toy_box).2)) !! "box"
        = Some nd'
    ∧ Ogre.attached nd' =
        [Ogre.Entity "box_mesh" false ["BaseWhite"; "BaseWhite"];
         Ogre.SimpleRenderable "box_line" false "BaseWhite"].
Proof.
  destruct (SetCastShadows_sets_flags false toy_box "box" toy_box_node
              eq_refl eq_refl eq_refl) as (nd' & Hr & Hnd & Hobjs & _).
  exists nd'. split; [exact Hr|]. split; [exact Hnd|exact Hobjs].
Defined.

(** C5 on the toy box, with the material of the toy world. *)
Lemma SetMaterial_clones_and_assigns_witness :
  GetMaterialName (this (SetMaterial "Gazebo/Red" toy_box).2)
    = "box_MATERIAL_Gazebo/Red"
  ∧ Ogre.materials (ogre (sys (SetMaterial "Gazebo/Red" toy_box).2))
      !! "box_MATERIAL_Gazebo/Red" = Some toy_material.
Proof.
  destruct (proj1 (SetMaterial_clones_and_assigns "Gazebo/Red" toy_box "box"
                     toy_box_node toy_material)
              eq_refl ltac:(discriminate) eq_refl eq_refl eq_refl)
    as (nd' & _ & Hname & Hclone & _).
  split; [exact Hname|exact Hclone].
Defined.

(** C6 on the toy box. *)
Lemma SetPose_GetPose_witness :
  (GetPose (SetPose toy_pose toy_box).2).1 = Returned toy_pose.
Proof.
  apply (SetPose_GetPose toy_pose toy_box "box" toy_box_node
           eq_refl eq_refl eq_refl).
  vm_compute; reflexivity.
Defined.

(** C8 on the toy box, with an infinite transparency. *)
Lemma SetTransparency_clamps_witness :
  GetTransparency (this (SetTransparency (S754_infinity false) toy_box).2)
    = one_f.
Proof.
  exact (proj1 (proj2 (proj2
           (SetTransparency_clamps (S754_infinity false) toy_box "box"
              toy_box_node eq_refl eq_refl eq_refl)))).
Defined.

(** C10 on the toy box with the rendering engine switched off. *)
Lemma accessors_when_disabled_witness :
  GetNumAttached toy_box_disabled = (Returned 0, toy_box_disabled)
  ∧ GetAttached 0 toy_box_disabled = (Returned None, toy_box_disabled).
Proof.
  destruct (accessors_when_disabled toy_box_disabled eq_refl)
    as (Hnum & Hobj & _).
  split; [exact Hnum|exact (Hobj 0)].
Defined.

(** C7 on the toy scene: a lamp below the box. *)
Lemma constructors_create_scene_node_witness :
  (Visual_from_Visual "lamp" (Some (this toy_box)) (sys toy_box)).1
    = Returned tt
  ∧ GetSceneNode
      (this (Visual_from_Visual "lamp" (Some (this toy_box)) (sys toy_box)).2)
    = Some "lamp".
Proof.
  destruct (constructors_create_scene_node "lamp" (sys toy_box) "box"
              toy_box_node
              (Visual_from_Visual "lamp" (Some (this toy_box)) (sys toy_box))
              eq_refl eq_refl
              (or_introl (ex_intro _ (this toy_box) (conj eq_refl eq_refl))))
    as (Hr & _ & Hnode & _).
  split; [exact Hr|exact Hnode].
Defined.

End RenderingTheory.

(** ** More theory of SimbodyModel *)

Module SimbodyMoreTheory.
Import Simbody SimbodyMore SimbodyTheory.

Section WithPhysics.
Context `{Physics}.

(** X1: an exception that leaves [SimbodyModel::Init] of a model comes
    from a child, a gripper or [InitModel], before the loops over the
    joints of the model: when [Init] throws, it has called [Init] on none
    of the joints of the model, has not logged its error and has published
    none of its messages.  This is about the calls of this [Init] itself:
    what the [Init] of a nested model did before, to its own joints, is
    inside the event of that call. *)
Theorem Init_throws_before_joints id ch gr js w :
  (SimbodyModel_Init (Model id ch gr js) w).2 = Thrown →
  omap joint_call (SimbodyModel_Init (Model id ch gr js) w).1.1 = []
  ∧ omap logged (SimbodyModel_Init (Model id ch gr js) w).1.1 = []
  ∧ omap published (SimbodyModel_Init (Model id ch gr js) w).1.1 = [].
Proof.
  destruct (SimbodyModel_Init (Model id ch gr js) w) as [[t w'] r] eqn:Hrun.
  simpl. intros ->.
  apply Init_inv in Hrun as (tb & ti & tj & -> & Hb & Hti & Hcase).
  destruct Hcase as [[-> _]|(_ & _ & [=] & _)].
  pose proof (pre_joint_events _ _ _ Hb Hti) as Hpre.
  rewrite app_nil_r.
  split_and!; apply omap_nil_Forall; (eapply Forall_impl; [done|]);
    by intros [].
Qed.

(** X2: [SimbodyModel::Init] publishes for all joints or for none: the
    messages of a run are either none at all, or one per joint of the
    list, in order, and then every joint was initialised and [Init]
    returned. *)
Theorem Init_publishes_all_or_nothing id ch gr js w :
  omap published (SimbodyModel_Init (Model id ch gr js) w).1.1 = []
  ∨ (omap published (SimbodyModel_Init (Model id ch gr js) w).1.1
       = map (λ j, Joint_FillMsg j
                     (SimbodyModel_Init (Model id ch gr js) w).1.2) js
     ∧ omap joint_call (SimbodyModel_Init (Model id ch gr js) w).1.1
         = map (λ j, (j, Returns)) js
     ∧ (SimbodyModel_Init (Model id ch gr js) w).2 = Returned tt).
Proof.
  destruct (SimbodyModel_Init (Model id ch gr js) w) as [[t w'] r] eqn:Hrun.
  simpl.
  apply Init_inv in Hrun as (tb & ti & tj & -> & Hb & Hti & Hcase).
  pose proof (pre_joint_events _ _ _ Hb Hti) as Hpre.
  assert (omap published (tb ++ ti) = []) as Hnop.
  { apply omap_nil_Forall. eapply Forall_impl; [done|]. by intros []. }
  assert (omap joint_call (tb ++ ti) = []) as Hnoj.
  { apply omap_nil_Forall. eapply Forall_impl; [done|]. by intros []. }
  rewrite !app_assoc, !(omap_app _ (tb ++ ti) tj), Hnop, Hnoj. simpl.
  destruct Hcase as [[-> ->]|(_ & _ & -> & [->|(n & j' & Hn & ->)])].
  - by left.
  - right. rewrite !omap_app.
    rewrite (omap_nil_Forall published (map _ js))
      by by apply Forall_fmap, Forall_true.
    rewrite (omap_nil_Forall joint_call (map (λ j, EPublish _) js))
      by by apply Forall_fmap, Forall_true.
    rewrite app_nil_r. simpl.
    split_and!; [by apply omap_map_Some|by apply omap_map_Some|done].
  - left. apply omap_nil_Forall, Forall_app. split.
    + by apply Forall_fmap, Forall_true.
    + by repeat constructor.
Qed.

(** X3: the joints are initialised in the order of the list, each at most
    once, up to the first one that throws: the joints [Init] was called on
    are the first [k] joints of the list, and only the last of these calls
    can have thrown. *)
Theorem Init_joint_calls_prefix id ch gr js w :
  ∃ k,
    k ≤ length js
    ∧ (omap joint_call (SimbodyModel_Init (Model id ch gr js) w).1.1).*1
        = take k js
    ∧ ∀ i j,
        omap joint_call (SimbodyModel_Init (Model id ch gr js) w).1.1 !! i
          = Some (j, Throws) →
        S i = k.
Proof.
  destruct (SimbodyModel_Init (Model id ch gr js) w) as [[t w'] r] eqn:Hrun.
  simpl.
  apply Init_inv in Hrun as (tb & ti & tj & -> & Hb & Hti & Hcase).
  pose proof (pre_joint_events _ _ _ Hb Hti) as Hpre.
  assert (omap joint_call (tb ++ ti) = []) as Hnoj.
  { apply omap_nil_Forall. eapply Forall_impl; [done|]. by intros []. }
  rewrite !app_assoc, !(omap_app _ (tb ++ ti) tj), Hnoj. simpl.
  assert (∀ l : list nat,
    omap joint_call (map (λ j, EJointInit j Returns) l : list Event)
    = map (λ j, (j, Returns)) l) as Hoks.
  { intros l. by apply omap_map_Some. }
  assert (∀ l : list nat, (map (λ j, (j, Returns)) l).*1 = l) as Hfst.
  { intros l. rewrite <- list_fmap_compose. apply list_fmap_id. }
  destruct Hcase as [[-> ->]|(_ & _ & -> & [->|(n & j' & Hn & ->)])].
  - exists 0. split_and!; [lia|done|done].
  - exists (length js). rewrite omap_app, Hoks.
    rewrite (omap_nil_Forall joint_call (map (λ j, EPublish _) js))
      by by apply Forall_fmap, Forall_true.
    rewrite app_nil_r, Hfst, take_ge by done.
    split_and!; [done..|].
    intros i j Hi. by apply list_lookup_fmap_Some in Hi as (? & ? & [=]).
  - exists (S n). pose proof (lookup_lt_Some _ _ _ Hn) as Hlt.
    rewrite omap_app, Hoks. simpl.
    rewrite fmap_app, Hfst. simpl.
    split_and!; [lia|by erewrite take_S_r by done|].
    intros i j Hi.
    apply lookup_app_Some in Hi as [Hi|[Hlen Hi]].
    + by apply list_lookup_fmap_Some in Hi as (? & ? & [=]).
    + rewrite length_map, length_take in Hlen, Hi.
      apply list_lookup_singleton_Some in Hi as [Hi _]. lia.
Qed.

(** Induction on the children tree. *)
Lemma Base_nested_ind (P : Base → Prop) :
  (∀ id, P (Link id)) →
  (∀ id ch gr js, Forall P ch → P (Model id ch gr js)) →
  (∀ id, P (Other id)) →
  ∀ b, P b.
Proof.
  intros HL HM HO. fix IH 1. intros [id|id ch gr js|id].
  - apply HL.
  - apply HM. induction ch as [|c ch IHch]; constructor; [apply IH|apply IHch].
  - apply HO.
Qed.

Lemma bind_result {A B} (c : M A) (k : A → M B) w :
  ((c ≫= k) w).2 =
    match (c w).2 with
    | Returned a => (k a (c w).1.2).2
    | Thrown => Thrown
    end.
Proof.
  unfold mbind, M_bind, bind. destruct (c w) as [[t1 w1] [a|]]; [|done].
  simpl. by destruct (k a w1) as [[t2 w2] r2].
Qed.

Lemma for_each_returns {A} (body : A → M unit) (l : list A) :
  Forall (λ x, ∀ w, (body x w).2 = Returned tt) l →
  ∀ w, (for_each body l w).2 = Returned tt.
Proof.
  induction 1 as [|x l Hx _ IH]; intros w; simpl; [done|].
  rewrite bind_result, Hx. apply IH.
Qed.

(** X4: joint failures never escape, at any depth of nesting: if no
    [Link::Init], [Gripper::Init] or [InitModel] throws, then
    [SimbodyModel::Init] returns normally on every model, whatever the
    [Init] of its joints and of the joints of its nested models do. *)
Theorem Init_returns_when_bodies_do :
  (∀ l w, (Link_Init l w).2 = Returns) →
  (∀ g w, (Gripper_Init g w).2 = Returns) →
  (∀ m w, (SimbodyPhysics_InitModel m w).2 = Returns) →
  ∀ b w, (SimbodyModel_Init b w).2 = Returned tt.
Proof.
  intros HL HG HI.
  apply (Base_nested_ind (λ b, ∀ w, (SimbodyModel_Init b w).2 = Returned tt));
    [done| |done].
  intros id ch gr js IH w. simpl.
  rewrite bind_result. simpl. rewrite bind_result. simpl.
  rewrite bind_result. simpl. rewrite bind_result. simpl.
  rewrite bind_result, for_each_returns.
  2:{ eapply Forall_impl; [exact IH|]. intros c Hc w0. unfold init_child.
      destruct (HasType c LINK).
      - unfold extcall. specialize (HL (GetId c) w0).
        by destruct (Link_Init (GetId c) w0) as [? []].
      - destruct (HasType c MODEL); [|done].
        unfold nested. specialize (Hc w0).
        by destruct (SimbodyModel_Init c w0) as [[] ?]. }
  rewrite bind_result, for_each_returns.
  2:{ apply Forall_true. intros g w0. unfold init_gripper, extcall.
      specialize (HG g w0). by destruct (Gripper_Init g w0) as [? []]. }
  rewrite bind_result.
  assert (∀ w0, (rebuild_simbody_state id w0).2 = Returned tt) as ->.
  { intros w0. unfold rebuild_simbody_state, extcall.
    destruct engine_is_simbody; [|done]. specialize (HI id w0).
    by destruct (SimbodyPhysics_InitModel id w0) as [? []]. }
  rewrite bind_result.
  match goal with
  | |- context [for_each_return init_joint js ?w0] =>
      destruct (for_each_return init_joint js w0) as [[tj wj] rj] eqn:Hj
  end.
  apply init_joints_run in Hj as [[-> _]|[-> _]]; simpl; [|done].
  by rewrite publish_joints_run.
Qed.

Lemma init_child_calls F c w :
  Forall (λ e, is_Some (child_call e) ∧ gripper_call e = None)
         (init_child F c w).1.1.
Proof.
  unfold init_child. destruct (HasType c LINK).
  - unfold extcall. destruct (Link_Init _ w) as [w' []]; by repeat constructor.
  - destruct (HasType c MODEL).
    + unfold nested. destruct (F c w) as [[t w'] r]. by repeat constructor.
    + constructor.
Qed.

Lemma init_gripper_calls g w :
  Forall (λ e, gripper_call e = Some g) (init_gripper g w).1.1.
Proof.
  unfold init_gripper, extcall.
  destruct (Gripper_Init g w) as [w' []]; by repeat constructor.
Qed.

(** When the gripper loop returns, every gripper has been initialised, in
    the order of the list. *)
Lemma init_grippers_returned gr w t w' :
  for_each init_gripper gr w = (t, w', Returned tt) →
  omap gripper_call t = gr.
Proof.
  revert w t. induction gr as [|g gr IH]; intros w t; simpl.
  - by intros [= <- <-].
  - intros Hrun. apply bind_inv in Hrun
      as [(t1 & w1 & [] & t2 & Hg & Hrest & ->)|[_ [=]]].
    rewrite omap_app, (IH _ _ Hrest).
    unfold init_gripper, extcall in Hg.
    by destruct (Gripper_Init g w) as [? []]; injection Hg as <- <-.
Qed.

(** The trace of [Init], in four parts: the two pose calls, the calls on
    children, the calls on grippers, the rest. *)
Lemma Init_bodies_inv id ch gr js w t w' r :
  SimbodyModel_Init (Model id ch gr js) w = (t, w', r) →
  ∃ tp tc tg tr,
    t = tp ++ tc ++ tg ++ tr ∧
    Forall (λ e, body_event e = true
                 ∧ child_call e = None ∧ gripper_call e = None) tp ∧
    Forall (λ e, is_Some (child_call e) ∧ gripper_call e = None) tc ∧
    Forall (λ e, is_Some (gripper_call e)) tg ∧
    Forall (λ e, child_call e = None ∧ gripper_call e = None) tr ∧
    (tr ≠ [] → omap gripper_call tg = gr).
Proof.
  simpl. intros Hrun.
  apply bind_inv in Hrun
    as [(t1 & w1 & p1 & t2 & [= <- <- <-] & Hrun & ->)|[[=] _]].
  apply bind_inv in Hrun
    as [(t1 & w1 & [] & t3 & [= <- <-] & Hrun & ->)|[[=] _]].
  apply bind_inv in Hrun
    as [(t1 & w1 & p2 & t4 & [= <- <- <-] & Hrun & ->)|[[=] _]].
  apply bind_inv in Hrun
    as [(t1 & w1 & [] & t5 & [= <- <-] & Hrun & ->)|[[=] _]].
  simpl.
  set (e1 := ESetInitialRelativePose _ _). set (e2 := ESetRelativePose _ _).
  set (w2 := SetRelativePose _ _ _) in Hrun.
  assert (Forall (λ e : Event, body_event e = true
                               ∧ child_call e = None ∧ gripper_call e = None)
                 [e1; e2]) as Hp by by repeat constructor.
  pose proof (for_each_events _ _ ch (init_child_calls SimbodyModel_Init) w2)
    as Hch.
  apply bind_inv in Hrun as [(tc & wc & [] & t6 & Hc & Hrun & ->)|[Hc ->]];
    rewrite Hc in Hch; simpl in Hch;
    [|exists [e1; e2], t5, [], []; rewrite !app_nil_r;
      split_and!; [done..|constructor|constructor|done]].
  pose proof (for_each_events (λ e, is_Some (gripper_call e)) _ gr
    (λ g w0, Forall_impl _ _ _ (init_gripper_calls g w0)
               (λ e He, ex_intro _ g He)) wc) as Hgr.
  apply bind_inv in Hrun as [(tg & wg & [] & t7 & Hg & Hrun & ->)|[Hg ->]];
    rewrite Hg in Hgr; simpl in Hgr;
    [|exists [e1; e2], tc, t6, []; rewrite !app_nil_r;
      split_and!; [done..|constructor|done]].
  apply init_grippers_returned in Hg.
  exists [e1; e2], tc, tg, t7. split_and!; [done..| |done].
  pose proof (rebuild_simbody_state_events id wg) as Hie.
  apply bind_inv in Hrun as [(ti & wi & [] & t8 & Hi & Hrun & ->)|[Hi ->]];
    rewrite Hi in Hie; simpl in Hie;
    [|eapply Forall_impl; [done|]; by intros e ->].
  apply Forall_app. split; [eapply Forall_impl; [done|]; by intros e ->|].
  apply bind_inv in Hrun as [(tj & wj & f & t9 & Hj & Hrun & ->)|[Hj ->]];
    apply init_joints_run in Hj as [[Hf Htj]|[Hf Htj]]; try discriminate;
    injection Hf as ->.
  - rewrite publish_joints_run in Hrun. injection Hrun as <- <- <-.
    subst tj. apply Forall_app.
    split; by apply Forall_fmap, Forall_true.
  - injection Hrun as <- <- <-. destruct Htj as (k & j & _ & ->).
    rewrite app_nil_r. apply Forall_app. split.
    + by apply Forall_fmap, Forall_true.
    + by repeat constructor.
Qed.

(** X5: the grippers come between the bodies and the rest: at the call of
    [InitModel] and at every call of [Init] on a joint, [Init] has been
    called on every gripper of the model, in the order of the list, and
    every call on a child precedes every call on a gripper. *)
Theorem Init_grippers_between id ch gr js w i e :
  (SimbodyModel_Init (Model id ch gr js) w).1.1 !! i = Some e →
  e = EInitModel id ∨ is_Some (joint_call e) →
  omap gripper_call (take i (SimbodyModel_Init (Model id ch gr js) w).1.1)
    = gr
  ∧ ∀ k eg,
      (SimbodyModel_Init (Model id ch gr js) w).1.1 !! k = Some eg →
      is_Some (gripper_call eg) →
      k < i
      ∧ ∀ k' ec,
          (SimbodyModel_Init (Model id ch gr js) w).1.1 !! k' = Some ec →
          is_Some (child_call ec) → k' < k.
Proof.
  destruct (SimbodyModel_Init (Model id ch gr js) w) as [[t w'] r] eqn:Hrun.
  simpl. intros Hi He.
  apply Init_bodies_inv in Hrun
    as (tp & tc & tg & tr & -> & Hp & Hc & Hg & Hr & Hall).
  assert (child_call e = None ∧ gripper_call e = None) as [Hec Heg].
  { destruct He as [->|[x Hx]]; [done|]. by destruct e. }
  assert (Forall (λ e, gripper_call e = None) (tp ++ tc)) as Hpc.
  { apply Forall_app. split; (eapply Forall_impl; [done|]).
    - by intros ? (_ & _ & ?).
    - by intros ? []. }
  assert (Forall (λ e, is_Some (child_call e) ∨ is_Some (gripper_call e))
                 (tc ++ tg)) as Hcg.
  { apply Forall_app. split; (eapply Forall_impl; [done|]).
    - intros ? []. by left.
    - intros ??. by right. }
  (* the event sits in the last part *)
  assert (length (tp ++ tc ++ tg) ≤ i) as Hlen.
  { rewrite !app_assoc in Hi. rewrite <- (app_assoc tp) in Hi.
    destruct (decide (length (tp ++ tc ++ tg) ≤ i)) as [|Hlt]; [done|].
    rewrite lookup_app_l in Hi by lia.
    destruct (decide (i < length tp)) as [Hlt'|Hge].
    - rewrite lookup_app_l in Hi by done.
      apply (proj1 (Forall_lookup _ _) Hp) in Hi as [Hi _].
      destruct He as [->|[x Hx]]; [done|]. by destruct e.
    - rewrite lookup_app_r in Hi by lia.
      apply (proj1 (Forall_lookup _ _) Hcg) in Hi as [[x Hx]|[x Hx]];
        congruence. }
  assert (tr ≠ []) as Hne.
  { intros ->. rewrite !app_nil_r in Hi. apply lookup_lt_Some in Hi. lia. }
  split.
  - rewrite !app_assoc, take_app_ge; rewrite <- !app_assoc; [|done].
    rewrite !omap_app, (Hall Hne).
    rewrite (omap_nil_Forall gripper_call tp)
      by (eapply Forall_impl; [done|]; by intros ? (_ & _ & ?)).
    rewrite (omap_nil_Forall gripper_call tc)
      by (eapply Forall_impl; [done|]; by intros ? []).
    rewrite (omap_nil_Forall gripper_call (take _ tr)); [by rewrite app_nil_r|].
    apply Forall_take. eapply Forall_impl; [done|]. by intros ? [].
  - intros k eg Hk [g Hgk].
    assert (length (tp ++ tc) ≤ k) as Hk1.
    { rewrite app_assoc in Hk.
      eapply (lookup_app_right (λ e, gripper_call e = None)); [done..|].
      by rewrite Hgk. }
    assert (k < length (tp ++ tc ++ tg)) as Hk2.
    { rewrite (app_assoc tp tc), (app_assoc (tp ++ tc) tg) in Hk.
      rewrite (app_assoc tp tc tg).
      eapply (lookup_app_left (λ e, gripper_call e = None)); [done| |].
      - eapply Forall_impl; [done|]. by intros ? [].
      - by rewrite Hgk. }
    split; [lia|]. intros k' ec Hk' [c Hck].
    assert (k' < length (tp ++ tc)); [|lia].
    rewrite app_assoc in Hk'.
    eapply (lookup_app_left (λ e, child_call e = None)); [done| |].
    + apply Forall_app. split.
      * eapply Forall_impl; [exact Hg|]. intros e0 [x Hx]. by destruct e0.
      * eapply Forall_impl; [done|]. by intros ? [].
    + by rewrite Hck.
Qed.

End WithPhysics.

(** X1 in the brittle world: link 7 throws, the joints are not touched. *)
Lemma Init_throws_before_joints_witness :
  (SimbodyModel_Init (H := brittle_physics) (toy_arm [9; 10]) []).2 = Thrown
  ∧ omap joint_call
      (SimbodyModel_Init (H := brittle_physics) (toy_arm [9; 10]) []).1.1
    = [].
Proof.
  split; [reflexivity|].
  exact (proj1 (Init_throws_before_joints (H := brittle_physics)
                  1 toy_children [8] [9; 10] [] eq_refl)).
Defined.

(** The hand of this arm has a joint that fails: the hand logs it and
    returns, and the arm goes on with link 7, its gripper and its joints. *)
Example toy_arm_bad_hand_Init :
  (SimbodyModel_Init (H := toy_physics) toy_arm_bad_hand []).1.1 =
    [@ESetInitialRelativePose toy_physics 1 0;
     @ESetRelativePose toy_physics 1 0;
     ELinkInit 2;
     EModelInit 3
       [@ESetInitialRelativePose toy_physics 3 1;
        @ESetRelativePose toy_physics 3 1;
        ELinkInit 4; EInitModel 3; EJointInit 13 Throws;
        EErr "Init joint failed"];
     ELinkInit 7; EGripperInit 8; EInitModel 1;
     EJointInit 9 Returns; EJointInit 10 Returns;
     @EPublish toy_physics (9, 6); @EPublish toy_physics (10, 6)].
Proof. reflexivity. Qed.

(** X4 in the toy world, where only joint 13 throws. *)
Lemma Init_returns_when_bodies_do_witness :
  (SimbodyModel_Init (H := toy_physics) toy_arm_bad_hand []).2 = Returned tt.
Proof.
  exact (Init_returns_when_bodies_do (H := toy_physics)
           (λ _ _, eq_refl) (λ _ _, eq_refl) (λ _ _, eq_refl)
           toy_arm_bad_hand []).
Defined.

(** X5 on the toy arm: the gripper is initialised before [InitModel]. *)
Lemma Init_grippers_between_witness :
  omap gripper_call
    (take 6 (SimbodyModel_Init (H := toy_physics) (toy_arm [9; 10]) []).1.1)
    = [8].
Proof.
  exact (proj1 (Init_grippers_between (H := toy_physics)
                  1 toy_children [8] [9; 10] [] 6 (EInitModel 1)
                  eq_refl (or_introl eq_refl))).
Defined.

End SimbodyMoreTheory.

(** ** More theory of Visual *)

Module RenderingMoreTheory.
Import Rendering RenderingMore RenderingTheory.

#[local] Arguments with_node : simpl never.

Ltac enter :=
  unfold GetRenderEngineEnabled;
  erewrite bind_step by reflexivity; simpl.

(** X6: while the rendering engine is disabled, the setters that test the
    flag return at once and leave the visual and the scene as they are,
    whatever the state of the visual, a null scene node included. *)
Theorem setters_when_disabled s :
  renderEngineEnabled (sys s) = false →
  (∀ m, SetMaterial m s = (Returned tt, s))
  ∧ (∀ t, SetTransparency t s = (Returned tt, s))
  ∧ (∀ b, SetCastShadows b s = (Returned tt, s))
  ∧ (∀ q, SetRotation q s = (Returned tt, s))
  ∧ (∀ p, SetPose p s = (Returned tt, s))
  ∧ (∀ o, AttachObject o s = (Returned tt, s))
  ∧ DetachObjects s = (Returned tt, s)
  ∧ (∀ m, SetBoundingBoxMaterial m s = (Returned tt, s))
  ∧ (∀ h, SetHighlight h s = (Returned tt, s)).
Proof.
  intros Hen.
  split_and!; intros;
    [unfold SetMaterial|unfold SetTransparency|unfold SetCastShadows
    |unfold SetRotation|unfold SetPose|unfold AttachObject
    |unfold DetachObjects|unfold SetBoundingBoxMaterial|unfold SetHighlight];
    enter; by rewrite Hen.
Qed.

(** *** Position and scale *)

Lemma SetPosition_run v s n nd :
  sceneNode (this s) = Some n →
  Ogre.sceneNodes (ogre (sys s)) !! n = Some nd →
  SetPosition v s =
    (Returned tt,
     with_node n
       (Ogre.setPosition (Vector3.x v) (Vector3.y v) (Vector3.z v) nd) s).
Proof.
  intros Hnode Hn. unfold SetPosition.
  erewrite bind_step by reflexivity. simpl. rewrite Hnode.
  by apply update_Some.
Qed.

Lemma SetRotation_run q s n nd :
  renderEngineEnabled (sys s) = true →
  sceneNode (this s) = Some n →
  Ogre.sceneNodes (ogre (sys s)) !! n = Some nd →
  SetRotation q s =
    (Returned tt,
     with_node n
       (Ogre.setOrientation (Quatern.u q) (Quatern.x q)
                            (Quatern.y q) (Quatern.z q) nd) s).
Proof.
  intros Hen Hnode Hn. unfold SetRotation. enter. rewrite Hen. simpl.
  erewrite bind_step by reflexivity. simpl. rewrite Hnode.
  by apply update_Some.
Qed.

Lemma GetPosition_run s n nd :
  renderEngineEnabled (sys s) = true →
  sceneNode (this s) = Some n →
  Ogre.sceneNodes (ogre (sys s)) !! n = Some nd →
  GetPosition s =
    (Returned (Vector3.mk (to_double (Ogre.Vector3.x (Ogre.position nd)))
                          (to_double (Ogre.Vector3.y (Ogre.position nd)))
                          (to_double (Ogre.Vector3.z (Ogre.position nd)))),
     s).
Proof.
  intros Hen Hnode Hn. unfold GetPosition. enter. rewrite Hen. simpl.
  erewrite bind_step by reflexivity. simpl. rewrite Hnode.
  by erewrite bind_step by by apply deref_Some.
Qed.

(** X7: [SetPosition] does not test the flag of the rendering engine: it
    moves the scene node also while the engine is disabled, when
    [GetPosition] answers the zero vector and [SetPose] does nothing; the
    position it stored, the given one rounded to [Ogre::Real], is the one
    [GetPosition] reads once the engine is enabled. *)
Theorem SetPosition_ignores_engine_flag v s n nd :
  renderEngineEnabled (sys s) = false →
  sceneNode (this s) = Some n →
  Ogre.sceneNodes (ogre (sys s)) !! n = Some nd →
  SetPosition v s =
    (Returned tt,
     with_node n
       (Ogre.setPosition (Vector3.x v) (Vector3.y v) (Vector3.z v) nd) s)
  ∧ (SetPosition v;; GetPosition) s
    = (Returned Vector3.default, (SetPosition v s).2)
  ∧ (GetPosition (setRenderEngineEnabled true (SetPosition v s).2)).1
    = Returned (vector_through_Ogre v)
  ∧ SetPose (Pose3d.mk v Quatern.default) s = (Returned tt, s).
Proof.
  intros Hen Hnode Hn.
  rewrite (SetPosition_run v s n nd) by done.
  split_and!.
  - done.
  - erewrite bind_step by by apply SetPosition_run.
    unfold GetPosition. enter. by rewrite Hen.
  - by erewrite (GetPosition_run _ n) by (done || apply with_node_lookup).
  - unfold SetPose. enter. by rewrite Hen.
Qed.

Lemma GetScale_run s n nd :
  sceneNode (this s) = Some n →
  Ogre.sceneNodes (ogre (sys s)) !! n = Some nd →
  GetScale s =
    (Returned (Vector3.mk (to_double (Ogre.Vector3.x (Ogre.scale nd)))
                          (to_double (Ogre.Vector3.y (Ogre.scale nd)))
                          (to_double (Ogre.Vector3.z (Ogre.scale nd)))), s).
Proof.
  intros Hnode Hn. unfold GetScale.
  erewrite bind_step by reflexivity. simpl. rewrite Hnode.
  by erewrite bind_step by by apply deref_Some.
Qed.

Lemma SetScale_run v s n nd ps :
  parameters (this s) = Some ps →
  sceneNode (this s) = Some n →
  Ogre.sceneNodes (ogre (sys s)) !! n = Some nd →
  SetScale v s =
    (Returned tt,
     with_node n
       (node_setScale (Vector3.x v) (Vector3.y v) (Vector3.z v) nd)
       {| this := setParameters (Some (setScaleP v ps)) (this s);
          sys := sys s |}).
Proof.
  intros Hps Hnode Hn. unfold SetScale.
  erewrite bind_step by reflexivity. simpl. rewrite Hps.
  erewrite bind_step by reflexivity.
  erewrite bind_step by reflexivity. simpl. rewrite Hnode.
  by rewrite (update_Some n nd).
Qed.

(** X8: on a visual the constructor has initialised, [SetScale(v)] followed
    by [GetScale()] gives [v] back as it comes through Ogre, every
    component rounded to [Ogre::Real] and widened again, with the engine
    enabled or not: it gives [v] itself exactly when no component changes
    on this way.  The scale parameter is [v] as given, and the position,
    the orientation, the children and the attached objects of the scene
    node stay. *)
Theorem SetScale_GetScale v s n nd ps :
  parameters (this s) = Some ps →
  sceneNode (this s) = Some n →
  Ogre.sceneNodes (ogre (sys s)) !! n = Some nd →
  ∃ nd',
    (SetScale v;; GetScale) s
    = (Returned (vector_through_Ogre v), (SetScale v s).2)
    ∧ (((SetScale v;; GetScale) s).1 = Returned v
       ↔ vector_through_Ogre v = v)
    ∧ (SetScale v s).1 = Returned tt
    ∧ (scaleP <$> parameters (this (SetScale v s).2)) = Some v
    ∧ Ogre.sceneNodes (ogre (sys (SetScale v s).2)) !! n = Some nd'
    ∧ Ogre.position nd' = Ogre.position nd
    ∧ Ogre.orientation nd' = Ogre.orientation nd
    ∧ Ogre.children nd' = Ogre.children nd
    ∧ Ogre.attached nd' = Ogre.attached nd.
Proof.
  intros Hps Hnode Hn.
  exists (node_setScale (Vector3.x v) (Vector3.y v) (Vector3.z v) nd).
  erewrite bind_step by by apply SetScale_run.
  rewrite (SetScale_run v s n nd ps) by done.
  erewrite (GetScale_run _ n) by (done || apply with_node_lookup).
  cbn [fst snd]. split_and!; try done.
  - change (Returned (vector_through_Ogre v) = Returned v
            ↔ vector_through_Ogre v = v).
    split; [by intros [= ->]|by intros ->].
  - apply with_node_lookup.
Qed.

(** *** Materials *)

Lemma string_length_app (a b : string) :
  String.length (a +:+ b) = String.length a + String.length b.
Proof. induction a as [|c a IH]; simpl; [done|]. by rewrite <- IH. Qed.

(** The name of the clone is longer than the name of the material. *)
Lemma clone_name_fresh n m : n +:+ "_MATERIAL_" +:+ m ≠ m.
Proof.
  intros Heq. apply (f_equal String.length) in Heq.
  rewrite !string_length_app in Heq. simpl in Heq. lia.
Qed.

Lemma clone_if_absent_frame k orig w :
  renderEngineEnabled (clone_if_absent k orig w) = renderEngineEnabled w
  ∧ Ogre.sceneNodes (ogre (clone_if_absent k orig w)) = Ogre.sceneNodes (ogre w)
  ∧ Ogre.rootSceneNode (ogre (clone_if_absent k orig w))
    = Ogre.rootSceneNode (ogre w)
  ∧ messages (clone_if_absent k orig w) = messages w
  ∧ rtShaderEntities (clone_if_absent k orig w) = rtShaderEntities w.
Proof. unfold clone_if_absent. by destruct (_ !! k). Qed.

Lemma clone_if_absent_lookup k orig w j :
  Ogre.materials (ogre (clone_if_absent k orig w)) !! j =
    if bool_decide (j = k)
    then Some (default orig (Ogre.materials (ogre w) !! k))
    else Ogre.materials (ogre w) !! j.
Proof.
  unfold clone_if_absent.
  destruct (Ogre.materials (ogre w) !! k) as [mat|] eqn:Hk; simpl;
    case_bool_decide as Hj; subst; try done.
  - apply lookup_insert_eq.
  - by apply lookup_insert_ne.
Qed.

Lemma clone_if_absent_present k orig w :
  is_Some (Ogre.materials (ogre w) !! k) → clone_if_absent k orig w = w.
Proof. intros [mat Hk]. unfold clone_if_absent. by rewrite Hk. Qed.

(** The run of [SetMaterial] on a name the material manager does not
    have. *)
Lemma SetMaterial_unknown_run m s n nd :
  renderEngineEnabled (sys s) = true →
  m ≠ "" →
  Ogre.materials (ogre (sys s)) !! m = None →
  sceneNode (this s) = Some n →
  Ogre.sceneNodes (ogre (sys s)) !! n = Some nd →
  SetMaterial m s =
    (Returned tt,
     {| this := setOrigMaterialName m (this s);
        sys := addMessage
                 ("Unable to get Material[" +:+ m +:+ "] for Geometry[" +:+ n
                  +:+ ". Object will appear white" +:+ nl) (sys s) |}).
Proof.
  intros Hen Hm Hnone Hnode Hn.
  unfold SetMaterial. enter. rewrite Hen. simpl.
  rewrite bool_decide_eq_false_2 by done.
  erewrite bind_step by reflexivity. simpl. rewrite Hnode.
  set (s1 := {| this := setOrigMaterialName m (this s); sys := sys s |}).
  erewrite (bind_step _ _ _ (Next, None) s1).
  2:{ apply try_catch_returned.
      erewrite bind_step by reflexivity.
      erewrite bind_step by (unfold getByName, gets; reflexivity).
      simpl. by rewrite Hnone. }
  simpl.
  erewrite (bind_step _ _ _ n s1).
  2:{ unfold getName. by erewrite bind_step by by apply deref_Some. }
  done.
Qed.

(** X9: with the engine enabled, [SetMaterial] with a name the material
    manager does not know returns after one message; it has recorded the
    name as the original material, and nothing else has changed: the
    material name of the visual, the attached objects and the materials are
    what they were. *)
Theorem SetMaterial_unknown m s n nd :
  renderEngineEnabled (sys s) = true →
  m ≠ "" →
  Ogre.materials (ogre (sys s)) !! m = None →
  sceneNode (this s) = Some n →
  Ogre.sceneNodes (ogre (sys s)) !! n = Some nd →
  SetMaterial m s =
    (Returned tt,
     {| this := setOrigMaterialName m (this s);
        sys := addMessage
                 ("Unable to get Material[" +:+ m +:+ "] for Geometry[" +:+ n
                  +:+ ". Object will appear white" +:+ nl) (sys s) |})
  ∧ GetMaterialName (this (SetMaterial m s).2) = GetMaterialName (this s)
  ∧ ogre (sys (SetMaterial m s).2) = ogre (sys s).
Proof.
  intros Hen Hm Hnone Hnode Hn.
  by rewrite (SetMaterial_unknown_run m s n nd).
Qed.

(** The run of [SetMaterial] on an existing material, in full. *)
Lemma SetMaterial_exact m s n nd orig :
  renderEngineEnabled (sys s) = true →
  m ≠ "" →
  Ogre.materials (ogre (sys s)) !! m = Some orig →
  sceneNode (this s) = Some n →
  Ogre.sceneNodes (ogre (sys s)) !! n = Some nd →
  SetMaterial m s =
    (Returned tt,
     with_node n
       (Ogre.setAttached
          (map (Ogre.setMaterialName (n +:+ "_MATERIAL_" +:+ m))
               (Ogre.attached nd)) nd)
       {| this := setMyMaterialName (n +:+ "_MATERIAL_" +:+ m)
                    (setOrigMaterialName m (this s));
          sys := clone_if_absent (n +:+ "_MATERIAL_" +:+ m) orig (sys s) |}).
Proof.
  intros Hen Hm Horig Hnode Hn.
  set (my := n +:+ "_MATERIAL_" +:+ m).
  unfold SetMaterial. enter. rewrite Hen. simpl.
  rewrite bool_decide_eq_false_2 by done.
  erewrite bind_step by reflexivity. simpl. rewrite Hnode.
  set (s1 := {| this := setOrigMaterialName m (this s); sys := sys s |}).
  erewrite (bind_step _ _ _ (Next, Some orig) s1).
  2:{ apply try_catch_returned.
      erewrite bind_step by reflexivity.
      erewrite bind_step by (unfold getByName, gets; reflexivity).
      simpl. by rewrite Horig. }
  simpl.
  erewrite (bind_step _ _ _ n s1).
  2:{ unfold getName. by erewrite bind_step by by apply deref_Some. }
  erewrite bind_step by reflexivity.
  erewrite bind_step by reflexivity. simpl. fold my.
  set (v2 := setMyMaterialName my (setOrigMaterialName m (this s))).
  erewrite bind_step by reflexivity. simpl.
  set (s3 := {| this := v2; sys := clone_if_absent my orig (sys s) |}).
  assert (∃ mat,
    (if bool_decide (is_Some (Ogre.materials (ogre (sys s)) !! my))
     then getByName my
     else m0 ← clone orig my; ret (Some m0)) {| this := v2; sys := sys s |}
    = (Returned (Some mat), s3)) as [mat Hclone].
  { unfold s3, clone_if_absent.
    destruct (Ogre.materials (ogre (sys s)) !! my) as [mat|] eqn:Hlook.
    - rewrite bool_decide_eq_true_2 by done.
      exists mat. unfold getByName, gets. simpl. by rewrite Hlook.
    - rewrite bool_decide_eq_false_2 by by intros [? [=]].
      by exists orig. }
  erewrite bind_step by apply Hclone.
  erewrite bind_step by reflexivity.
  destruct (clone_if_absent_frame my orig (sys s)) as (_ & Hnodes & _).
  assert (Ogre.sceneNodes (ogre (sys s3)) !! n = Some nd) as Hn3.
  { simpl. by rewrite Hnodes. }
  apply try_catch_returned.
  erewrite bind_step by by apply (numAttachedObjects_Some n nd).
  apply (rewrite_attached_loop n nd s3 _ (Ogre.setMaterialName my)); [done|].
  intros i obj nd' Hi.
  erewrite bind_step
    by (eapply getAttachedObject_Some; [apply with_node_lookup|done]).
  erewrite bind_step by reflexivity. simpl.
  erewrite (bind_step _ _ _ (Ogre.setMaterialName my obj)).
  - rewrite (putAttachedObject_Some n nd') by apply with_node_lookup.
    by rewrite with_node_twice.
  - destruct (Ogre.isEntity obj); [done|].
    unfold SimpleRenderable_setMaterial, resourceExists.
    erewrite bind_step by reflexivity. simpl.
    rewrite bool_decide_eq_true_2; [done|].
    unfold with_node. simpl. rewrite clone_if_absent_lookup.
    by rewrite bool_decide_eq_true_2.
Qed.

(** X10: [SetMaterial] with the name of an existing material is idempotent:
    a second call with the same name changes nothing. *)
Theorem SetMaterial_twice m s n nd orig :
  renderEngineEnabled (sys s) = true →
  m ≠ "" →
  Ogre.materials (ogre (sys s)) !! m = Some orig →
  sceneNode (this s) = Some n →
  Ogre.sceneNodes (ogre (sys s)) !! n = Some nd →
  (SetMaterial m;; SetMaterial m) s = SetMaterial m s.
Proof.
  intros Hen Hm Horig Hnode Hn.
  set (my := n +:+ "_MATERIAL_" +:+ m).
  pose proof (SetMaterial_exact m s n nd orig Hen Hm Horig Hnode Hn) as Hrun.
  fold my in Hrun.
  erewrite bind_step by apply Hrun. rewrite Hrun.
  set (nd1 := Ogre.setAttached
                (map (Ogre.setMaterialName my) (Ogre.attached nd)) nd).
  set (s1 := {| this := setMyMaterialName my (setOrigMaterialName m (this s));
                sys := clone_if_absent my orig (sys s) |}).
  destruct (clone_if_absent_frame my orig (sys s)) as (Hen1 & Hnodes1 & _).
  rewrite (SetMaterial_exact m (with_node n nd1 s1) n nd1 orig).
  - change (n +:+ "_MATERIAL_" +:+ m) with my. f_equal.
    assert (clone_if_absent my orig (sys (with_node n nd1 s1))
            = sys (with_node n nd1 s1)) as Hsame.
    { apply clone_if_absent_present. unfold with_node. simpl.
      rewrite clone_if_absent_lookup, bool_decide_eq_true_2 by done. done. }
    rewrite Hsame.
    assert (Ogre.setAttached
              (map (Ogre.setMaterialName my) (Ogre.attached nd1)) nd1 = nd1)
      as ->.
    { unfold nd1. simpl. unfold Ogre.setAttached. simpl. f_equal.
      rewrite <- list_fmap_compose. apply list_fmap_ext.
      intros i [? ? subs|]; simpl; [|done].
      intros _. f_equal. rewrite <- list_fmap_compose. by apply list_fmap_ext. }
    unfold with_node. simpl. by rewrite insert_insert_eq.
  - unfold with_node. simpl. by rewrite Hen1.
  - done.
  - unfold with_node. simpl.
    rewrite clone_if_absent_lookup, bool_decide_eq_false_2; [done|].
    intros Heq. by apply (clone_name_fresh n m).
  - done.
  - apply with_node_lookup.
Qed.

(** *** Transparency *)

Lemma fade_material_fade t1 t2 (mat : Ogre.Material) :
  map (map (fade t2)) (map (map (fade t1)) mat) = map (map (fade t2)) mat.
Proof.
  rewrite <- list_fmap_compose. apply list_fmap_ext. intros _ tech _. simpl.
  rewrite <- list_fmap_compose. by apply list_fmap_ext.
Qed.

Lemma fade_all_lookup t names ms k :
  fade_all t names ms !! k =
    if bool_decide (k ∈ names)
    then map (map (fade t)) <$> ms !! k
    else ms !! k.
Proof.
  revert ms. induction names as [|a names IH]; intros ms; simpl.
  - done.
  - rewrite IH.
    destruct (decide (k = a)) as [->|Hne].
    + rewrite lookup_alter_eq.
      rewrite (bool_decide_eq_true_2 (a ∈ a :: names)) by left.
      case_bool_decide; [|done].
      destruct (ms !! a) as [mat|]; simpl; [|done].
      by rewrite fade_material_fade.
    + rewrite lookup_alter_ne by done.
      apply (f_equal (λ b : bool, if b then _ else _)).
      apply bool_decide_ext. rewrite elem_of_cons.
      split; [by right|by intros [?|?]].
Qed.

Lemma fade_all_twice t1 t2 names ms :
  fade_all t2 names (fade_all t1 names ms) = fade_all t2 names ms.
Proof.
  apply map_eq. intros k. rewrite !fade_all_lookup.
  case_bool_decide; [|done].
  destruct (ms !! k) as [mat|]; simpl; [|done].
  by rewrite fade_material_fade.
Qed.

Lemma fade_all_app t l1 l2 ms :
  fade_all t (l1 ++ l2) ms = fade_all t l2 (fade_all t l1 ms).
Proof. unfold fade_all. by rewrite foldl_app. Qed.

(** The loop over the sub-entities of one entity. *)
Lemma fade_subEntities subs ms s :
  for_each
    (λ material,
       t ← gets (λ s, transparency (this s));
       modify_ogre
         (λ o, Ogre.setMaterials
                 (alter (map (map (fade t))) material (Ogre.materials o)) o))
    subs (with_materials ms s)
  = (Returned tt,
     with_materials (fade_all (transparency (this s)) subs ms) s).
Proof.
  revert ms. induction subs as [|a subs IH]; intros ms; [done|].
  simpl. erewrite bind_step; [apply IH|].
  by erewrite bind_step by reflexivity.
Qed.

(** The run of [SetTransparency], in full. *)
Lemma SetTransparency_exact t s n nd :
  renderEngineEnabled (sys s) = true →
  sceneNode (this s) = Some n →
  Ogre.sceneNodes (ogre (sys s)) !! n = Some nd →
  SetTransparency t s =
    (Returned tt,
     with_materials
       (fade_all (std_min (std_max t zero) one_f) (subEntityMaterials nd)
                 (Ogre.materials (ogre (sys s))))
       {| this := setTransparency (std_min (std_max t zero) one_f) (this s);
          sys := sys s |}).
Proof.
  intros Hen Hnode Hn. unfold SetTransparency. enter. rewrite Hen. simpl.
  erewrite bind_step by reflexivity.
  erewrite bind_step by reflexivity. simpl. rewrite Hnode.
  set (t' := std_min (std_max t zero) one_f).
  set (s1 := {| this := setTransparency t' (this s); sys := sys s |}).
  erewrite bind_step by by apply (numAttachedObjects_Some n nd).
  set (l := Ogre.attached nd).
  set (ms := Ogre.materials (ogre (sys s))).
  destruct (for_each_seq_inv
    (λ i s0, s0 = with_materials
                    (fade_all t' (concat (entityMaterials <$> take i l)) ms)
                    s1)
    (λ i, obj ← getAttachedObject (Some n) i;
          match obj with
          | Ogre.Entity _ _ subEntities =>
              for_each
                (λ material,
                   t ← gets (λ s, transparency (this s));
                   modify_ogre
                     (λ o, Ogre.setMaterials
                             (alter (map (map (fade t))) material
                                    (Ogre.materials o)) o))
                subEntities
          | Ogre.SimpleRenderable _ _ _ => ret tt
          end)
    0 (length l) s1) as (s' & Hrun & Hs').
  - intros i s0 [_ Hi] ->. simpl in Hi.
    destruct (lookup_lt_is_Some_2 l i Hi) as [obj Hobj].
    erewrite bind_step by by apply (getAttachedObject_Some n nd).
    erewrite take_S_r by done.
    rewrite fmap_app, concat_app, fade_all_app. simpl. rewrite app_nil_r.
    destruct obj as [? ? subs|]; simpl.
    + eexists. split; [apply fade_subEntities|done].
    + eexists. split; [reflexivity|done].
  - simpl. unfold with_materials, s1, ms. simpl.
    by destruct s as [v [e [ns r mats] msgs rt]].
  - rewrite Hrun, Hs'. simpl. by rewrite take_ge.
Qed.

(** X11: what [SetTransparency] does to the materials.  With the engine
    enabled, the materials of the sub-entities of the attached entities, and
    no other material, have every pass rewritten: its alpha is one minus
    the transparency the visual stored, and it writes the depth exactly when
    that transparency is not above zero.  The scene nodes and the messages
    stay. *)
Theorem SetTransparency_fades t s n nd :
  renderEngineEnabled (sys s) = true →
  sceneNode (this s) = Some n →
  Ogre.sceneNodes (ogre (sys s)) !! n = Some nd →
  (SetTransparency t s).1 = Returned tt
  ∧ (∀ k, Ogre.materials (ogre (sys (SetTransparency t s).2)) !! k =
       if bool_decide (k ∈ subEntityMaterials nd)
       then map (map (fade (GetTransparency (this (SetTransparency t s).2))))
              <$> Ogre.materials (ogre (sys s)) !! k
       else Ogre.materials (ogre (sys s)) !! k)
  ∧ (∀ k mat,
       k ∈ subEntityMaterials nd →
       Ogre.materials (ogre (sys (SetTransparency t s).2)) !! k = Some mat →
       Forall (Forall (λ pass,
         Ogre.a (Ogre.diffuse pass)
           = fsub one_f (GetTransparency (this (SetTransparency t s).2))
         ∧ Ogre.depthWriteEnabled pass
           = negb (SFltb zero
                     (GetTransparency (this (SetTransparency t s).2)))))
         mat)
  ∧ Ogre.sceneNodes (ogre (sys (SetTransparency t s).2))
    = Ogre.sceneNodes (ogre (sys s))
  ∧ messages (sys (SetTransparency t s).2) = messages (sys s).
Proof.
  intros Hen Hnode Hn. rewrite (SetTransparency_exact t s n nd) by done.
  simpl. split_and!; try done.
  - intros k. apply fade_all_lookup.
  - intros k mat Hk. rewrite fade_all_lookup, bool_decide_eq_true_2 by done.
    destruct (Ogre.materials (ogre (sys s)) !! k) as [mat0|]; [|done].
    intros [= <-]. apply Forall_fmap, Forall_true. intros tech.
    apply Forall_fmap, Forall_true. intros pass. simpl.
    unfold GetTransparency. simpl. by destruct (SFltb zero _).
Qed.

(** X12: of two calls of [SetTransparency] the last one wins: the first
    leaves no trace. *)
Theorem SetTransparency_twice t1 t2 s n nd :
  renderEngineEnabled (sys s) = true →
  sceneNode (this s) = Some n →
  Ogre.sceneNodes (ogre (sys s)) !! n = Some nd →
  (SetTransparency t1;; SetTransparency t2) s = SetTransparency t2 s.
Proof.
  intros Hen Hnode Hn.
  erewrite bind_step by by apply (SetTransparency_exact t1 s n nd).
  rewrite (SetTransparency_exact t2 _ n nd) by done.
  rewrite (SetTransparency_exact t2 s n nd) by done.
  unfold with_materials. simpl.
  rewrite (fade_all_twice _ (std_min (std_max t2 zero) one_f)). done.
Qed.

(** A visual that shows the clone of [m] already: [SetMaterial(m)] finds
    nothing to do. *)
Lemma SetMaterial_same m s n nd orig :
  renderEngineEnabled (sys s) = true →
  m ≠ "" →
  Ogre.materials (ogre (sys s)) !! m = Some orig →
  sceneNode (this s) = Some n →
  Ogre.sceneNodes (ogre (sys s)) !! n = Some nd →
  origMaterialName (this s) = m →
  myMaterialName (this s) = n +:+ "_MATERIAL_" +:+ m →
  is_Some (Ogre.materials (ogre (sys s)) !! (n +:+ "_MATERIAL_" +:+ m)) →
  map (Ogre.setMaterialName (n +:+ "_MATERIAL_" +:+ m)) (Ogre.attached nd)
    = Ogre.attached nd →
  SetMaterial m s = (Returned tt, s).
Proof.
  intros Hen Hm Horig Hnode Hn Ho Hmy Hclone Hatt.
  rewrite (SetMaterial_exact m s n nd orig) by done.
  rewrite Hatt, setAttached_same, clone_if_absent_present by done.
  f_equal. rewrite with_node_same by done.
  destruct s as [[] ?]. simpl in Ho, Hmy. by subst.
Qed.

Lemma setMaterialName_twice k (l : list Ogre.MovableObject) :
  map (Ogre.setMaterialName k) (map (Ogre.setMaterialName k) l)
  = map (Ogre.setMaterialName k) l.
Proof.
  rewrite <- list_fmap_compose. apply list_fmap_ext.
  intros _ [? ? subs|] _; simpl; [|done].
  f_equal. rewrite <- list_fmap_compose. by apply list_fmap_ext.
Qed.

(** After [SetMaterial], the sub-entities show the clone and nothing
    else. *)
Lemma subEntityMaterials_clone k nd j :
  j ∈ subEntityMaterials
        (Ogre.setAttached (map (Ogre.setMaterialName k) (Ogre.attached nd)) nd)
  → j = k.
Proof.
  unfold subEntityMaterials. simpl.
  induction (Ogre.attached nd) as [|obj l IH]; simpl.
  - by intros ?%elem_of_nil.
  - rewrite elem_of_app. intros [Hj|Hj]; [|by apply IH].
    destruct obj as [? ? subs|]; simpl in Hj.
    + by apply list_elem_of_fmap in Hj as (? & -> & _).
    + by apply elem_of_nil in Hj.
Qed.

(** X13: a visual that has been given a material fades its own clone only.
    After [SetMaterial(m)], [SetTransparency] rewrites the passes of the
    clone and leaves every other material as it is, the original [m]
    included; and a further [SetMaterial(m)] changes nothing: it does not
    bring the passes of the original back. *)
Theorem SetTransparency_fades_clone_only m t s n nd orig :
  renderEngineEnabled (sys s) = true →
  m ≠ "" →
  Ogre.materials (ogre (sys s)) !! m = Some orig →
  sceneNode (this s) = Some n →
  Ogre.sceneNodes (ogre (sys s)) !! n = Some nd →
  ∃ s',
    (SetMaterial m;; SetTransparency t) s = (Returned tt, s')
    ∧ Ogre.materials (ogre (sys s')) !! m = Some orig
    ∧ (∀ k, k ≠ n +:+ "_MATERIAL_" +:+ m →
         Ogre.materials (ogre (sys s')) !! k
         = Ogre.materials (ogre (sys s)) !! k)
    ∧ is_Some (Ogre.materials (ogre (sys s')) !! (n +:+ "_MATERIAL_" +:+ m))
    ∧ SetMaterial m s' = (Returned tt, s').
Proof.
  intros Hen Hm Horig Hnode Hn.
  set (my := n +:+ "_MATERIAL_" +:+ m).
  set (nd1 := Ogre.setAttached
                (map (Ogre.setMaterialName my) (Ogre.attached nd)) nd).
  set (s1 := with_node n nd1
               {| this := setMyMaterialName my
                            (setOrigMaterialName m (this s));
                  sys := clone_if_absent my orig (sys s) |}).
  destruct (clone_if_absent_frame my orig (sys s)) as (Hen1 & Hnodes1 & _).
  assert (renderEngineEnabled (sys s1) = true) as Hen1'.
  { unfold s1, with_node. simpl. by rewrite Hen1. }
  assert (Ogre.sceneNodes (ogre (sys s1)) !! n = Some nd1) as Hn1
    by apply with_node_lookup.
  assert (∀ k, Ogre.materials (ogre (sys s1)) !! k =
               if bool_decide (k = my)
               then Some (default orig (Ogre.materials (ogre (sys s)) !! my))
               else Ogre.materials (ogre (sys s)) !! k) as Hmats1.
  { intros k. unfold s1, with_node. simpl. apply clone_if_absent_lookup. }
  assert (∀ k, k ≠ my → k ∉ subEntityMaterials nd1) as Hnames.
  { intros k Hk Hin. by apply subEntityMaterials_clone in Hin. }
  assert (my ≠ m) as Hfresh by apply clone_name_fresh.
  eexists. split.
  { erewrite bind_step by by apply (SetMaterial_exact m s n nd orig).
    by apply (SetTransparency_exact t s1 n nd1). }
  simpl.
  assert (∀ k, k ≠ my →
    fade_all (std_min (std_max t zero) one_f) (subEntityMaterials nd1)
             (Ogre.materials (ogre (sys s1))) !! k
    = Ogre.materials (ogre (sys s)) !! k) as Hother.
  { intros k Hk. rewrite fade_all_lookup, bool_decide_eq_false_2 by auto.
    by rewrite Hmats1, bool_decide_eq_false_2. }
  assert (is_Some
    (fade_all (std_min (std_max t zero) one_f) (subEntityMaterials nd1)
              (Ogre.materials (ogre (sys s1))) !! my)) as Hclone.
  { rewrite fade_all_lookup, Hmats1.
    rewrite (bool_decide_eq_true_2 (my = my)) by done.
    case_bool_decide; simpl; eauto. }
  split_and!.
  - by rewrite Hother.
  - done.
  - done.
  - apply (SetMaterial_same m _ n nd1 orig); try done.
    + simpl. by rewrite Hother.
    + apply setMaterialName_twice.
Qed.

(** *** Shadows *)

(** The run of [SetCastShadows], in full. *)
Lemma SetCastShadows_exact b s n nd :
  renderEngineEnabled (sys s) = true →
  sceneNode (this s) = Some n →
  Ogre.sceneNodes (ogre (sys s)) !! n = Some nd →
  SetCastShadows b s =
    (Returned tt,
     with_node n
       (Ogre.setAttached (map (Ogre.setCastShadows b) (Ogre.attached nd)) nd)
       {| this := match isStatic (this s), staticGeom (this s) with
                  | true, Some _ =>
                      setStaticGeom (Some {| Ogre.sgCastShadows := b |})
                                    (this s)
                  | _, _ => this s
                  end;
          sys := sys s |}).
Proof.
  intros Hen Hnode Hn. unfold SetCastShadows. enter. rewrite Hen. simpl.
  erewrite bind_step by reflexivity. simpl. rewrite Hnode.
  erewrite bind_step by by apply numAttachedObjects_Some.
  erewrite bind_step.
  2:{ apply (rewrite_attached_loop n nd s _ (Ogre.setCastShadows b));
        [done|]. intros i obj nd' Hi.
      by apply (rewrite_attached_body n s i obj nd'
                  (λ obj, ret (Ogre.setCastShadows b obj))). }
  erewrite bind_step by reflexivity. unfold IsStatic. simpl.
  by destruct (isStatic (this s)), (staticGeom (this s)).
Qed.

Lemma setCastShadows_twice b1 b2 (l : list Ogre.MovableObject) :
  map (Ogre.setCastShadows b2) (map (Ogre.setCastShadows b1) l)
  = map (Ogre.setCastShadows b2) l.
Proof.
  rewrite <- list_fmap_compose. apply list_fmap_ext. by intros _ [] _.
Qed.

(** X14: of two calls of [SetCastShadows] the last one wins, and a call
    changes the shadow flags only: the objects keep their material
    names, the node its pose, the materials their passes. *)
Theorem SetCastShadows_twice b1 b2 s n nd :
  renderEngineEnabled (sys s) = true →
  sceneNode (this s) = Some n →
  Ogre.sceneNodes (ogre (sys s)) !! n = Some nd →
  (SetCastShadows b1;; SetCastShadows b2) s = SetCastShadows b2 s
  ∧ ∃ nd',
      Ogre.sceneNodes (ogre (sys (SetCastShadows b2 s).2)) !! n = Some nd'
      ∧ map Ogre.materialNames (Ogre.attached nd')
        = map Ogre.materialNames (Ogre.attached nd)
      ∧ Ogre.position nd' = Ogre.position nd
      ∧ Ogre.orientation nd' = Ogre.orientation nd
      ∧ Ogre.materials (ogre (sys (SetCastShadows b2 s).2))
        = Ogre.materials (ogre (sys s)).
Proof.
  intros Hen Hnode Hn. split.
  - erewrite bind_step by by apply (SetCastShadows_exact b1 s n nd).
    erewrite (SetCastShadows_exact b2 _ n).
    2:{ done. }
    2:{ simpl. by destruct (isStatic (this s)), (staticGeom (this s)). }
    2:{ apply with_node_lookup. }
    rewrite (SetCastShadows_exact b2 s n nd) by done.
    f_equal. unfold with_node, Ogre.setAttached. simpl.
    rewrite insert_insert_eq, setCastShadows_twice.
    by destruct (isStatic (this s)) eqn:Hst,
                (staticGeom (this s)) eqn:Hg; simpl; rewrite ?Hst, ?Hg.
  - rewrite (SetCastShadows_exact b2 s n nd) by done.
    eexists. split; [apply with_node_lookup|]. simpl.
    split_and!; try done.
    rewrite <- list_fmap_compose. apply list_fmap_ext. by intros _ [] _.
Qed.

(** *** Constructors that fail *)

(** X15: a constructor whose name the scene manager already has leaves with
    an [Ogre::Exception]: no scene node is created, the system is what it
    was, the scene node of the visual is still null and [Init] has not
    run. *)
Theorem constructors_refuse_used_name name world p pnd nd run :
  Ogre.sceneNodes (ogre world) !! p = Some pnd →
  Ogre.sceneNodes (ogre world) !! name = Some nd →
  (∃ parent, sceneNode parent = Some p
             ∧ run = Visual_from_Visual name (Some parent) world)
  ∨ run = Visual_from_SceneNode name p world
  ∨ (Ogre.rootSceneNode (ogre world) = p
     ∧ run = Visual_from_Scene name TheScene world) →
  run.1 = Thrown ("A scene node with the name " +:+ name +:+ " already exists")
  ∧ sys run.2 = world
  ∧ GetSceneNode (this run.2) = None
  ∧ parameters (this run.2) = None.
Proof.
  intros Hp Hname Hrun.
  assert (∀ parent s,
    this s = allocate name parent → sys s = world →
    createChildSceneNode (Some p) name s
    = (Thrown ("A scene node with the name " +:+ name +:+ " already exists"),
       s)) as Hcreate.
  { intros parent s Hthis Hsys. unfold createChildSceneNode.
    erewrite bind_step by (apply deref_Some; by rewrite Hsys).
    cbv beta iota.
    erewrite bind_step by reflexivity. simpl. by rewrite Hsys, Hname. }
  destruct Hrun as [(parent & Hnode & ->)|[->|[Hroot ->]]];
    unfold Visual_from_Visual, Visual_from_SceneNode, Visual_from_Scene,
           construct.
  - erewrite bind_step by reflexivity.
    erewrite bind_step by reflexivity. simpl.
    unfold GetSceneNode. rewrite Hnode.
    unfold mbind, M_bind, bind.
    by erewrite Hcreate by reflexivity.
  - erewrite bind_step by reflexivity. simpl.
    unfold mbind, M_bind, bind.
    by erewrite Hcreate by reflexivity.
  - erewrite bind_step by reflexivity.
    erewrite bind_step by reflexivity. simpl. rewrite Hroot.
    unfold mbind, M_bind, bind.
    by erewrite Hcreate by reflexivity.
Qed.

(** X16: the constructor from a parent visual crashes when the parent is
    null, after the message it logs; and every constructor crashes when
    the node it is to hang the visual under is not a node of the scene
    manager.  The scene is left as it was. *)
Theorem constructors_need_parent name world :
  Visual_from_Visual name None world
  = (Crashed,
     {| this := allocate name None;
        sys := addMessage ("Create a visual, invalid parent!!!" +:+ nl)
                          world |})
  ∧ (∀ p, Ogre.sceneNodes (ogre world) !! p = None →
       Visual_from_SceneNode name p world
       = (Crashed, {| this := allocate name None; sys := world |})
       ∧ (∀ parent, sceneNode parent = Some p →
            (Visual_from_Visual name (Some parent) world).1 = Crashed
            ∧ sys (Visual_from_Visual name (Some parent) world).2 = world)
       ∧ (Ogre.rootSceneNode (ogre world) = p →
          Visual_from_Scene name TheScene world
          = (Crashed, {| this := allocate name None; sys := world |}))).
Proof.
  split; [done|]. intros p Hp.
  assert (∀ s, sys s = world →
               createChildSceneNode (Some p) name s = (Crashed, s)) as Hcreate.
  { intros s Hsys. unfold createChildSceneNode, deref.
    unfold mbind at 1, M_bind at 1, bind at 1.
    erewrite bind_step by reflexivity. simpl. by rewrite Hsys, Hp. }
  unfold Visual_from_Visual, Visual_from_SceneNode, Visual_from_Scene,
         construct.
  split_and!.
  - erewrite bind_step by reflexivity. simpl.
    unfold mbind, M_bind, bind. by rewrite Hcreate.
  - intros parent Hnode.
    erewrite bind_step by reflexivity.
    erewrite bind_step by reflexivity. simpl.
    unfold GetSceneNode. rewrite Hnode.
    unfold mbind, M_bind, bind. by rewrite Hcreate.
  - intros Hroot.
    erewrite bind_step by reflexivity.
    erewrite bind_step by reflexivity. simpl. rewrite Hroot.
    unfold mbind, M_bind, bind. by rewrite Hcreate.
Qed.

(** *** Attached objects *)

Lemma ushort_small num : (N.of_nat num < 65536)%N → ushort num = num.
Proof.
  intros Hlt. unfold ushort, to_ushort.
  by rewrite N.mod_small, Nat2N.id.
Qed.

Lemma ushort_wrap num : ushort (N.to_nat 65536 + num) = ushort num.
Proof.
  unfold ushort, to_ushort.
  rewrite Nat2N.inj_add, N2Nat.id.
  replace (65536 + N.of_nat num)%N with (N.of_nat num + 1 * 65536)%N by lia.
  by rewrite N.Div0.mod_add.
Qed.

Lemma GetAttached_run num s n nd :
  renderEngineEnabled (sys s) = true →
  sceneNode (this s) = Some n →
  Ogre.sceneNodes (ogre (sys s)) !! n = Some nd →
  GetAttached num s =
    (match Ogre.attached nd !! ushort num with
     | Some obj => Returned (Some obj)
     | None => Thrown "Object index out of bounds."
     end, s).
Proof.
  intros Hen Hnode Hn. unfold GetAttached. enter. rewrite Hen. simpl.
  erewrite bind_step by reflexivity. simpl. rewrite Hnode.
  unfold getAttachedObject, mbind at 1, M_bind at 1, bind at 1.
  erewrite bind_step by by apply deref_Some. cbv beta iota.
  by destruct (Ogre.attached nd !! ushort num).
Qed.

Lemma GetNumAttached_run s n nd :
  renderEngineEnabled (sys s) = true →
  sceneNode (this s) = Some n →
  Ogre.sceneNodes (ogre (sys s)) !! n = Some nd →
  GetNumAttached s = (Returned (length (Ogre.attached nd)), s).
Proof.
  intros Hen Hnode Hn. unfold GetNumAttached. enter. rewrite Hen. simpl.
  erewrite bind_step by reflexivity. simpl. rewrite Hnode.
  by apply numAttachedObjects_Some.
Qed.

Lemma AttachObject_run obj s n nd :
  renderEngineEnabled (sys s) = true →
  sceneNode (this s) = Some n →
  Ogre.sceneNodes (ogre (sys s)) !! n = Some nd →
  AttachObject obj s =
    (Returned tt,
     with_node n (Ogre.setAttached (Ogre.attached nd ++ [obj]) nd) s).
Proof.
  intros Hen Hnode Hn. unfold AttachObject. enter. rewrite Hen. simpl.
  erewrite bind_step by reflexivity. simpl. rewrite Hnode.
  unfold attachObject. by rewrite (update_Some n nd).
Qed.

Lemma DetachObjects_run s n nd :
  renderEngineEnabled (sys s) = true →
  sceneNode (this s) = Some n →
  Ogre.sceneNodes (ogre (sys s)) !! n = Some nd →
  DetachObjects s = (Returned tt, with_node n (Ogre.setAttached [] nd) s).
Proof.
  intros Hen Hnode Hn. unfold DetachObjects. enter. rewrite Hen. simpl.
  erewrite bind_step by reflexivity. simpl. rewrite Hnode.
  unfold detachAllObjects. by rewrite (update_Some n nd).
Qed.

(** X17: the parameter of [GetAttached] is an [unsigned short].  With the
    engine enabled, [GetAttached(num)] answers the object the scene node
    has at the index [num] modulo 65536, and throws an [Ogre::Exception]
    when the node has no object there: it never answers [NULL].  So a
    number below 65536 is its own index, and two numbers 65536 apart get
    the same answer. *)
Theorem GetAttached_wraps_index s n nd :
  renderEngineEnabled (sys s) = true →
  sceneNode (this s) = Some n →
  Ogre.sceneNodes (ogre (sys s)) !! n = Some nd →
  (∀ num,
     GetAttached num s =
       (match Ogre.attached nd !! ushort num with
        | Some obj => Returned (Some obj)
        | None => Thrown "Object index out of bounds."
        end, s))
  ∧ (∀ num, (GetAttached num s).1 ≠ Returned None)
  ∧ (∀ num, (N.of_nat num < 65536)%N →
       GetAttached num s =
         (match Ogre.attached nd !! num with
          | Some obj => Returned (Some obj)
          | None => Thrown "Object index out of bounds."
          end, s))
  ∧ (∀ num, GetAttached (N.to_nat 65536 + num) s = GetAttached num s).
Proof.
  intros Hen Hnode Hn. split_and!.
  - intros num. by apply (GetAttached_run num s n nd).
  - intros num. rewrite (GetAttached_run num s n nd) by done.
    by destruct (Ogre.attached nd !! ushort num).
  - intros num Hnum. rewrite (GetAttached_run num s n nd) by done.
    by rewrite ushort_small.
  - intros num.
    rewrite (GetAttached_run (N.to_nat 65536 + num) s n nd) by done.
    rewrite (GetAttached_run num s n nd) by done.
    by rewrite ushort_wrap.
Qed.

(** *** The material of the bounding box *)

(** X18: [SetBoundingBoxMaterial] lets no exception escape, whatever the
    state; but on a visual that has no bounding box node, as after the
    constructor, it crashes once the engine is enabled and the name is not
    empty. *)
Theorem SetBoundingBoxMaterial_errors m s :
  (∀ e, (SetBoundingBoxMaterial m s).1 ≠ Thrown e)
  ∧ (renderEngineEnabled (sys s) = true →
     m ≠ "" →
     boundingBoxNode (this s) = None →
     SetBoundingBoxMaterial m s = (Crashed, s)).
Proof.
  split.
  - intros e. unfold SetBoundingBoxMaterial. enter.
    destruct (renderEngineEnabled (sys s)); simpl; [|done].
    case_bool_decide; [done|].
    erewrite bind_step by reflexivity. unfold try_catch.
    match goal with |- context [match ?c ?s with _ => _ end] =>
      destruct (c s) as [[[]| |] ?] end; done.
  - intros Hen Hm Hbb. unfold SetBoundingBoxMaterial. enter.
    rewrite Hen. simpl. rewrite bool_decide_eq_false_2 by done.
    erewrite bind_step by reflexivity. simpl. by rewrite Hbb.
Qed.

(** X19: on a visual with a bounding box node, with the engine enabled and
    the name of an existing material, [SetBoundingBoxMaterial] gives every
    object of the bounding box node that name itself: no clone is made,
    and the visual, its material name included, is what it was. *)
Theorem SetBoundingBoxMaterial_sets m s bb bnd mat :
  renderEngineEnabled (sys s) = true →
  m ≠ "" →
  Ogre.materials (ogre (sys s)) !! m = Some mat →
  boundingBoxNode (this s) = Some bb →
  Ogre.sceneNodes (ogre (sys s)) !! bb = Some bnd →
  SetBoundingBoxMaterial m s =
    (Returned tt,
     with_node bb
       (Ogre.setAttached (map (Ogre.setMaterialName m) (Ogre.attached bnd))
                         bnd) s)
  ∧ this (SetBoundingBoxMaterial m s).2 = this s
  ∧ Ogre.materials (ogre (sys (SetBoundingBoxMaterial m s).2))
    = Ogre.materials (ogre (sys s))
  ∧ (∀ k, k ≠ bb →
       Ogre.sceneNodes (ogre (sys (SetBoundingBoxMaterial m s).2)) !! k
       = Ogre.sceneNodes (ogre (sys s)) !! k).
Proof.
  intros Hen Hm Hmat Hbb Hbnd.
  assert (SetBoundingBoxMaterial m s =
    (Returned tt,
     with_node bb
       (Ogre.setAttached (map (Ogre.setMaterialName m) (Ogre.attached bnd))
                         bnd) s)) as ->.
  { unfold SetBoundingBoxMaterial. enter. rewrite Hen. simpl.
    rewrite bool_decide_eq_false_2 by done.
    erewrite bind_step by reflexivity. simpl. rewrite Hbb.
    apply try_catch_returned.
    erewrite bind_step by by apply (numAttachedObjects_Some bb bnd).
    apply (rewrite_attached_loop bb bnd s _ (Ogre.setMaterialName m)); [done|].
    intros i obj nd' Hi.
    apply (rewrite_attached_body bb s i obj nd'
             (λ obj, if Ogre.isEntity obj
                     then Entity_setMaterialName m obj
                     else SimpleRenderable_setMaterial m obj)); [|done].
    destruct (Ogre.isEntity obj); [done|].
    unfold SimpleRenderable_setMaterial, resourceExists.
    erewrite bind_step by reflexivity. simpl.
    rewrite bool_decide_eq_true_2; [done|].
    unfold with_node. simpl. by rewrite Hmat. }
  split_and!; try done.
  intros k Hk. unfold with_node. simpl. by rewrite lookup_insert_ne.
Qed.

(** *** Attaching and detaching visuals *)

Lemma with_node_lookup_ne n nd s k :
  k ≠ n →
  Ogre.sceneNodes (ogre (sys (with_node n nd s))) !! k
  = Ogre.sceneNodes (ogre (sys s)) !! k.
Proof. intros Hk. unfold with_node. simpl. by apply lookup_insert_ne. Qed.

Lemma removeChild_run p pnd c cnd s :
  Ogre.sceneNodes (ogre (sys s)) !! p = Some pnd →
  Ogre.sceneNodes (ogre (sys s)) !! c = Some cnd →
  c ∈ Ogre.children pnd →
  c ≠ p →
  removeChild (Some p) (Some c) s =
    (Returned tt,
     with_node c (node_setParent None cnd)
       (with_node p (node_dropChild c pnd) s)).
Proof.
  intros Hp Hc Hin Hne. unfold removeChild.
  erewrite bind_step by by apply deref_Some. cbv beta iota.
  erewrite bind_step by by apply deref_Some. cbv beta iota.
  rewrite bool_decide_eq_true_2 by done.
  erewrite bind_step by reflexivity.
  erewrite bind_step
    by (apply deref_Some; by rewrite with_node_lookup_ne).
  done.
Qed.

Lemma removeChild_other p pnd c cnd s :
  Ogre.sceneNodes (ogre (sys s)) !! p = Some pnd →
  Ogre.sceneNodes (ogre (sys s)) !! c = Some cnd →
  c ∉ Ogre.children pnd →
  removeChild (Some p) (Some c) s = (Returned tt, s).
Proof.
  intros Hp Hc Hin. unfold removeChild.
  erewrite bind_step by by apply deref_Some. cbv beta iota.
  erewrite bind_step by by apply deref_Some. cbv beta iota.
  by rewrite bool_decide_eq_false_2.
Qed.

Lemma addChild_run p pnd c cnd s :
  Ogre.sceneNodes (ogre (sys s)) !! p = Some pnd →
  Ogre.sceneNodes (ogre (sys s)) !! c = Some cnd →
  Ogre.parent cnd = None →
  c ≠ p →
  addChild (Some p) (Some c) s =
    (Returned tt,
     with_node c (node_setParent (Some p) cnd)
       (with_node p (Ogre.addChild c pnd) s)).
Proof.
  intros Hp Hc Hpar Hne. unfold addChild.
  erewrite bind_step by by apply deref_Some. cbv beta iota. rewrite Hpar.
  erewrite bind_step by by apply deref_Some. cbv beta iota.
  erewrite bind_step by reflexivity.
  erewrite bind_step
    by (apply deref_Some; by rewrite with_node_lookup_ne).
  done.
Qed.

Lemma node_dropChild_not_elem c nd : c ∉ Ogre.children (node_dropChild c nd).
Proof. simpl. rewrite list_elem_of_filter. by intros [? _]. Qed.

(** X20: [AttachVisual] moves the scene node of [vis] from the node it
    hangs under to the scene node of [this]: the old parent loses the
    child, [this] gains it as its last child, the node of [vis] names the
    new parent and is otherwise what it was, [vis] has [this] for parent,
    and no other node changes. *)
Theorem AttachVisual_moves vis s n nd c cnd q qnd :
  sceneNode (this s) = Some n →
  Ogre.sceneNodes (ogre (sys s)) !! n = Some nd →
  sceneNode vis = Some c →
  Ogre.sceneNodes (ogre (sys s)) !! c = Some cnd →
  Ogre.parent cnd = Some q →
  Ogre.sceneNodes (ogre (sys s)) !! q = Some qnd →
  c ∈ Ogre.children qnd →
  c ≠ q → c ≠ n → q ≠ n →
  (AttachVisual vis s).1
    = Returned (SetParent (Some (name (this s))) vis)
  ∧ this (AttachVisual vis s).2 = this s
  ∧ Ogre.sceneNodes (ogre (sys (AttachVisual vis s).2)) !! c
    = Some (node_setParent (Some n) cnd)
  ∧ Ogre.sceneNodes (ogre (sys (AttachVisual vis s).2)) !! n
    = Some (Ogre.addChild c nd)
  ∧ Ogre.sceneNodes (ogre (sys (AttachVisual vis s).2)) !! q
    = Some (node_dropChild c qnd)
  ∧ (c ∉ Ogre.children (node_dropChild c qnd))
  ∧ (∀ k, k ≠ c → k ≠ n → k ≠ q →
       Ogre.sceneNodes (ogre (sys (AttachVisual vis s).2)) !! k
       = Ogre.sceneNodes (ogre (sys s)) !! k).
Proof.
  intros Hnode Hn Hvis Hc Hpar Hq Hin Hcq Hcn Hqn.
  set (s1 := with_node c (node_setParent None cnd)
               (with_node q (node_dropChild c qnd) s)).
  assert (AttachVisual vis s =
    (Returned (SetParent (Some (name (this s))) vis),
     with_node c (node_setParent (Some n) (node_setParent None cnd))
       (with_node n (Ogre.addChild c nd) s1))) as ->.
  { unfold AttachVisual, GetSceneNode. rewrite Hvis.
    erewrite (bind_step _ _ _ (Some q) s).
    2:{ unfold getParentSceneNode.
        erewrite bind_step by by apply deref_Some. cbv beta iota.
        by rewrite Hpar. }
    erewrite bind_step by by apply (removeChild_run q qnd c cnd).
    erewrite bind_step by reflexivity. simpl. rewrite Hnode.
    erewrite bind_step.
    2:{ apply (addChild_run n nd c (node_setParent None cnd)); [|..|done].
        - unfold s1. by rewrite !with_node_lookup_ne.
        - apply with_node_lookup.
        - done. }
    by erewrite bind_step by reflexivity. }
  cbn [fst snd]. split_and!; try done.
  - by rewrite with_node_lookup.
  - rewrite with_node_lookup_ne by done. apply with_node_lookup.
  - rewrite !with_node_lookup_ne by done. unfold s1.
    rewrite with_node_lookup_ne by done. apply with_node_lookup.
  - apply node_dropChild_not_elem.
  - intros k Hkc Hkn Hkq. unfold s1. by rewrite !with_node_lookup_ne.
Qed.

(** Destroying a subtree only takes nodes away. *)
Lemma destroySubtree_subseteq fuel k nodes :
  destroySubtree fuel k nodes ⊆ nodes.
Proof.
  revert k nodes. induction fuel as [|fuel IH]; intros k nodes; [done|].
  simpl. destruct (nodes !! k) as [nd|]; [|done].
  etrans; [apply delete_subseteq|].
  induction (Ogre.children nd) as [|a l IHl]; simpl; [done|].
  etrans; [apply IH|done].
Qed.

Lemma destroy_children_subseteq fuel l (nodes : gmap string Ogre.SceneNode) :
  foldr (destroySubtree fuel) nodes l ⊆ nodes.
Proof.
  induction l as [|a l IH]; simpl; [done|].
  etrans; [apply destroySubtree_subseteq|done].
Qed.

(** [removeAndDestroyAllChildren] on a node: the node is left without
    children, unless it was below itself and is gone. *)
Lemma removeAndDestroyAllChildren_run c cnd s :
  Ogre.sceneNodes (ogre (sys s)) !! c = Some cnd →
  (removeAndDestroyAllChildren (Some c) s).1 = Crashed
  ∨ ∃ s',
      removeAndDestroyAllChildren (Some c) s = (Returned tt, s')
      ∧ this s' = this s
      ∧ Ogre.sceneNodes (ogre (sys s')) !! c
        = Some (node_setChildren [] cnd).
Proof.
  intros Hc. unfold removeAndDestroyAllChildren.
  erewrite bind_step by by apply deref_Some. cbv beta iota.
  erewrite bind_step by reflexivity.
  match goal with |- context [update (Some c) ?f ?st] => set (s2 := st) end.
  destruct (Ogre.sceneNodes (ogre (sys s2)) !! c) as [x|] eqn:Hx.
  - right. assert (x = cnd) as ->.
    { pose proof (destroy_children_subseteq
        (size (Ogre.sceneNodes (ogre (sys s))))
        (Ogre.children cnd) (Ogre.sceneNodes (ogre (sys s)))) as Hsub.
      eapply lookup_weaken in Hsub; [|exact Hx]. congruence. }
    eexists. split; [by apply update_Some|].
    split; [done|apply with_node_lookup].
  - left. unfold update, deref.
    unfold mbind at 1, M_bind at 1, bind at 1.
    erewrite bind_step by reflexivity. cbv beta. by rewrite Hx.
Qed.

(** The destructor of a visual whose scene node has no parent calls
    [removeAndDestroyChild] on the null pointer. *)
Lemma Visual_destroy_orphan s c cnd :
  sceneNode (this s) = Some c →
  Ogre.sceneNodes (ogre (sys s)) !! c = Some cnd →
  Ogre.parent cnd = None →
  (Visual_destroy s).1 = Crashed.
Proof.
  intros Hnode Hc Hpar. unfold Visual_destroy.
  erewrite bind_step by reflexivity.
  erewrite bind_step by reflexivity.
  erewrite bind_step by reflexivity. simpl. rewrite Hnode.
  match goal with |- context [(_ ≫= _) ?st] => set (s1 := st) end.
  destruct (removeAndDestroyAllChildren_run c cnd s1 Hc)
    as [Hcrash|(s2 & Hrun & _ & Hc2)].
  - unfold mbind at 1, M_bind at 1, bind at 1.
    by destruct (removeAndDestroyAllChildren (Some c) s1) as [[] ?].
  - erewrite bind_step by apply Hrun.
    unfold detachAllObjects.
    erewrite bind_step by by apply update_Some.
    erewrite (bind_step _ _ _ None).
    2:{ unfold getParentSceneNode.
        erewrite bind_step by (apply deref_Some; apply with_node_lookup).
        cbv beta iota. simpl. by rewrite Hpar. }
    erewrite bind_step.
    2:{ unfold getName.
        by erewrite bind_step
          by (apply deref_Some; apply with_node_lookup). }
    done.
Qed.

(** X21: [DetachVisual] takes the scene node of a child visual out of the
    children of the scene node of [this] and leaves it without parent.
    From then on the child can neither be attached again nor destroyed:
    [AttachVisual] and the destructor both call a method on the null
    parent. *)
Theorem DetachVisual_orphans vis s n nd c cnd :
  sceneNode (this s) = Some n →
  Ogre.sceneNodes (ogre (sys s)) !! n = Some nd →
  sceneNode vis = Some c →
  Ogre.sceneNodes (ogre (sys s)) !! c = Some cnd →
  c ∈ Ogre.children nd →
  c ≠ n →
  ∃ s',
    DetachVisual vis s = (Returned (SetParent None vis), s')
    ∧ this s' = this s
    ∧ Ogre.sceneNodes (ogre (sys s')) !! c
      = Some (node_setParent None cnd)
    ∧ Ogre.sceneNodes (ogre (sys s')) !! n = Some (node_dropChild c nd)
    ∧ (∀ k, k ≠ c → k ≠ n →
         Ogre.sceneNodes (ogre (sys s')) !! k
         = Ogre.sceneNodes (ogre (sys s)) !! k)
    ∧ (AttachVisual (SetParent None vis) s').1 = Crashed
    ∧ (Visual_destroy {| this := SetParent None vis; sys := sys s' |}).1
      = Crashed.
Proof.
  intros Hnode Hn Hvis Hc Hin Hcn.
  set (s' := with_node c (node_setParent None cnd)
               (with_node n (node_dropChild c nd) s)).
  assert (Ogre.sceneNodes (ogre (sys s')) !! c
          = Some (node_setParent None cnd)) as Hc' by apply with_node_lookup.
  exists s'. split_and!; try done.
  - unfold DetachVisual, GetSceneNode. rewrite Hvis.
    erewrite bind_step by reflexivity. simpl. rewrite Hnode.
    by erewrite bind_step by by apply (removeChild_run n nd c cnd).
  - unfold s'. rewrite with_node_lookup_ne by done. apply with_node_lookup.
  - intros k Hkc Hkn. unfold s'. by rewrite !with_node_lookup_ne.
  - unfold AttachVisual, GetSceneNode. simpl. rewrite Hvis.
    erewrite (bind_step _ _ _ None s').
    2:{ unfold getParentSceneNode.
        by erewrite bind_step by by apply deref_Some. }
    done.
  - by apply (Visual_destroy_orphan _ c (node_setParent None cnd)).
Qed.

(** *** The destructor *)

#[local] Arguments with_nodes : simpl never.

Lemma destroy_leaves fuel l (X : gmap string Ogre.SceneNode) :
  Forall (leaf X) l →
  foldr (destroySubtree (S fuel)) X l = foldr delete X l.
Proof.
  induction l as [|a l IH]; intros Hl; [done|].
  apply Forall_cons in Hl as [(knd & Ha & Hleaf) Hl].
  cbn [foldr]. rewrite IH by done. simpl.
  destruct (foldr delete X l !! a) as [x|] eqn:Hx.
  - assert (x = knd) as ->.
    { assert (foldr delete X l ⊆ X) as Hsub.
      { clear. induction l as [|b l IH]; simpl; [done|].
        etrans; [apply delete_subseteq|done]. }
      eapply lookup_weaken in Hsub; [|exact Hx]. congruence. }
    by rewrite Hleaf.
  - by rewrite delete_id.
Qed.

Lemma lookup_foldr_delete (X : gmap string Ogre.SceneNode) l k :
  foldr delete X l !! k = if bool_decide (k ∈ l) then None else X !! k.
Proof.
  induction l as [|a l IH]; simpl; [done|].
  destruct (decide (k = a)) as [->|Hne].
  - rewrite lookup_delete_eq. by rewrite bool_decide_eq_true_2 by left.
  - rewrite lookup_delete_ne, IH by done.
    apply (f_equal (λ b : bool, if b then _ else _)).
    apply bool_decide_ext. rewrite elem_of_cons.
    split; [by right|by intros [?|?]].
Qed.

Lemma removeAndDestroyAllChildren_leaves n nd X s :
  X !! n = Some nd →
  n ∉ Ogre.children nd →
  Forall (leaf X) (Ogre.children nd) →
  removeAndDestroyAllChildren (Some n) (with_nodes X s)
  = (Returned tt,
     with_nodes (<[n := node_setChildren [] nd]>
                   (foldr delete X (Ogre.children nd))) s).
Proof.
  intros Hn Hnin Hl. unfold removeAndDestroyAllChildren.
  erewrite bind_step by by apply deref_Some. cbv beta iota.
  erewrite bind_step by reflexivity.
  assert (∃ f, size X = S f) as [f Hf].
  { destruct (size X) eqn:Hsz; [|by eexists].
    apply map_size_empty_inv in Hsz. subst X. by rewrite lookup_empty in Hn. }
  match goal with |- update _ _ ?st = _ =>
    change st with
      (with_nodes (foldr (destroySubtree (size X)) X (Ogre.children nd)) s)
  end.
  rewrite Hf, destroy_leaves by done.
  rewrite (update_Some n nd); [done|].
  change (foldr delete X (Ogre.children nd) !! n = Some nd).
  by rewrite lookup_foldr_delete, bool_decide_eq_false_2.
Qed.

(** The run of the destructor of a visual whose child nodes have no
    children themselves. *)
Lemma Visual_destroy_run s n nd p pnd :
  sceneNode (this s) = Some n →
  Ogre.sceneNodes (ogre (sys s)) !! n = Some nd →
  Ogre.parent nd = Some p →
  Ogre.sceneNodes (ogre (sys s)) !! p = Some pnd →
  n ∈ Ogre.children pnd →
  n ≠ p →
  n ∉ Ogre.children nd →
  p ∉ Ogre.children nd →
  Forall (leaf (Ogre.sceneNodes (ogre (sys s)))) (Ogre.children nd) →
  Visual_destroy s =
    (Returned tt,
     with_nodes
       (delete n
          (<[p := node_dropChild n pnd]>
             (foldr delete (Ogre.sceneNodes (ogre (sys s)))
                    (Ogre.children nd))))
       {| this := setSceneNode None (this s);
          sys := removeRTShaderEntity (name (this s)) (sys s) |}).
Proof.
  intros Hnode Hn Hpar Hp Hin Hnp Hnn Hpn Hl.
  set (X := Ogre.sceneNodes (ogre (sys s))) in *.
  set (X1 := foldr delete X (Ogre.children nd)).
  unfold Visual_destroy.
  erewrite bind_step by reflexivity.
  erewrite bind_step by reflexivity.
  erewrite bind_step by reflexivity. simpl. rewrite Hnode.
  set (s1 := {| this := this s;
                sys := removeRTShaderEntity (name (this s)) (sys s) |}).
  assert (s1 = with_nodes X s1) as Hs1.
  { unfold with_nodes, s1, X. simpl.
    by destruct s as [v [e [ns r mats] msgs rt]]. }
  rewrite Hs1 at 1.
  erewrite bind_step by by apply (removeAndDestroyAllChildren_leaves n nd).
  fold X1. set (X2 := <[n := node_setChildren [] nd]> X1).
  unfold detachAllObjects.
  erewrite bind_step.
  2:{ apply (update_Some n (node_setChildren [] nd)).
      apply lookup_insert_eq. }
  set (nd3 := Ogre.setAttached [] (node_setChildren [] nd)).
  change (with_node n nd3 (with_nodes X2 s1))
    with (with_nodes (<[n := nd3]> X2) s1).
  set (X3 := <[n := nd3]> X2).
  erewrite (bind_step _ _ _ (Some p)).
  2:{ unfold getParentSceneNode.
      erewrite bind_step by (apply deref_Some; apply lookup_insert_eq).
      cbv beta iota. simpl. by rewrite Hpar. }
  erewrite bind_step.
  2:{ unfold getName.
      by erewrite bind_step by (apply deref_Some; apply lookup_insert_eq). }
  assert (X3 !! p = Some pnd) as Hp3.
  { unfold X3, X2. rewrite !lookup_insert_ne by done.
    unfold X1. by rewrite lookup_foldr_delete, bool_decide_eq_false_2. }
  unfold removeAndDestroyChild.
  erewrite bind_step.
  2:{ erewrite bind_step by by apply deref_Some. cbv beta iota.
      rewrite bool_decide_eq_true_2 by done.
      erewrite bind_step.
      2:{ apply (removeAndDestroyAllChildren_leaves n nd3);
            [apply lookup_insert_eq|by intros ?%elem_of_nil|done]. }
      simpl foldr.
      set (X4 := <[n := node_setChildren [] nd3]> X3).
      erewrite bind_step.
      2:{ apply (removeChild_run p pnd n (node_setChildren [] nd3));
            [|apply lookup_insert_eq|done|done].
          change (X4 !! p = Some pnd). unfold X4.
          by rewrite lookup_insert_ne. }
      reflexivity. }
  unfold modify_this, setNodes, modify_ogre, modify_sys, with_nodes, with_node.
  simpl.
  assert (delete n
            (<[n := node_setParent None (node_setChildren [] nd3)]>
               (<[p := node_dropChild n pnd]>
                  (<[n := node_setChildren [] nd3]> X3)))
          = delete n (<[p := node_dropChild n pnd]> X1)) as ->; [|done].
  apply map_eq. intros k.
  destruct (decide (k = n)) as [->|Hkn].
  - by rewrite !lookup_delete_eq.
  - rewrite !lookup_delete_ne by done.
    rewrite (lookup_insert_ne _ n k) by done.
    destruct (decide (k = p)) as [->|Hkp].
    + by rewrite !lookup_insert_eq.
    + rewrite !(lookup_insert_ne _ p k) by done.
      unfold X3, X2. by rewrite !(lookup_insert_ne _ n k) by done.
Qed.

(** The three constructors run the same body once the parent node is
    known. *)
Lemma constructors_body name world p run :
  (∃ parent, sceneNode parent = Some p
             ∧ run = Visual_from_Visual name (Some parent) world)
  ∨ run = Visual_from_SceneNode name p world
  ∨ (Ogre.rootSceneNode (ogre world) = p
     ∧ run = Visual_from_Scene name TheScene world) →
  ∃ parent,
    run = construct name parent
            (nm ← gets (λ s, Rendering.name (this s));
             node ← createChildSceneNode (Some p) nm;
             modify_this (setSceneNode node);;
             Init) world.
Proof.
  intros [(parent & Hnode & ->)|[->|[<- ->]]].
  - exists (Some (Rendering.name parent)).
    unfold Visual_from_Visual, construct, GetSceneNode.
    erewrite bind_step by reflexivity. by rewrite Hnode.
  - by exists None.
  - exists None. unfold Visual_from_Scene, construct.
    by erewrite bind_step by reflexivity.
Qed.

(** The visual and the system a constructor leaves. *)
Lemma construct_exact name parent p pnd world :
  Ogre.sceneNodes (ogre world) !! p = Some pnd →
  Ogre.sceneNodes (ogre world) !! name = None →
  ∃ v,
    construct name parent
      (nm ← gets (λ s, Rendering.name (this s));
       node ← createChildSceneNode (Some p) nm;
       modify_this (setSceneNode node);;
       Init) world
    = (Returned tt,
       {| this := v;
          sys := addRTShaderEntity name
                   (setOgre
                      (Ogre.setSceneNodes
                         (<[name := Ogre.newSceneNode p]>
                            (<[p := Ogre.addChild name pnd]>
                               (Ogre.sceneNodes (ogre world))))
                         (ogre world))
                      world) |})
    ∧ Rendering.name v = name
    ∧ sceneNode v = Some name
    ∧ is_Some (parameters v)
    ∧ isStatic v = false
    ∧ transparency v = zero
    ∧ boundingBoxNode v = None.
Proof.
  intros Hp Hname. unfold construct.
  erewrite bind_step by reflexivity. simpl.
  erewrite bind_step by by apply (createChildSceneNode_fresh p pnd).
  erewrite bind_step by reflexivity.
  unfold Init.
  erewrite bind_step by reflexivity.
  erewrite bind_step by reflexivity.
  eexists. split; [reflexivity|]. simpl. by split_and!.
Qed.

Lemma filter_ne_snoc (l : list string) k :
  k ∉ l → filter (λ j, j ≠ k) (l ++ [k]) = l.
Proof.
  intros Hk. rewrite filter_app.
  rewrite (filter_cons_False _ k []) by (by intros ?).
  rewrite filter_nil, app_nil_r.
  induction l as [|a l IH]; [done|].
  apply not_elem_of_cons in Hk as [Hka Hk].
  rewrite filter_cons_True by done. by rewrite IH.
Qed.

(** X22: a visual that is destroyed right after its construction leaves
    the system as it was before the construction: the scene node is gone,
    the parent node has its former children, the visual is off the list of
    the shader system.  (The name is one the scene manager, the parent and
    the shader system did not have.) *)
Theorem destroy_after_construct name world p pnd run :
  Ogre.sceneNodes (ogre world) !! p = Some pnd →
  Ogre.sceneNodes (ogre world) !! name = None →
  name ∉ Ogre.children pnd →
  name ∉ rtShaderEntities world →
  (∃ parent, sceneNode parent = Some p
             ∧ run = Visual_from_Visual name (Some parent) world)
  ∨ run = Visual_from_SceneNode name p world
  ∨ (Ogre.rootSceneNode (ogre world) = p
     ∧ run = Visual_from_Scene name TheScene world) →
  run.1 = Returned tt
  ∧ (Visual_destroy run.2).1 = Returned tt
  ∧ sys (Visual_destroy run.2).2 = world
  ∧ GetSceneNode (this (Visual_destroy run.2).2) = None.
Proof.
  intros Hp Hname Hchild Hrt Hrun.
  destruct (constructors_body name world p run Hrun) as [parent ->].
  destruct (construct_exact name parent p pnd world Hp Hname)
    as (v & -> & Hv & Hnode & _).
  assert (name ≠ p) as Hne by (intros ->; congruence).
  cbn [fst snd].
  erewrite (Visual_destroy_run _ name (Ogre.newSceneNode p) p
              (Ogre.addChild name pnd)); simpl; try done.
  - split_and!; try done. rewrite Hv.
    destruct world as [e [ns r mats] msgs rt]. simpl in *.
    unfold removeRTShaderEntity, setOgre, Ogre.setSceneNodes. simpl.
    rewrite filter_ne_snoc by done. f_equal. f_equal.
    apply map_eq. intros k.
    destruct (decide (k = name)) as [->|Hk]; [by rewrite lookup_delete_eq|].
    rewrite lookup_delete_ne by done.
    destruct (decide (k = p)) as [->|Hkp].
    + rewrite lookup_insert_eq, Hp. f_equal.
      unfold node_dropChild, node_setChildren. simpl.
      rewrite filter_ne_snoc by done. by destruct pnd.
    + by rewrite !lookup_insert_ne.
  - apply lookup_insert_eq.
  - rewrite lookup_insert_ne by done. apply lookup_insert_eq.
  - rewrite elem_of_app. right. by left.
  - apply not_elem_of_nil.
  - apply not_elem_of_nil.
Qed.

(** X23: on a visual whose child nodes have no children of their own, the
    destructor destroys the scene nodes of the children with the scene
    node of the visual: afterwards the scene manager has neither, the
    parent node has lost the child, and the other nodes are what they
    were.  A child visual is left with a pointer to a scene node that is
    no more: a call on it that uses the node, as [SetPosition], goes
    through this dangling pointer, which is the outcome [Crashed] here. *)
Theorem destroy_takes_child_nodes s n nd p pnd :
  sceneNode (this s) = Some n →
  Ogre.sceneNodes (ogre (sys s)) !! n = Some nd →
  Ogre.parent nd = Some p →
  Ogre.sceneNodes (ogre (sys s)) !! p = Some pnd →
  n ∈ Ogre.children pnd →
  n ≠ p →
  n ∉ Ogre.children nd →
  p ∉ Ogre.children nd →
  Forall (leaf (Ogre.sceneNodes (ogre (sys s)))) (Ogre.children nd) →
  ∃ s',
    Visual_destroy s = (Returned tt, s')
    ∧ GetSceneNode (this s') = None
    ∧ Ogre.sceneNodes (ogre (sys s')) !! n = None
    ∧ (∀ k, k ∈ Ogre.children nd →
         Ogre.sceneNodes (ogre (sys s')) !! k = None)
    ∧ Ogre.sceneNodes (ogre (sys s')) !! p = Some (node_dropChild n pnd)
    ∧ (∀ k, k ≠ n → k ≠ p → k ∉ Ogre.children nd →
         Ogre.sceneNodes (ogre (sys s')) !! k
         = Ogre.sceneNodes (ogre (sys s)) !! k)
    ∧ (∀ child k v,
         sceneNode child = Some k → k ∈ Ogre.children nd →
         (SetPosition v {| this := child; sys := sys s' |}).1 = Crashed).
Proof.
  intros Hnode Hn Hpar Hp Hin Hnp Hnn Hpn Hl.
  eexists. split; [by apply (Visual_destroy_run s n nd p pnd)|].
  set (X := Ogre.sceneNodes (ogre (sys s))).
  assert (∀ k, k ∈ Ogre.children nd →
    delete n (<[p := node_dropChild n pnd]>
                (foldr delete X (Ogre.children nd))) !! k = None) as Hgone.
  { intros k Hk.
    assert (k ≠ n) by (by intros ->). assert (k ≠ p) by (by intros ->).
    rewrite lookup_delete_ne, lookup_insert_ne by done.
    by rewrite lookup_foldr_delete, bool_decide_eq_true_2. }
  split_and!.
  - done.
  - apply lookup_delete_eq.
  - done.
  - change (delete n (<[p := node_dropChild n pnd]>
                        (foldr delete X (Ogre.children nd))) !! p
            = Some (node_dropChild n pnd)).
    rewrite lookup_delete_ne by done. apply lookup_insert_eq.
  - intros k Hkn Hkp Hk.
    change (delete n (<[p := node_dropChild n pnd]>
                        (foldr delete X (Ogre.children nd))) !! k = X !! k).
    rewrite lookup_delete_ne, lookup_insert_ne by done.
    by rewrite lookup_foldr_delete, bool_decide_eq_false_2.
  - intros child k v Hchild Hk. unfold SetPosition.
    erewrite bind_step by reflexivity. simpl. rewrite Hchild.
    unfold update, deref.
    unfold mbind at 1, M_bind at 1, bind at 1.
    erewrite bind_step by reflexivity. cbv beta.
    change (Ogre.sceneNodes _ !! k)
      with (delete n (<[p := node_dropChild n pnd]>
                        (foldr delete X (Ogre.children nd))) !! k).
    by rewrite Hgone.
Qed.

(** *** What every sequence of calls keeps *)

Lemma same_place_refl nd : same_place nd nd.
Proof. done. Qed.

Lemma same_graph_refl ns : same_graph ns ns.
Proof.
  intros k. destruct (ns !! k); constructor. apply same_place_refl.
Qed.

Lemma same_graph_trans ns1 ns2 ns3 :
  same_graph ns1 ns2 → same_graph ns2 ns3 → same_graph ns1 ns3.
Proof.
  intros H12 H23 k. specialize (H12 k). specialize (H23 k).
  destruct H12 as [a b [Hp Hc]|]; inversion H23 as [? c [Hp' Hc'] Heq|];
    subst; constructor.
  split; congruence.
Qed.

Lemma same_graph_insert ns n nd nd' :
  ns !! n = Some nd → same_place nd nd' → same_graph ns (<[n := nd']> ns).
Proof.
  intros Hn Hsame k. destruct (decide (k = n)) as [->|Hk].
  - rewrite lookup_insert_eq, Hn. by constructor.
  - rewrite lookup_insert_ne by done. apply same_graph_refl.
Qed.

Lemma same_graph_dom ns ns' : same_graph ns ns' → dom ns = dom ns'.
Proof.
  intros Hg. apply set_eq. intros k. rewrite !elem_of_dom.
  specialize (Hg k). destruct Hg; split; intros [? ?]; by eauto.
Qed.

(** What a call keeps of a visual with a scene node and parameters. *)
Lemma call_keeps c s n nd ps :
  sceneNode (this s) = Some n →
  Ogre.sceneNodes (ogre (sys s)) !! n = Some nd →
  parameters (this s) = Some ps →
  ∃ s' nd' ps',
    call c s = (Returned tt, s')
    ∧ sceneNode (this s') = Some n
    ∧ Ogre.sceneNodes (ogre (sys s')) !! n = Some nd'
    ∧ parameters (this s') = Some ps'
    ∧ same_graph (Ogre.sceneNodes (ogre (sys s)))
                 (Ogre.sceneNodes (ogre (sys s')))
    ∧ isStatic (this s') = isStatic (this s)
    ∧ name (this s') = name (this s)
    ∧ renderEngineEnabled (sys s') = renderEngineEnabled (sys s)
    ∧ transparency (this s') =
        match passed_transparency c with
        | Some t =>
            if renderEngineEnabled (sys s)
            then std_min (std_max t zero) one_f
            else transparency (this s)
        | None => transparency (this s)
        end.
Proof.
  intros Hnode Hn Hps.
  assert (∀ f, same_place nd (f nd) →
    same_graph (Ogre.sceneNodes (ogre (sys s)))
               (<[n := f nd]> (Ogre.sceneNodes (ogre (sys s))))) as Hins.
  { intros f Hf. by apply (same_graph_insert _ n nd). }
  pose proof (same_graph_refl (Ogre.sceneNodes (ogre (sys s)))) as Hrefl.
  destruct c as [m|t|b|v|q|p|v|h| |]; simpl call.
  - (* SetMaterial *)
    destruct (renderEngineEnabled (sys s)) eqn:Hen.
    2:{ exists s, nd, ps. split; [|by rewrite ?Hen].
        unfold SetMaterial. enter. by rewrite Hen. }
    destruct (decide (m = "")) as [->|Hm].
    { exists s, nd, ps. split; [|by rewrite ?Hen].
      unfold SetMaterial. enter. by rewrite Hen. }
    destruct (Ogre.materials (ogre (sys s)) !! m) as [orig|] eqn:Hmat.
    + eexists _, _, _. split; [by apply (SetMaterial_exact m s n nd orig)|].
      destruct (clone_if_absent_frame (n +:+ "_MATERIAL_" +:+ m) orig (sys s))
        as (Hen1 & Hnodes1 & _).
      split_and!; try done.
      * apply with_node_lookup.
      * unfold with_node. simpl. rewrite Hnodes1. by apply Hins.
      * unfold with_node. simpl. by rewrite Hen1.
    + eexists _, nd, ps.
      split; [by apply (SetMaterial_unknown_run m s n nd)|]. done.
  - (* SetTransparency *)
    destruct (renderEngineEnabled (sys s)) eqn:Hen.
    2:{ exists s, nd, ps. split; [|by rewrite ?Hen].
        unfold SetTransparency. enter. by rewrite Hen. }
    eexists _, nd, ps.
    split; [by apply (SetTransparency_exact t s n nd)|]. done.
  - (* SetCastShadows *)
    destruct (renderEngineEnabled (sys s)) eqn:Hen.
    2:{ exists s, nd, ps. split; [|by rewrite ?Hen].
        unfold SetCastShadows. enter. by rewrite Hen. }
    eexists _, _, ps.
    split; [by apply (SetCastShadows_exact b s n nd)|].
    unfold with_node. simpl.
    destruct (isStatic (this s)) eqn:Hst, (staticGeom (this s)) eqn:Hg;
      simpl; rewrite ?Hst;
      (split_and!; try done; [apply lookup_insert_eq|by apply Hins]).
  - (* SetPosition *)
    eexists _, _, ps. split; [by apply (SetPosition_run v s n nd)|].
    split_and!; try done; [apply with_node_lookup|by apply Hins].
  - (* SetRotation *)
    destruct (renderEngineEnabled (sys s)) eqn:Hen.
    2:{ exists s, nd, ps. split; [|by rewrite ?Hen].
        unfold SetRotation. enter. by rewrite Hen. }
    eexists _, _, ps. split; [by apply (SetRotation_run q s n nd)|].
    split_and!; try done; [apply with_node_lookup|by apply Hins].
  - (* SetPose *)
    destruct (renderEngineEnabled (sys s)) eqn:Hen.
    2:{ exists s, nd, ps. split; [|by rewrite ?Hen].
        unfold SetPose. enter. by rewrite Hen. }
    eexists _, _, ps. split.
    { unfold SetPose. enter. rewrite Hen. simpl.
      erewrite bind_step by by apply (SetPosition_run _ s n nd).
      apply (SetRotation_run _ _ n); [done|done|apply with_node_lookup]. }
    rewrite with_node_twice.
    split_and!; try done; [apply with_node_lookup|].
    by apply (Hins (λ x, Ogre.setOrientation _ _ _ _
                           (Ogre.setPosition _ _ _ x))).
  - (* SetScale *)
    eexists _, _, _. split; [by apply (SetScale_run v s n nd ps)|].
    split_and!; try done; [apply with_node_lookup|by apply Hins].
  - (* SetHighlight *)
    exists s, nd, ps. split; [|done].
    unfold SetHighlight. enter. by destruct (renderEngineEnabled (sys s)).
  - (* MakeStatic *)
    by exists s, nd, ps.
  - (* DetachObjects *)
    destruct (renderEngineEnabled (sys s)) eqn:Hen.
    2:{ exists s, nd, ps. split; [|by rewrite ?Hen].
        unfold DetachObjects. enter. by rewrite Hen. }
    eexists _, _, ps. split; [by apply (DetachObjects_run s n nd)|].
    split_and!; try done; [apply with_node_lookup|by apply Hins].
Qed.

(** X24: on a visual a constructor has set up, every sequence of calls of
    the setters returns: none throws, none crashes.  Throughout, the
    visual keeps its scene node and its name, the scene manager keeps its
    nodes, each with the parent and the children it had, and [IsStatic]
    answers what it answered before: [MakeStatic] does not make a visual
    static. *)
Theorem calls_keep_visual cs s n nd ps :
  sceneNode (this s) = Some n →
  Ogre.sceneNodes (ogre (sys s)) !! n = Some nd →
  parameters (this s) = Some ps →
  ∃ s',
    for_each call cs s = (Returned tt, s')
    ∧ GetSceneNode (this s') = Some n
    ∧ is_Some (Ogre.sceneNodes (ogre (sys s')) !! n)
    ∧ is_Some (parameters (this s'))
    ∧ same_graph (Ogre.sceneNodes (ogre (sys s)))
                 (Ogre.sceneNodes (ogre (sys s')))
    ∧ dom (Ogre.sceneNodes (ogre (sys s')))
      = dom (Ogre.sceneNodes (ogre (sys s)))
    ∧ IsStatic (this s') = IsStatic (this s)
    ∧ name (this s') = name (this s)
    ∧ renderEngineEnabled (sys s') = renderEngineEnabled (sys s).
Proof.
  revert s nd ps. induction cs as [|c cs IH]; intros s nd ps Hnode Hn Hps.
  - exists s. unfold GetSceneNode. split_and!; try done.
    apply same_graph_refl.
  - destruct (call_keeps c s n nd ps Hnode Hn Hps)
      as (s1 & nd1 & ps1 & Hrun & Hnode1 & Hn1 & Hps1 & Hg1 & Hst1 & Hnm1
          & Hen1 & _).
    destruct (IH s1 nd1 ps1 Hnode1 Hn1 Hps1)
      as (s' & Hrest & Hnode' & Hn' & Hps' & Hg' & _ & Hst' & Hnm' & Hen').
    exists s'. simpl. erewrite bind_step by apply Hrun.
    assert (same_graph (Ogre.sceneNodes (ogre (sys s)))
                       (Ogre.sceneNodes (ogre (sys s')))) as Hg
      by by eapply same_graph_trans.
    unfold IsStatic in *.
    split_and!; try done; try congruence.
    symmetry. by apply same_graph_dom.
Qed.

(** X25: the transparency of a visual stays between 0 and 1 under every
    sequence of calls of the setters in which no call passes a value that
    is not a number to [SetTransparency]. *)
Theorem calls_keep_transparency_in_range cs s n nd ps :
  sceneNode (this s) = Some n →
  Ogre.sceneNodes (ogre (sys s)) !! n = Some nd →
  parameters (this s) = Some ps →
  in_range (GetTransparency (this s)) →
  Forall (λ c, passed_transparency c ≠ Some S754_nan) cs →
  ∃ s',
    for_each call cs s = (Returned tt, s')
    ∧ in_range (GetTransparency (this s')).
Proof.
  revert s nd ps.
  induction cs as [|c cs IH]; intros s nd ps Hnode Hn Hps Hin Hcs.
  - by exists s.
  - apply Forall_cons in Hcs as [Hc Hcs].
    destruct (call_keeps c s n nd ps Hnode Hn Hps)
      as (s1 & nd1 & ps1 & Hrun & Hnode1 & Hn1 & Hps1 & _ & _ & _ & _ & Ht).
    destruct (IH s1 nd1 ps1 Hnode1 Hn1 Hps1) as (s' & Hrest & Hin').
    + unfold GetTransparency in *. rewrite Ht.
      destruct (passed_transparency c) as [t|]; [|done].
      destruct (renderEngineEnabled (sys s)); [|done].
      apply clamp_range. by intros ->.
    + done.
    + exists s'. split; [|done]. simpl. by erewrite bind_step by apply Hrun.
Qed.

(** *** The theorems on the small scene *)

Lemma setters_when_disabled_witness :
  SetMaterial "Gazebo/Red" toy_box_disabled = (Returned tt, toy_box_disabled)
  ∧ SetCastShadows false toy_box_disabled = (Returned tt, toy_box_disabled).
Proof.
  destruct (setters_when_disabled toy_box_disabled) as (Hm & _ & Hc & _);
    [reflexivity|].
  split; [apply Hm|apply Hc].
Defined.

Lemma SetPosition_ignores_engine_flag_witness :
  (GetPosition
     (setRenderEngineEnabled true
        (SetPosition (Vector3.mk one_d zero one_d) toy_box_disabled).2)).1
  = Returned (Vector3.mk one_d zero one_d).
Proof.
  apply (SetPosition_ignores_engine_flag (Vector3.mk one_d zero one_d)
           toy_box_disabled "box" toy_box_node); vm_compute; reflexivity.
Defined.

Lemma SetScale_GetScale_witness :
  ((SetScale (Vector3.mk one_d one_d zero);; GetScale) toy_box).1
  = Returned (Vector3.mk one_d one_d zero).
Proof.
  destruct (SetScale_GetScale (Vector3.mk one_d one_d zero) toy_box "box"
              toy_box_node toy_box_params)
    as (nd' & _ & Hiff & _).
  - vm_compute; reflexivity.
  - vm_compute; reflexivity.
  - vm_compute; reflexivity.
  - apply Hiff. vm_compute; reflexivity.
Defined.

Lemma SetMaterial_unknown_witness :
  GetMaterialName (this (SetMaterial "Gazebo/Blue" toy_box).2)
  = GetMaterialName (this toy_box).
Proof.
  apply (SetMaterial_unknown "Gazebo/Blue" toy_box "box" toy_box_node);
    vm_compute; (reflexivity || discriminate).
Defined.

Lemma SetMaterial_twice_witness :
  (SetMaterial "Gazebo/Red";; SetMaterial "Gazebo/Red") toy_box
  = SetMaterial "Gazebo/Red" toy_box.
Proof.
  apply (SetMaterial_twice "Gazebo/Red" toy_box "box" toy_box_node
           toy_material); vm_compute; (reflexivity || discriminate).
Defined.

Lemma SetTransparency_fades_witness :
  Ogre.materials (ogre (sys (SetTransparency one_f toy_box_red).2))
    !! "box_MATERIAL_Gazebo/Red"
  = Some [[ {| Ogre.depthWriteEnabled := false;
               Ogre.diffuse :=
                 {| Ogre.r := one_f; Ogre.g := one_f; Ogre.b := one_f;
                    Ogre.a := zero |} |} ]]
  ∧ Ogre.materials (ogre (sys (SetTransparency one_f toy_box_red).2))
      !! "Gazebo/Red"
    = Some toy_material.
Proof.
  destruct (SetTransparency_fades one_f toy_box_red "box" toy_box_red_node)
    as (_ & Hk & _).
  - vm_compute; reflexivity.
  - vm_compute; reflexivity.
  - vm_compute; reflexivity.
  - split.
    + etrans; [exact (Hk "box_MATERIAL_Gazebo/Red")|].
      vm_compute; reflexivity.
    + etrans; [exact (Hk "Gazebo/Red")|]. vm_compute; reflexivity.
Defined.

Lemma SetTransparency_twice_witness :
  (SetTransparency one_f;; SetTransparency zero) toy_box
  = SetTransparency zero toy_box.
Proof.
  apply (SetTransparency_twice one_f zero toy_box "box" toy_box_node);
    vm_compute; reflexivity.
Defined.

Lemma SetTransparency_fades_clone_only_witness :
  ∃ s',
    (SetMaterial "Gazebo/Red";; SetTransparency one_f) toy_box
    = (Returned tt, s')
    ∧ Ogre.materials (ogre (sys s')) !! "Gazebo/Red" = Some toy_material.
Proof.
  destruct (SetTransparency_fades_clone_only "Gazebo/Red" one_f toy_box
              "box" toy_box_node toy_material)
    as (s' & Hrun & Horig & _).
  - vm_compute; reflexivity.
  - discriminate.
  - vm_compute; reflexivity.
  - vm_compute; reflexivity.
  - vm_compute; reflexivity.
  - exists s'. split; [exact Hrun|exact Horig].
Defined.

Lemma SetCastShadows_twice_witness :
  (SetCastShadows false;; SetCastShadows true) toy_box
  = SetCastShadows true toy_box.
Proof.
  apply (SetCastShadows_twice false true toy_box "box" toy_box_node);
    vm_compute; reflexivity.
Defined.

Lemma constructors_refuse_used_name_witness :
  (Visual_from_Scene "box" TheScene (sys toy_box)).1
  = Thrown "A scene node with the name box already exists"
  ∧ sys (Visual_from_Scene "box" TheScene (sys toy_box)).2 = sys toy_box.
Proof.
  destruct (constructors_refuse_used_name "box" (sys toy_box) "root"
              (Ogre.addChild "box" toy_root) toy_box_node
              (Visual_from_Scene "box" TheScene (sys toy_box)))
    as (H1 & H2 & _).
  - vm_compute; reflexivity.
  - vm_compute; reflexivity.
  - right. right. split; reflexivity.
  - split; [exact H1|exact H2].
Defined.

Lemma constructors_need_parent_witness :
  Visual_from_SceneNode "lamp" "shelf" (sys toy_box)
  = (Crashed, {| this := allocate "lamp" None; sys := sys toy_box |}).
Proof.
  apply (constructors_need_parent "lamp" (sys toy_box)).
  vm_compute; reflexivity.
Defined.

Lemma GetAttached_wraps_index_witness :
  GetAttached (N.to_nat 65536 + 0) toy_box = GetAttached 0 toy_box
  ∧ GetAttached 0 toy_box
    = (Returned (Some (Ogre.Entity "box_mesh" true ["BaseWhite"; "BaseWhite"])),
       toy_box).
Proof.
  destruct (GetAttached_wraps_index toy_box "box" toy_box_node)
    as (_ & _ & Hsmall & Hwrap).
  - vm_compute; reflexivity.
  - vm_compute; reflexivity.
  - vm_compute; reflexivity.
  - split; [exact (Hwrap 0)|]. by rewrite (Hsmall 0).
Defined.

Lemma SetBoundingBoxMaterial_errors_witness :
  SetBoundingBoxMaterial "Gazebo/Red" toy_box = (Crashed, toy_box).
Proof.
  apply (SetBoundingBoxMaterial_errors "Gazebo/Red" toy_box);
    vm_compute; (reflexivity || discriminate).
Defined.

Lemma SetBoundingBoxMaterial_sets_witness :
  this (SetBoundingBoxMaterial "Gazebo/Red" toy_box_with_bb).2
  = this toy_box_with_bb.
Proof.
  apply (SetBoundingBoxMaterial_sets "Gazebo/Red" toy_box_with_bb
           "box_AABB_NODE"
           (Ogre.setAttached
              [Ogre.Entity "box_AABB_NODE_OBJ" true
                 ["Gazebo/GreenTransparent"]]
              (Ogre.newSceneNode "box"))
           toy_material); vm_compute; (reflexivity || discriminate).
Defined.

Lemma AttachVisual_moves_witness :
  Ogre.sceneNodes (ogre (sys (AttachVisual toy_lamp toy_box_and_lamp).2))
    !! "lamp"
  = Some (node_setParent (Some "box") (Ogre.newSceneNode "root")).
Proof.
  apply (AttachVisual_moves toy_lamp toy_box_and_lamp "box" toy_box_node
           "lamp" (Ogre.newSceneNode "root") "root"
           (Ogre.addChild "lamp" (Ogre.addChild "box" toy_root))).
  - vm_compute; reflexivity.
  - vm_compute; reflexivity.
  - vm_compute; reflexivity.
  - vm_compute; reflexivity.
  - vm_compute; reflexivity.
  - vm_compute; reflexivity.
  - compute_done.
  - discriminate.
  - discriminate.
  - discriminate.
Defined.

Lemma DetachVisual_orphans_witness :
  ∃ s',
    DetachVisual toy_lamp toy_box_over_lamp
    = (Returned (SetParent None toy_lamp), s')
    ∧ (AttachVisual (SetParent None toy_lamp) s').1 = Crashed.
Proof.
  destruct (DetachVisual_orphans toy_lamp toy_box_over_lamp "box"
              (Ogre.addChild "lamp" toy_box_node)
              "lamp" (Ogre.newSceneNode "box"))
    as (s' & Hrun & _ & _ & _ & _ & Hattach & _).
  - vm_compute; reflexivity.
  - vm_compute; reflexivity.
  - vm_compute; reflexivity.
  - vm_compute; reflexivity.
  - compute_done.
  - discriminate.
  - exists s'. split; [exact Hrun|exact Hattach].
Defined.

Lemma destroy_after_construct_witness :
  sys (Visual_destroy
         (Visual_from_Visual "lamp" (Some (this toy_box)) (sys toy_box)).2).2
  = sys toy_box.
Proof.
  apply (destroy_after_construct "lamp" (sys toy_box) "box" toy_box_node
           (Visual_from_Visual "lamp" (Some (this toy_box)) (sys toy_box))).
  - vm_compute; reflexivity.
  - vm_compute; reflexivity.
  - compute_done.
  - compute_done.
  - left. exists (this toy_box). split; reflexivity.
Defined.

Lemma destroy_takes_child_nodes_witness :
  ∃ s',
    Visual_destroy toy_box_over_lamp = (Returned tt, s')
    ∧ Ogre.sceneNodes (ogre (sys s')) !! "lamp" = None
    ∧ (SetPosition Vector3.default {| this := toy_lamp; sys := sys s' |}).1
      = Crashed.
Proof.
  destruct (destroy_takes_child_nodes toy_box_over_lamp "box"
              (Ogre.addChild "lamp" toy_box_node) "root"
              (Ogre.addChild "box" toy_root))
    as (s' & Hrun & _ & _ & Hgone & _ & _ & Hcrash).
  - vm_compute; reflexivity.
  - vm_compute; reflexivity.
  - vm_compute; reflexivity.
  - vm_compute; reflexivity.
  - compute_done.
  - vm_compute; discriminate.
  - compute_done.
  - compute_done.
  - repeat constructor. exists (Ogre.newSceneNode "box").
    split; vm_compute; reflexivity.
  - exists s'. split; [exact Hrun|]. split.
    + apply Hgone. apply list_elem_of_lookup. by exists 0.
    + apply (Hcrash toy_lamp "lamp"); [reflexivity|].
      apply list_elem_of_lookup. by exists 0.
Defined.

Lemma calls_keep_visual_witness :
  ∃ s',
    for_each call toy_calls toy_box = (Returned tt, s')
    ∧ GetSceneNode (this s') = Some "box"
    ∧ IsStatic (this s') = false.
Proof.
  destruct (calls_keep_visual toy_calls toy_box "box" toy_box_node
              toy_box_params)
    as (s' & Hrun & Hnode & _ & _ & _ & _ & Hst & _);
    [vm_compute; reflexivity..|].
  exists s'. split; [exact Hrun|]. split; [exact Hnode|]. by rewrite Hst.
Defined.

Lemma calls_keep_transparency_in_range_witness :
  ∃ s',
    for_each call toy_calls toy_box = (Returned tt, s')
    ∧ in_range (GetTransparency (this s')).
Proof.
  apply (calls_keep_transparency_in_range toy_calls toy_box "box"
           toy_box_node
           toy_box_params);
    try (vm_compute; reflexivity).
  - split; vm_compute; reflexivity.
  - unfold toy_calls. repeat constructor; discriminate.
Defined.

(** *** The node of the bounding box *)

Lemma candidate_length nm j k :
  j < k → String.length (candidate nm j) < String.length (candidate nm k).
Proof.
  induction 1 as [|k Hle IH]; simpl; rewrite !string_length_app; simpl; lia.
Qed.

Lemma candidate_inj nm j k : candidate nm j = candidate nm k → j = k.
Proof.
  intros Heq. apply (f_equal String.length) in Heq.
  destruct (Nat.lt_trichotomy j k) as [Hlt|[->|Hlt]]; [|done|];
    apply (candidate_length nm) in Hlt; lia.
Qed.

(** The names tried are pairwise different, so no more of them are taken
    than the scene manager has nodes. *)
Lemma candidates_taken nm (nodes : gmap string Ogre.SceneNode) m :
  (∀ j, j < m → is_Some (nodes !! candidate nm j)) → m ≤ size nodes.
Proof.
  intros Htaken.
  assert (NoDup (candidate nm <$> seq 0 m)) as Hnodup.
  { apply NoDup_fmap_2; [|apply NoDup_seq].
    intros j k. apply candidate_inj. }
  rewrite <- (size_dom (D := gset string)).
  etrans; [|apply (subseteq_size (list_to_set (candidate nm <$> seq 0 m)))].
  - rewrite size_list_to_set by done. by rewrite length_fmap, length_seq.
  - intros x. rewrite elem_of_list_to_set, list_elem_of_fmap.
    intros (j & -> & Hj%elem_of_seq). apply elem_of_dom, Htaken. lia.
Qed.

(** The loop ends within its fuel, on the first name that is free. *)
Lemma freeNodeName_finds nm (nodes : gmap string Ogre.SceneNode) fuel i :
  (∀ j, j < i → is_Some (nodes !! candidate nm j)) →
  i + fuel = size nodes →
  ∃ k, i ≤ k ≤ size nodes
       ∧ freeNodeName fuel nodes (candidate nm i) i = Some (candidate nm k)
       ∧ nodes !! candidate nm k = None
       ∧ ∀ j, j < k → is_Some (nodes !! candidate nm j).
Proof.
  revert i. induction fuel as [|fuel IH]; intros i Htaken Hfuel.
  - destruct (nodes !! candidate nm i) as [x|] eqn:Hi.
    + assert (S i ≤ size nodes); [|lia].
      apply (candidates_taken nm). intros j Hj.
      destruct (decide (j = i)) as [->|]; [by rewrite Hi|].
      apply Htaken. lia.
    + exists i. simpl. rewrite Hi. split_and!; [lia|lia|done|done|done].
  - destruct (nodes !! candidate nm i) as [x|] eqn:Hi.
    + destruct (IH (S i)) as (k & Hk & Hrun & Hfree & Hbelow).
      * intros j Hj. destruct (decide (j = i)) as [->|]; [by rewrite Hi|].
        apply Htaken. lia.
      * lia.
      * exists k. simpl. rewrite Hi. split_and!; [lia|lia|done|done|done].
    + exists i. simpl. rewrite Hi. split_and!; [lia|lia|done|done|done].
Qed.

(** X26: [AttachBoundingBox] always finds a name for the node of the
    bounding box, after at most as many rounds of its loop as the scene
    manager has nodes: the first of the names "n_AABB_NODE",
    "n_AABB_NODE_0", "n_AABB_NODE_0_1", ... that no node has.  So the
    creation of the node does not throw: the new node hangs below the scene
    node of the visual, becomes its bounding box node, and no other node
    changes. *)
Theorem AttachBoundingBox_node_fresh s n nd :
  sceneNode (this s) = Some n →
  Ogre.sceneNodes (ogre (sys s)) !! n = Some nd →
  ∃ k,
    k ≤ size (Ogre.sceneNodes (ogre (sys s)))
    ∧ (∀ j, j < k →
         is_Some (Ogre.sceneNodes (ogre (sys s))
                    !! candidate (n +:+ "_AABB_NODE") j))
    ∧ Ogre.sceneNodes (ogre (sys s)) !! candidate (n +:+ "_AABB_NODE") k
      = None
    ∧ (AttachBoundingBox_node s).1 = Returned tt
    ∧ boundingBoxNode (this (AttachBoundingBox_node s).2)
      = Some (candidate (n +:+ "_AABB_NODE") k)
    ∧ Ogre.sceneNodes (ogre (sys (AttachBoundingBox_node s).2))
        !! candidate (n +:+ "_AABB_NODE") k
      = Some (Ogre.newSceneNode n)
    ∧ Ogre.sceneNodes (ogre (sys (AttachBoundingBox_node s).2)) !! n
      = Some (Ogre.addChild (candidate (n +:+ "_AABB_NODE") k) nd)
    ∧ (∀ j, j ≠ n → j ≠ candidate (n +:+ "_AABB_NODE") k →
         Ogre.sceneNodes (ogre (sys (AttachBoundingBox_node s).2)) !! j
         = Ogre.sceneNodes (ogre (sys s)) !! j).
Proof.
  intros Hnode Hn.
  set (nodes := Ogre.sceneNodes (ogre (sys s))).
  destruct (freeNodeName_finds (n +:+ "_AABB_NODE") nodes (size nodes) 0)
    as (k & [_ Hk] & Hrun & Hfree & Hbelow); [intros j; lia|done|].
  set (bb := candidate (n +:+ "_AABB_NODE") k) in *.
  assert (bb ≠ n) as Hne.
  { intros Heq. rewrite Heq in Hfree. unfold nodes in Hfree. congruence. }
  exists k. split; [done|]. split; [done|]. split; [done|].
  unfold AttachBoundingBox_node.
  erewrite bind_step by reflexivity. simpl. rewrite Hnode.
  erewrite (bind_step _ _ _ n s).
  2:{ unfold getName. by erewrite bind_step by by apply deref_Some. }
  erewrite bind_step by reflexivity. cbv beta.
  change (freeNodeName _ _ _ 0)
    with (freeNodeName (size nodes) nodes
            (candidate (n +:+ "_AABB_NODE") 0) 0).
  rewrite Hrun.
  erewrite bind_step by by apply (createChildSceneNode_fresh n nd).
  simpl. split_and!.
  - done.
  - done.
  - apply lookup_insert_eq.
  - rewrite lookup_insert_ne by done. apply lookup_insert_eq.
  - intros j Hjn Hjb. by rewrite !lookup_insert_ne.
Qed.

Lemma AttachBoundingBox_node_fresh_witness :
  (AttachBoundingBox_node toy_box_with_bb).1 = Returned tt
  ∧ boundingBoxNode (this (AttachBoundingBox_node toy_box_with_bb).2)
    = Some "box_AABB_NODE_0".
Proof.
  destruct (AttachBoundingBox_node_fresh toy_box_with_bb "box"
              (Ogre.addChild "box_AABB_NODE" toy_box_node))
    as (k & _ & _ & _ & Hrun & _).
  - vm_compute; reflexivity.
  - vm_compute; reflexivity.
  - split; [exact Hrun|]. vm_compute; reflexivity.
Defined.

(** *** Loading *)


(** X28: [Load] stops early in two ways.  With the engine disabled it
    returns without a change.  With the engine enabled and a mesh for which
    Ogre throws, it leaves by the exception "Unable to create a mesh from"
    followed by the mesh name, again without a change: nothing has been
    attached, and neither the pose nor the material is set. *)
Theorem Load_stops_early mesh_entity s ps :
  parameters (this s) = Some ps →
  (renderEngineEnabled (sys s) = false →
   Load mesh_entity s = (Returned tt, s))
  ∧ (∀ n nd,
       renderEngineEnabled (sys s) = true →
       sceneNode (this s) = Some n →
       Ogre.sceneNodes (ogre (sys s)) !! n = Some nd →
       meshNameP ps ≠ "" →
       mesh_entity ("VISUAL_" +:+ n) (meshNameP ps) = OgreException →
       Load mesh_entity s
       = (Thrown ("Unable to create a mesh from " +:+ meshNameP ps), s)).
Proof.
  intros Hps. split.
  - intros Hen. unfold Load.
    erewrite bind_step by reflexivity. simpl. rewrite Hps.
    enter. by rewrite Hen.
  - intros n nd Hen Hnode Hn Hmesh Hnone. unfold Load.
    erewrite bind_step by reflexivity. simpl. rewrite Hps.
    enter. rewrite Hen. simpl.
    erewrite bind_step by reflexivity. simpl. rewrite Hnode.
    erewrite (bind_step _ _ _ n s).
    2:{ unfold getName. by erewrite bind_step by by apply deref_Some. }
    rewrite (bool_decide_eq_false_2 (meshNameP ps = "")) by done.
    rewrite Hnone. reflexivity.
Qed.


Lemma Load_stops_early_witness :
  Load (λ _ _, OgreException) toy_box_to_load
  = (Thrown "Unable to create a mesh from unit_sphere", toy_box_to_load).
Proof.
  apply (proj2 (Load_stops_early (λ _ _, OgreException) toy_box_to_load
                  toy_params eq_refl) "box" toy_box_node).
  - vm_compute; reflexivity.
  - vm_compute; reflexivity.
  - vm_compute; reflexivity.
  - discriminate.
  - reflexivity.
Defined.

End RenderingMoreTheory.

(** ** Theory of the insertion of meshes *)

Module MeshInsertionTheory.
Import Rendering MeshInsertion.

Lemma concat_uniform_length {A} (l : list (list A)) k :
  Forall (λ c, length c = k) l → length (concat l) = length l * k.
Proof.
  induction 1 as [|c l Hc Hl IH]; simpl; [done|].
  rewrite length_app, IH, Hc. done.
Qed.

Lemma concat_uniform_drop {A} (l : list (list A)) k j :
  Forall (λ c, length c = k) l →
  drop (j * k) (concat l) = concat (drop j l).
Proof.
  intros Hl. revert j. induction Hl as [|c l Hc Hl IH]; intros j.
  - simpl. by rewrite !drop_nil.
  - destruct j as [|j]; [done|]. simpl.
    rewrite <- Hc at 1. rewrite drop_app_add. apply IH.
Qed.

(** Reading inside the chunk of vertex [j]. *)
Lemma concat_uniform_read {A} (l : list (list A)) k j c o n :
  Forall (λ c, length c = k) l →
  l !! j = Some c →
  o + n ≤ k →
  take n (drop (j * k + o) (concat l)) = take n (drop o c).
Proof.
  intros Hl Hj Hon.
  assert (length c = k) as Hc by (by eapply Forall_lookup_1 in Hl).
  rewrite <- drop_drop, (concat_uniform_drop l k j Hl).
  rewrite (drop_S l c j Hj). simpl.
  rewrite drop_app_le by lia. rewrite take_app_le; [done|].
  rewrite length_drop. lia.
Qed.

(** One round of the loop over the vertices writes the chunk of its
    vertex. *)
Lemma write_vertex_chunk sm j :
  complete sm →
  j < length (vertices sm) →
  write_vertex sm j = Some (chunk sm j) ∧ length (chunk sm j) = stride sm.
Proof.
  intros [Hn Ht] Hj. unfold write_vertex, chunk, stride, element_data.
  destruct (lookup_lt_is_Some_2 (vertices sm) j Hj) as [v Hv].
  rewrite Hv. simpl.
  assert ((0 <? length (normals sm)) = true →
          is_Some (normals sm !! j)) as Hnj.
  { intros Hpos%Nat.ltb_lt. apply lookup_lt_is_Some_2.
    destruct Hn as [Hn|Hn]; [rewrite Hn in Hpos; simpl in Hpos|]; lia. }
  assert ((0 <? length (texCoords sm)) = true →
          is_Some (texCoords sm !! j)) as Htj.
  { intros Hpos%Nat.ltb_lt. apply lookup_lt_is_Some_2.
    destruct Ht as [Ht|Ht]; [rewrite Ht in Hpos; simpl in Hpos|]; lia. }
  destruct (0 <? length (normals sm)), (0 <? length (texCoords sm));
    try (destruct Hnj as [n ->]; [done|]);
    try (destruct Htj as [t ->]; [done|]); done.
Qed.

Lemma chunks_uniform sm :
  complete sm →
  Forall (λ c, length c = stride sm)
         (chunk sm <$> seq 0 (length (vertices sm))).
Proof.
  intros Hc. apply Forall_fmap, Forall_forall. intros j Hj%elem_of_seq.
  simpl. apply write_vertex_chunk; [done|lia].
Qed.

Lemma write_vertices_chunks sm :
  complete sm →
  write_vertices sm
  = Some (concat (chunk sm <$> seq 0 (length (vertices sm)))).
Proof.
  intros Hc. unfold write_vertices.
  rewrite (mapM_Some_2 _ _ (chunk sm <$> seq 0 (length (vertices sm))));
    [done|].
  apply Forall2_fmap_r, Forall_Forall2_diag, Forall_forall.
  intros j Hj%elem_of_seq. apply write_vertex_chunk; [done|lia].
Qed.

(** The size of the vertex the declaration gives is the offset after its
    last element, four bytes for each float of a chunk. *)
Lemma declare_size sm :
  getVertexSize (declare sm).1 0 = (declare sm).2
  ∧ (declare sm).2 = stride sm * 4.
Proof.
  unfold declare, stride, getVertexSize.
  by destruct (0 <? length (normals sm)), (0 <? length (texCoords sm)).
Qed.

Lemma insert_subMesh_complete sm :
  complete sm → is_Some (insert_subMesh sm).
Proof.
  intros Hc. unfold insert_subMesh.
  rewrite (write_vertices_chunks sm Hc). by eexists.
Qed.

(** Where the declaration puts an element is where the loop writes it. *)
Lemma declare_layout sm e j :
  complete sm →
  j < length (vertices sm) →
  e ∈ (declare sm).1 →
  offset e / 4 + components (type e) ≤ stride sm
  ∧ ∃ d, element_data sm (semantic e) j = Some d
         ∧ take (components (type e)) (drop (offset e / 4) (chunk sm j))
           = to_float <$> d.
Proof.
  intros [Hn Ht] Hj. unfold declare, stride, chunk, element_data.
  destruct (lookup_lt_is_Some_2 (vertices sm) j Hj) as [v Hv].
  rewrite Hv. simpl.
  assert ((0 <? length (normals sm)) = true →
          is_Some (normals sm !! j)) as Hnj.
  { intros Hpos%Nat.ltb_lt. apply lookup_lt_is_Some_2.
    destruct Hn as [Hn|Hn]; [rewrite Hn in Hpos; simpl in Hpos|]; lia. }
  assert ((0 <? length (texCoords sm)) = true →
          is_Some (texCoords sm !! j)) as Htj.
  { intros Hpos%Nat.ltb_lt. apply lookup_lt_is_Some_2.
    destruct Ht as [Ht|Ht]; [rewrite Ht in Hpos; simpl in Hpos|]; lia. }
  destruct (0 <? length (normals sm)), (0 <? length (texCoords sm));
    try (destruct Hnj as [n Hnj]; [done|]; rewrite Hnj);
    try (destruct Htj as [t Htj]; [done|]; rewrite Htj);
    simpl; intros He;
    repeat (apply elem_of_cons in He as [->|He]);
    try (by apply elem_of_nil in He);
    (split; [simpl; lia|]); eexists; (split; [try done|]);
    rewrite ?Hv, ?Hnj, ?Htj; done.
Qed.

(** X29: for a sub-mesh that has its normals and texture coordinates, if
    any, for every vertex, the round of [InsertMesh] fills its buffers
    exactly: the floats written through [vertices] take the size the
    vertex buffer was created with, the size of a vertex of the
    declaration times the number of vertices, and the indices written
    through [indices] are as many as the index buffer was created for.
    The declaration agrees with the writes: the element it declares at
    an offset for a semantic is, for every vertex, what the sub-mesh has
    for this semantic, converted to [float].  And every index is written
    modulo 65536, so that an index that does not fit in 16 bits is not the
    one read back. *)
Theorem insert_subMesh_buffers sm :
  complete sm →
  ∃ o,
    insert_subMesh sm = Some o
    ∧ vertexCount o = length (vertices sm)
    ∧ getVertexSize (vertexDeclaration o) 0 = (declare sm).2
    ∧ vertexBufferSize o = getVertexSize (vertexDeclaration o) 0 * vertexCount o
    ∧ 4 * length (vertexBuffer o) = vertexBufferSize o
    ∧ length (indexBuffer o) = indexCount o
    ∧ (∀ e j, e ∈ vertexDeclaration o → j < vertexCount o →
         ∃ d, element_data sm (semantic e) j = Some d
              ∧ read_element (vertexBuffer o)
                  (getVertexSize (vertexDeclaration o) 0) e j
                = to_float <$> d)
    ∧ (∀ j i, indices sm !! j = Some i →
         indexBuffer o !! j = Some (i mod 65536)%N
         ∧ ((i < 65536)%N → indexBuffer o !! j = Some i)
         ∧ ((65536 ≤ i)%N → indexBuffer o !! j ≠ Some i)).
Proof.
  intros Hc. unfold insert_subMesh.
  rewrite (write_vertices_chunks sm Hc). simpl.
  destruct (declare_size sm) as [Hsize Hstride].
  pose proof (chunks_uniform sm Hc) as Hall.
  eexists. split; [reflexivity|]. simpl.
  split_and!.
  - done.
  - done.
  - done.
  - rewrite (concat_uniform_length _ _ Hall), length_fmap, length_seq.
    rewrite Hsize, Hstride. lia.
  - unfold write_indices. by rewrite length_fmap.
  - intros e j He Hj.
    destruct (declare_layout sm e j Hc Hj He) as (Hfit & d & Hd & Hread).
    exists d. split; [done|]. unfold read_element.
    rewrite Hsize, Hstride, Nat.mul_assoc, Nat.div_add_l by done.
    rewrite (concat_uniform_read _ (stride sm) j (chunk sm j)); try done.
    rewrite list_lookup_fmap, lookup_seq_lt by done. done.
  - intros j i Hi. unfold write_indices, to_ushort.
    rewrite list_lookup_fmap, Hi. simpl. split_and!.
    + done.
    + intros Hlt. by rewrite N.mod_small.
    + intros Hge [= Heq].
      pose proof (N.mod_upper_bound i 65536). lia.
Qed.

(** X30: how [InsertMesh] ends.  A mesh without sub-mesh is skipped.  A
    mesh whose name Ogre's mesh manager has already is not inserted: the
    exception is caught and logged.  A mesh that is inserted has one
    sub-mesh in Ogre for each of its sub-meshes, in order; its bounds, as
    Gazebo has them in [double]s, are finite, and Ogre gets them rounded
    to [Ogre::Real].  And when the maximum of the bounding box is not
    finite, the exception leaves [InsertMesh]: the handler is for
    exceptions of Ogre only. *)
Theorem InsertMesh_outcomes existing mesh :
  (subMeshes mesh = [] → InsertMesh existing mesh = Skipped)
  ∧ (subMeshes mesh ≠ [] → meshName mesh ∈ existing →
     InsertMesh existing mesh
     = Logged ("Unable to create a basic Unit cylinder object" +:+ nl))
  ∧ (∀ subs bounds,
       InsertMesh existing mesh = Inserted subs bounds →
       (meshName mesh ∉ existing)
       ∧ Forall2 (λ sm o, insert_subMesh sm = Some o) (subMeshes mesh) subs
       ∧ subs ≠ []
       ∧ bounds = (to_Ogre_Vector3 (meshMin mesh),
                   to_Ogre_Vector3 (meshMax mesh))
       ∧ IsFinite (meshMin mesh) = true
       ∧ IsFinite (meshMax mesh) = true)
  ∧ (subMeshes mesh ≠ [] → meshName mesh ∉ existing →
     Forall complete (subMeshes mesh) →
     IsFinite (meshMax mesh) = false →
     InsertMesh existing mesh = Thrown MaxNotFinite).
Proof.
  unfold InsertMesh. split_and!.
  - by intros ->.
  - intros Hsubs Hin. destruct (subMeshes mesh); [done|]. simpl.
    by rewrite bool_decide_eq_true_2.
  - intros subs bounds.
    destruct (subMeshes mesh) as [|sm sms] eqn:Hsms; [done|]. simpl length.
    cbn [Nat.eqb]. case_bool_decide as Hin; [done|].
    destruct (mapM insert_subMesh (sm :: sms)) as [subs'|] eqn:Hmap; [|done].
    destruct (IsFinite (meshMax mesh)); [|done].
    destruct (IsFinite (meshMin mesh)); [|done].
    simpl. intros [= <- <-].
    apply mapM_Some_1 in Hmap. split_and!; try done.
    intros ->. inversion Hmap.
  - intros Hsubs Hin Hall Hmax.
    destruct (subMeshes mesh) as [|sm sms] eqn:Hsms; [done|]. simpl length.
    cbn [Nat.eqb]. rewrite bool_decide_eq_false_2 by done.
    destruct (mapM_is_Some_2 insert_subMesh (sm :: sms)) as [subs ->].
    { eapply Forall_impl; [exact Hall|]. intros x Hx. simpl.
      destruct (insert_subMesh_complete x Hx) as [o ->]. done. }
    by rewrite Hmax.
Qed.

Lemma insert_subMesh_buffers_witness :
  ∃ o,
    insert_subMesh toy_subMesh = Some o
    ∧ vertexBufferSize o = 96
    ∧ 4 * length (vertexBuffer o) = 96
    ∧ indexBuffer o = [0; 1; 2]%N.
Proof.
  destruct (insert_subMesh_buffers toy_subMesh)
    as (o & Hrun & _ & _ & _ & Hfill & _).
  - split; right; simpl; lia.
  - exists o. split; [exact Hrun|].
    vm_compute in Hrun. injection Hrun as <-.
    split; [reflexivity|]. split; reflexivity.
Defined.

(** The test of the bounds is on the [double]s: a bound beyond the range
    of [float] passes it and is infinite in Ogre. *)
Example InsertMesh_infinite_bound :
  IsFinite (meshMax toy_mesh_huge) = true
  ∧ ∃ subs lower,
      InsertMesh ∅ toy_mesh_huge
      = Inserted subs
          (lower, Ogre.Vector3.mk (S754_infinity false) one_f zero).
Proof. split; [reflexivity|]. eexists _, _. vm_compute. reflexivity. Qed.

Lemma InsertMesh_outcomes_witness :
  InsertMesh {[ "triangle" ]} toy_mesh
  = Logged ("Unable to create a basic Unit cylinder object" +:+ nl).
Proof.
  apply (InsertMesh_outcomes {[ "triangle" ]} toy_mesh).
  - discriminate.
  - compute_done.
Defined.

End MeshInsertionTheory.
